(** * ESP32-CAM to OLED stream: the frame converter, the device initializer
      and the pipeline loop of [esp32cam_to_oled.ino], embedded and verified.

    The sketch is embedded shallowly: integers are [Z] with the wrap-around of
    their C type written out, single-precision floats are the IEEE 754
    specification of the standard library instantiated at binary32, the static
    bitmap buffer is a list of bytes updated by index, and every call into a
    collaborator (serial port, I2C bus, display driver, camera driver, timer)
    is an event appended to a trace by a small state monad. *)

From Stdlib Require Import ZArith List String Lia Bool QArith Qpower Lqa.
From Stdlib Require Import Floats.SpecFloat.
From stdpp Require Import base list.

Local Open Scope Z_scope.

(** ** Single-precision arithmetic (binary32: 24-bit significand) *)

Module Float32.

Definition prec : Z := 24.
Definition emax : Z := 128.

Definition float := spec_float.

(** Conversion of a C integer to [float] (round to nearest even). *)
Definition of_int (n : Z) : float := binary_normalize prec emax n 0 false.

Definition mul : float -> float -> float := SFmul prec emax.
Definition div : float -> float -> float := SFdiv prec emax.

(** The C cast [(int)f]: truncation toward zero.  The cast of an infinity or
    of a NaN is undefined in C; it is given the value 0 here and the users
    below are shown never to reach it. *)
Definition to_int (f : float) : Z :=
  match f with
  | S754_finite s m e =>
      let a := match e with
               | Zneg p => Z.shiftr (Zpos m) (Zpos p)
               | _ => Z.shiftl (Zpos m) e
               end in
      if s then - a else a
  | _ => 0
  end.

Definition is_finite (f : float) : bool :=
  match f with
  | S754_finite _ _ _ | S754_zero _ => true
  | _ => false
  end.

End Float32.

(** ** Build-time configuration *)

Definition BMP_W : Z := 128.
Definition BMP_H : Z := 64.
Definition BRIGHTNESS_THRESHOLD : Z := 64.
Definition FRAME_DELAY_MS : Z := 50.
Definition MAX_RETRIES : Z := 5.
Definition STARTUP_DELAY_MS : Z := 3000.

(** [sizeof(bitmapBuffer)]: 128 * 64 / 8 bytes. *)
Definition BITMAP_BYTES : Z := BMP_W * BMP_H / 8.

(** [const float scaleX = 96.0f / BMP_W;] and [scaleY = 96.0f / BMP_H;] *)
Definition scaleX : Float32.float :=
  Float32.div (Float32.of_int 96) (Float32.of_int BMP_W).
Definition scaleY : Float32.float :=
  Float32.div (Float32.of_int 96) (Float32.of_int BMP_H).

(** ** Camera frames *)

Inductive pixformat_t :=
| PIXFORMAT_RGB565 | PIXFORMAT_YUV422 | PIXFORMAT_YUV420 | PIXFORMAT_GRAYSCALE
| PIXFORMAT_JPEG | PIXFORMAT_RGB888 | PIXFORMAT_RAW | PIXFORMAT_RGB444
| PIXFORMAT_RGB555.

Definition pixformat_eqb (a b : pixformat_t) : bool :=
  match a, b with
  | PIXFORMAT_RGB565, PIXFORMAT_RGB565 | PIXFORMAT_YUV422, PIXFORMAT_YUV422
  | PIXFORMAT_YUV420, PIXFORMAT_YUV420 | PIXFORMAT_GRAYSCALE, PIXFORMAT_GRAYSCALE
  | PIXFORMAT_JPEG, PIXFORMAT_JPEG | PIXFORMAT_RGB888, PIXFORMAT_RGB888
  | PIXFORMAT_RAW, PIXFORMAT_RAW | PIXFORMAT_RGB444, PIXFORMAT_RGB444
  | PIXFORMAT_RGB555, PIXFORMAT_RGB555 => true
  | _, _ => false
  end.

(** [camera_fb_t]: [buf] is a nullable pointer to the pixel bytes, [len] the
    declared length in bytes. *)
Record camera_fb_t := mk_fb {
  buf : option (list Z);
  len : Z;
  width : Z;
  height : Z;
  format : pixformat_t
}.

(** ** The frame converter *)

(** [a[i]] on a byte array.  A read past the end is undefined in C and is
    given the value 0 here; the converter is shown to stay inside its 96x96
    source ([src_index_range]). *)
Definition byte_at (a : list Z) (i : Z) : Z := default 0 (a !! Z.to_nat i).

(** [memset(a, v, n)] on an array of at least [n] bytes. *)
Definition memset (a : list Z) (v : Z) (n : Z) : list Z :=
  replicate (Z.to_nat n `min` length a) v ++ drop (Z.to_nat n) a.

(** [int srcX = (int)(x * scaleX); if (srcX >= 96) srcX = 95;] *)
Definition srcX_of (x : Z) : Z :=
  let s := Float32.to_int (Float32.mul (Float32.of_int x) scaleX) in
  if 96 <=? s then 95 else s.

Definition srcY_of (y : Z) : Z :=
  let s := Float32.to_int (Float32.mul (Float32.of_int y) scaleY) in
  if 96 <=? s then 95 else s.

(** [bitmapBuffer[idx] |= (1 << bit);] the result is stored in a [uint8_t].
    A write past the end is undefined in C and does nothing here; the
    converter is shown to stay inside the 1024 bytes ([pixel_position]). *)
Definition or_bit (b : list Z) (idx bit : Z) : list Z :=
  <[Z.to_nat idx := Z.land (Z.lor (byte_at b idx) (Z.shiftl 1 bit)) 255]> b.

(** Body of the inner loop, for one [x]. *)
Definition convert_pixel (gray : list Z) (threshold : Z) (y srcRow : Z)
    (b : list Z) (x : Z) : list Z :=
  let srcX := srcX_of x in
  let pix := byte_at gray (srcRow + srcX) in
  if threshold <? pix then
    let idx := Z.shiftr (y * BMP_W + x) 3 in
    let bit := 7 - Z.land x 7 in
    or_bit b idx bit
  else b.

(** Body of the outer loop, for one [y]. *)
Definition convert_row (gray : list Z) (threshold : Z) (b : list Z) (y : Z)
    : list Z :=
  let srcY := srcY_of y in
  let srcRow := srcY * 96 in
  foldl (convert_pixel gray threshold y srcRow) b (seqZ 0 BMP_W).

(** The two nested loops, with the threshold as a parameter. *)
Definition convert_loops (gray : list Z) (threshold : Z) (b : list Z) : list Z :=
  foldl (convert_row gray threshold) b (seqZ 0 BMP_H).

(** [convertFrameToBitmap(fb)]: the new contents of [bitmapBuffer]. *)
Definition convertFrameToBitmap (fb : option camera_fb_t)
    (bitmapBuffer : list Z) : list Z :=
  match fb with
  | None => bitmapBuffer
  | Some f =>
      match buf f with
      | None => bitmapBuffer
      | Some gray =>
          if len f <? 96 * 96 then bitmapBuffer
          else
            let b0 := memset bitmapBuffer 0 BITMAP_BYTES in
            convert_loops gray BRIGHTNESS_THRESHOLD b0
      end
  end.

(** The bit of destination pixel [(x, y)]: byte [(y * 128 + x) >> 3], bit
    [7 - (x & 7)], the position the converter writes and the display's
    [drawBitmap] reads. *)
Definition bitmap_bit (b : list Z) (x y : Z) : bool :=
  Z.testbit (byte_at b (Z.shiftr (y * BMP_W + x) 3)) (7 - Z.land x 7).

(** A frame as the 96x96 grayscale configuration delivers it. *)
Definition frame_96x96 (f : camera_fb_t) (gray : list Z) : Prop :=
  buf f = Some gray /\ len f = 96 * 96 /\ Z.of_nat (length gray) = 96 * 96 /\
  width f = 96 /\ height f = 96 /\ format f = PIXFORMAT_GRAYSCALE /\
  forallb (fun p => (0 <=? p) && (p <=? 255)) gray = true.

(** Whether the pixel sampled for destination column [x] is above the
    threshold. *)
Definition lit (gray : list Z) (threshold srcRow x : Z) : bool :=
  threshold <? byte_at gray (srcRow + srcX_of x).

(** Bounded universal check, used to settle finite ranges by evaluation. *)
Fixpoint all_below (n : nat) (P : Z -> bool) : bool :=
  match n with
  | O => true
  | S k => P (Z.of_nat k) && all_below k P
  end.


(** ** Vocabulary for the rounding of the binary32 model *)

(** The rational value of a finite float. *)
Definition F2Q (f : spec_float) : Q :=
  match f with
  | S754_finite s m e =>
      (if s then -1 else 1) * inject_Z (Zpos m) * Qpower 2 e
  | _ => 0
  end%Q.

(** The unit roundoff of binary32, and "[v] is [x] up to one rounding". *)
Definition u32 : Q := 1 # 16777216.

Definition near (v x : Q) : Prop :=
  ((1 - u32) * x <= v /\ v <= (1 + u32) * x)%Q.

(** Where a quantity [A / B] sits with respect to the integer [m] and to
    [m + 1/2], as the round and sticky bits of a shifted mantissa record it. *)
Definition located (m : Z) (r s : bool) (A B : Z) : Prop :=
  0 <= m /\ 0 < B /\ m * B <= A < (m + 1) * B /\
  match r, s with
  | false, false => A = m * B
  | false, true => m * B < A /\ 2 * A < (2 * m + 1) * B
  | true, false => 2 * A = (2 * m + 1) * B
  | true, true => (2 * m + 1) * B < 2 * A
  end.

(** The round and sticky bits that stand for a location. *)
Definition loc_bits (l : location) : bool * bool :=
  match l with
  | loc_Exact => (false, false)
  | loc_Inexact Lt => (false, true)
  | loc_Inexact Eq => (true, false)
  | loc_Inexact Gt => (true, true)
  end.

(** ** Collaborators: events, environment and program state *)

Definition esp_err_t := Z.
Definition ESP_OK : esp_err_t := 0.
Definition ESP_FAIL : esp_err_t := -1.
Definition ESP_ERR_NO_MEM : esp_err_t := 257.
Definition ESP_ERR_INVALID_ARG : esp_err_t := 258.

Definition I2C_SDA_PIN : Z := 15.
Definition I2C_SCL_PIN : Z := 14.
Definition OLED_ADDR : Z := 60.
Definition SCREEN_WIDTH : Z := 128.
Definition SCREEN_HEIGHT : Z := 64.
Definition PWDN_GPIO_NUM : Z := 32.
Definition RESET_GPIO_NUM : Z := -1.
Definition XCLK_GPIO_NUM : Z := 0.
Definition SIOD_GPIO_NUM : Z := 26.
Definition SIOC_GPIO_NUM : Z := 27.
Definition Y9_GPIO_NUM : Z := 35.
Definition Y8_GPIO_NUM : Z := 34.
Definition Y7_GPIO_NUM : Z := 39.
Definition Y6_GPIO_NUM : Z := 36.
Definition Y5_GPIO_NUM : Z := 21.
Definition Y4_GPIO_NUM : Z := 19.
Definition Y3_GPIO_NUM : Z := 18.
Definition Y2_GPIO_NUM : Z := 5.
Definition VSYNC_GPIO_NUM : Z := 25.
Definition HREF_GPIO_NUM : Z := 23.
Definition PCLK_GPIO_NUM : Z := 22.

(** Constants of the Arduino core and of the camera driver. *)
Definition OUTPUT : Z := 3.
Definition LEDC_CHANNEL_0 : Z := 0.
Definition LEDC_TIMER_0 : Z := 0.

Variant framesize_t := FRAMESIZE_96X96 | FRAMESIZE_QQVGA | FRAMESIZE_QVGA.
Variant camera_grab_mode_t := CAMERA_GRAB_WHEN_EMPTY | CAMERA_GRAB_LATEST.
Variant camera_fb_location_t := CAMERA_FB_IN_PSRAM | CAMERA_FB_IN_DRAM.

(** [camera_config_t], with the fields [initCamera] fills in. *)
Record camera_config_t := mk_config {
  ledc_channel : Z;
  ledc_timer : Z;
  pin_d0 : Z;
  pin_d1 : Z;
  pin_d2 : Z;
  pin_d3 : Z;
  pin_d4 : Z;
  pin_d5 : Z;
  pin_d6 : Z;
  pin_d7 : Z;
  pin_xclk : Z;
  pin_pclk : Z;
  pin_vsync : Z;
  pin_href : Z;
  pin_sccb_sda : Z;
  pin_sccb_scl : Z;
  pin_pwdn : Z;
  pin_reset : Z;
  xclk_freq_hz : Z;
  frame_size : framesize_t;
  pixel_format : pixformat_t;
  grab_mode : camera_grab_mode_t;
  fb_location : camera_fb_location_t;
  jpeg_quality : Z;
  fb_count : Z
}.

(** Read-only system values: [ESP.getFreeHeap()], [ESP.getMinFreeHeap()],
    [psramFound()], [ESP.getPsramSize()], [ESP.getFreePsram()], [millis()]. *)
Variant sys_query :=
| QFreeHeap | QMinFreeHeap | QPsramFound | QPsramSize | QFreePsram | QMillis.

(** Every call into a collaborator, with the value it returned. *)
Variant Event :=
| ESerialBegin (baud : Z)
| ESerialPrintln (msg : string)
| ESerialPrintf (fmt : string) (args : list Z)
| ESerialStats (frames errors : Z) (errorRate : Float32.float) (freeMem : Z)
| EDelay (ms : Z)
| EYield
| ESys (q : sys_query) (v : Z)
| EPinMode (pin : Z) (mode : Z)
| EDigitalWrite (pin : Z) (level : bool)
| EWireBegin (sda scl : Z)
| EWireSetClock (hz : Z)
| EWireBeginTransmission (addr : Z)
| EWireEndTransmission (status : Z)
| EDisplayBegin (addr : Z) (ok : bool)
| EDisplayClear
| EDisplayFlush
| EDisplayDrawBitmap (x y : Z) (bitmap : list Z) (w h color : Z)
| EDisplayDrawLine (x0 y0 x1 y1 color : Z)
| EDisplaySetTextSize (n : Z)
| EDisplaySetTextColor (c : Z)
| EDisplaySetCursor (x y : Z)
| EDisplayPrintln (msg : string)
| EDisplayPrintf (fmt : string) (args : list Z)
| ECameraInit (config : camera_config_t) (err : esp_err_t)
| ECameraDeinit
| ESensorGet (present : bool)
| ESensorSet (setting : string) (value : Z)
| EFbGet (fb : option camera_fb_t)
| EFbReturn (fb : camera_fb_t).

(** What the collaborators answer: the [n]-th call of each kind. *)
Record Env := mk_env {
  sys_value : sys_query -> nat -> Z;
  wire_endTransmission_status : Z;
  display_begin_ok : bool;
  esp_camera_init_result : nat -> esp_err_t;
  esp_camera_sensor_present : bool;
  esp_camera_fb_get_result : nat -> option camera_fb_t
}.

(** The sketch's globals, and how many calls each collaborator has served. *)
Record State := mk_state {
  frameCount : Z;
  errorCount : Z;
  cameraInitialized : bool;
  bitmapBuffer : list Z;
  sys_calls : nat;
  init_calls : nat;
  fb_calls : nat
}.

(** [uint32_t] arithmetic wraps. *)
Definition wrap32 (z : Z) : Z := z mod 2 ^ 32.

(** ** A state monad that records the events of a run *)

Definition M (A : Type) : Type := State -> A * State * list Event.

Definition ret {A} (a : A) : M A := fun s => (a, s, []).

Definition bind {A B} (m : M A) (k : A -> M B) : M B :=
  fun s =>
    let '(a, s1, ev1) := m s in
    let '(b, s2, ev2) := k a s1 in
    (b, s2, ev1 ++ ev2).

Declare Scope sketch_scope.
Delimit Scope sketch_scope with sketch.
Notation "x <- m ;; k" := (bind m (fun x => k))
  (at level 100, m at next level, k at level 200, right associativity)
  : sketch_scope.
Notation "m ;; k" := (bind m (fun _ => k))
  (at level 100, k at level 200, right associativity) : sketch_scope.
Local Open Scope sketch_scope.

Definition emit (e : Event) : M unit := fun s => (tt, s, [e]).
Definition get_state : M State := fun s => (s, s, []).
Definition put_state (s : State) : M unit := fun _ => (tt, s, []).

Definition result_of {A} (r : A * State * list Event) : A := fst (fst r).
Definition state_of {A} (r : A * State * list Event) : State := snd (fst r).
Definition events_of {A} (r : A * State * list Event) : list Event := snd r.

(** A [while (true)] loop without exit: [fuel] bounds the iterations that are
    observed; the loop itself never returns, so a caller that gets control
    back from [forever] has only run out of fuel. *)
Fixpoint forever (fuel : nat) (body : M unit) : M unit :=
  match fuel with
  | O => ret tt
  | S n => body ;; forever n body
  end.

(** [for (int i = 0; i < stop; i += step)], as the list of its indices. *)
Definition for_range (stop step : Z) : list Z :=
  map (fun k => k * step) (seqZ 0 ((stop + step - 1) / step)).

Fixpoint for_each (l : list Z) (body : Z -> M unit) : M unit :=
  match l with
  | [] => ret tt
  | i :: rest => body i ;; for_each rest body
  end.



Section Sketch.

Variable env : Env.

(** *** Collaborator calls *)

Definition sys (q : sys_query) : M Z := fun s =>
  let v := sys_value env q (sys_calls s) in
  (v, mk_state (frameCount s) (errorCount s) (cameraInitialized s)
        (bitmapBuffer s) (S (sys_calls s)) (init_calls s) (fb_calls s),
   [ESys q v]).

Definition millis : M Z := v <- sys QMillis ;; ret (wrap32 v).
Definition delay (ms : Z) : M unit := emit (EDelay ms).
Definition yield : M unit := emit EYield.
Definition Serial_println (msg : string) : M unit := emit (ESerialPrintln msg).
Definition Serial_printf (fmt : string) (args : list Z) : M unit :=
  emit (ESerialPrintf fmt args).

Definition Wire_endTransmission : M Z :=
  let v := wire_endTransmission_status env in
  emit (EWireEndTransmission v) ;; ret v.

Definition display_begin (addr : Z) : M bool :=
  let ok := display_begin_ok env in
  emit (EDisplayBegin addr ok) ;; ret ok.

Definition esp_camera_init (config : camera_config_t) : M esp_err_t := fun s =>
  let err := esp_camera_init_result env (init_calls s) in
  (err, mk_state (frameCount s) (errorCount s) (cameraInitialized s)
          (bitmapBuffer s) (sys_calls s) (S (init_calls s)) (fb_calls s),
   [ECameraInit config err]).

Definition esp_camera_deinit : M unit := emit ECameraDeinit.

Definition esp_camera_sensor_get : M bool :=
  let p := esp_camera_sensor_present env in
  emit (ESensorGet p) ;; ret p.

Definition esp_camera_fb_get : M (option camera_fb_t) := fun s =>
  let fb := esp_camera_fb_get_result env (fb_calls s) in
  (fb, mk_state (frameCount s) (errorCount s) (cameraInitialized s)
         (bitmapBuffer s) (sys_calls s) (init_calls s) (S (fb_calls s)),
   [EFbGet fb]).

Definition esp_camera_fb_return (fb : camera_fb_t) : M unit :=
  emit (EFbReturn fb).

(** *** Updates of the globals *)

Definition set_frameCount (v : Z) : M unit := fun s =>
  (tt, mk_state v (errorCount s) (cameraInitialized s) (bitmapBuffer s)
         (sys_calls s) (init_calls s) (fb_calls s), []).

Definition set_errorCount (v : Z) : M unit := fun s =>
  (tt, mk_state (frameCount s) v (cameraInitialized s) (bitmapBuffer s)
         (sys_calls s) (init_calls s) (fb_calls s), []).

Definition set_cameraInitialized (v : bool) : M unit := fun s =>
  (tt, mk_state (frameCount s) (errorCount s) v (bitmapBuffer s)
         (sys_calls s) (init_calls s) (fb_calls s), []).

Definition set_bitmapBuffer (v : list Z) : M unit := fun s =>
  (tt, mk_state (frameCount s) (errorCount s) (cameraInitialized s) v
         (sys_calls s) (init_calls s) (fb_calls s), []).

(** [frameCount++] and [errorCount++] on [uint32_t]. *)
Definition incr_frameCount : M unit :=
  s <- get_state ;; set_frameCount (wrap32 (frameCount s + 1)).
Definition incr_errorCount : M unit :=
  s <- get_state ;; set_errorCount (wrap32 (errorCount s + 1)).

(** *** [printMemoryInfo] *)

Definition printMemoryInfo : M unit :=
  free <- sys QFreeHeap ;;
  minfree <- sys QMinFreeHeap ;;
  Serial_printf "Free heap: %d bytes, Min free heap: %d bytes\n"
    [free; minfree] ;;
  found <- sys QPsramFound ;;
  if negb (found =? 0) then
    total <- sys QPsramSize ;;
    pfree <- sys QFreePsram ;;
    Serial_printf "PSRAM total: %d, free: %d (WARNING: PSRAM may be faulty)\n"
      [total; pfree]
  else
    Serial_println "PSRAM not found or disabled".

End Sketch.

Local Open Scope sketch_scope.

(** How [setup] ends: it returns, or it is caught for good in one of its two
    [while (true)] loops. *)
Variant SetupOutcome := SetupReturned | HaltedDisplay | HaltedCamera.

Section Program.

Variable env : Env.

(** *** [initCamera] *)

Definition camera_config : camera_config_t :=
  {| ledc_channel := LEDC_CHANNEL_0;
     ledc_timer := LEDC_TIMER_0;
     pin_d0 := Y2_GPIO_NUM;
     pin_d1 := Y3_GPIO_NUM;
     pin_d2 := Y4_GPIO_NUM;
     pin_d3 := Y5_GPIO_NUM;
     pin_d4 := Y6_GPIO_NUM;
     pin_d5 := Y7_GPIO_NUM;
     pin_d6 := Y8_GPIO_NUM;
     pin_d7 := Y9_GPIO_NUM;
     pin_xclk := XCLK_GPIO_NUM;
     pin_pclk := PCLK_GPIO_NUM;
     pin_vsync := VSYNC_GPIO_NUM;
     pin_href := HREF_GPIO_NUM;
     pin_sccb_sda := SIOD_GPIO_NUM;
     pin_sccb_scl := SIOC_GPIO_NUM;
     pin_pwdn := PWDN_GPIO_NUM;
     pin_reset := RESET_GPIO_NUM;
     xclk_freq_hz := 20000000;
     frame_size := FRAMESIZE_96X96;
     pixel_format := PIXFORMAT_GRAYSCALE;
     grab_mode := CAMERA_GRAB_LATEST;
     fb_location := CAMERA_FB_IN_DRAM;
     jpeg_quality := 63;
     fb_count := 1 |}.

(** The conservative sensor settings applied after a successful init. *)
Definition sensor_settings : list (string * Z) :=
  [("set_brightness", 0); ("set_contrast", 0); ("set_saturation", 0);
   ("set_gainceiling", 4); ("set_colorbar", 0); ("set_whitebal", 1);
   ("set_gain_ctrl", 1); ("set_exposure_ctrl", 1); ("set_aec2", 0);
   ("set_ae_level", 0); ("set_aec_value", 400); ("set_agc_gain", 5);
   ("set_awb_gain", 1); ("set_wb_mode", 0)]%string.

Fixpoint apply_settings (l : list (string * Z)) : M unit :=
  match l with
  | [] => ret tt
  | (name, v) :: rest => emit (ESensorSet name v) ;; apply_settings rest
  end.

(** The [switch (err)] that names the failure. *)
Definition report_init_error (err : esp_err_t) : M unit :=
  if err =? ESP_ERR_NO_MEM then
    Serial_println "  -> Out of memory (DRAM insufficient)"
  else if err =? ESP_ERR_INVALID_ARG then
    Serial_println "  -> Invalid camera configuration"
  else if err =? ESP_FAIL then
    Serial_println "  -> Camera hardware failure"
  else
    Serial_printf "  -> Unknown error: 0x%x\n" [err].

(** The power-down pulse that precedes the retry loop. *)
Definition power_cycle : M unit :=
  emit (EPinMode PWDN_GPIO_NUM OUTPUT) ;;
  emit (EDigitalWrite PWDN_GPIO_NUM true) ;;
  delay 100 ;;
  emit (EDigitalWrite PWDN_GPIO_NUM false) ;;
  delay 100.

(** The retry loop [for (attempt = 1; attempt <= MAX_RETRIES; attempt++)],
    over the attempts still to run; [true] is the [return true] from inside
    the loop, [false] means the loop ran to its end. *)
Fixpoint initCamera_attempts (attempts : list Z) : M bool :=
  match attempts with
  | [] => ret false
  | attempt :: rest =>
      Serial_printf "Camera init attempt %d/%d...\n" [attempt; MAX_RETRIES] ;;
      printMemoryInfo env ;;
      err <- esp_camera_init env camera_config ;;
      if err =? ESP_OK then
        Serial_println "Camera initialized successfully!" ;;
        s <- esp_camera_sensor_get env ;;
        (if s then
           apply_settings sensor_settings ;;
           Serial_println "Camera sensor configured for stability"
         else ret tt) ;;
        set_cameraInitialized true ;;
        ret true
      else
        Serial_printf "Camera init attempt %d failed: 0x%x\n" [attempt; err] ;;
        report_init_error err ;;
        (if attempt <? MAX_RETRIES then
           Serial_printf "Retrying in %d seconds...\n" [attempt] ;;
           delay (attempt * 1000) ;;
           esp_camera_deinit ;;
           delay 500
         else ret tt) ;;
        initCamera_attempts rest
  end.

Definition initCamera : M bool :=
  Serial_println "Initializing camera (avoiding faulty PSRAM)..." ;;
  printMemoryInfo env ;;
  power_cycle ;;
  ok <- initCamera_attempts (seqZ 1 MAX_RETRIES) ;;
  if ok then ret true
  else
    Serial_println "Camera initialization failed after all attempts!" ;;
    Serial_println "Possible causes:" ;;
    Serial_println "1. Faulty PSRAM (detected in your logs)" ;;
    Serial_println "2. Insufficient power supply" ;;
    Serial_println "3. Hardware defect in camera module" ;;
    Serial_println "4. Wiring issues" ;;
    ret false.

(** *** [displayStatus] *)

Definition displayStatus (message : string) (showStats : bool) : M unit :=
  emit EDisplayClear ;;
  emit (EDisplaySetTextSize 1) ;;
  emit (EDisplaySetTextColor 1) ;;
  emit (EDisplaySetCursor 0 0) ;;
  emit (EDisplayPrintln "ESP32-CAM Status:") ;;
  emit (EDisplayPrintln message) ;;
  (if showStats then
     s <- get_state ;;
     emit (EDisplayPrintf "Frames: %lu" [frameCount s]) ;;
     emit (EDisplayPrintln "") ;;
     emit (EDisplayPrintf "Errors: %lu" [errorCount s]) ;;
     emit (EDisplayPrintln "") ;;
     free <- sys env QFreeHeap ;;
     emit (EDisplayPrintf "Free mem: %d" [free])
   else ret tt) ;;
  emit EDisplayFlush.

(** *** [processFrame] *)

(** The call [convertFrameToBitmap(fb)] on the global buffer. *)
Definition convert_into_buffer (fb : camera_fb_t) : M unit :=
  s <- get_state ;;
  set_bitmapBuffer (convertFrameToBitmap (Some fb) (bitmapBuffer s)).

(** [fb->width != 96 || fb->height != 96 || fb->format != PIXFORMAT_GRAYSCALE] *)
Definition frame_mismatch (fb : camera_fb_t) : bool :=
  negb (width fb =? 96) || negb (height fb =? 96) ||
  negb (pixformat_eqb (format fb) PIXFORMAT_GRAYSCALE).

Definition processFrame : M bool :=
  s <- get_state ;;
  if negb (cameraInitialized s) then ret false
  else
    fb <- esp_camera_fb_get env ;;
    match fb with
    | None => incr_errorCount ;; ret false
    | Some f =>
        if frame_mismatch f then
          esp_camera_fb_return f ;;
          incr_errorCount ;;
          ret false
        else
          convert_into_buffer f ;;
          esp_camera_fb_return f ;;
          emit EDisplayClear ;;
          s1 <- get_state ;;
          emit (EDisplayDrawBitmap 0 0 (bitmapBuffer s1) BMP_W BMP_H 1) ;;
          emit EDisplayFlush ;;
          incr_frameCount ;;
          ret true
    end.

(** *** [testOLED] *)

Definition testOLED : M unit :=
  Serial_println "Testing OLED display..." ;;
  emit EDisplayClear ;;
  emit (EDisplaySetTextSize 1) ;;
  emit (EDisplaySetTextColor 1) ;;
  emit (EDisplaySetCursor 0 0) ;;
  emit (EDisplayPrintln "OLED Test Pattern") ;;
  emit (EDisplayPrintln "ESP32-CAM Ready") ;;
  emit (EDisplayPrintln "================") ;;
  emit (EDisplayPrintln "Line 4") ;;
  emit (EDisplayPrintln "Line 5") ;;
  emit (EDisplayPrintln "Line 6") ;;
  emit (EDisplayPrintln "Line 7") ;;
  emit (EDisplayPrintln "Line 8") ;;
  emit EDisplayFlush ;;
  delay 2000 ;;
  emit EDisplayClear ;;
  for_each (for_range SCREEN_WIDTH 8) (fun i =>
    emit (EDisplayDrawLine i 0 i (SCREEN_HEIGHT - 1) 1)) ;;
  emit EDisplayFlush ;;
  delay 1000 ;;
  emit EDisplayClear ;;
  for_each (for_range SCREEN_HEIGHT 8) (fun i =>
    emit (EDisplayDrawLine 0 i (SCREEN_WIDTH - 1) i 1)) ;;
  emit EDisplayFlush ;;
  delay 1000 ;;
  Serial_println "OLED test completed successfully!".

(** *** [setup] *)

(** The presence probe: its outcome is only reported. *)
Definition probe_oled : M unit :=
  emit (EWireBeginTransmission OLED_ADDR) ;;
  status <- Wire_endTransmission env ;;
  if status =? 0 then
    Serial_printf "I2C device found at address 0x%02X\n" [OLED_ADDR]
  else
    Serial_printf "No I2C device found at address 0x%02X\n" [OLED_ADDR] ;;
    Serial_println "Check OLED wiring!".

(** Serial port, power stabilization, I2C bus, probe and driver init:
    [setup] down to the test of [display.begin(OLED_ADDR)]. *)
Definition setup_display : M bool :=
  emit (ESerialBegin 115200) ;;
  Serial_println "\n=== ESP32-CAM to OLED Display (PSRAM-Safe Version) ===" ;;
  Serial_println "Designed to work with faulty PSRAM hardware" ;;
  Serial_printf "Power stabilization delay (%d ms)...\n" [STARTUP_DELAY_MS] ;;
  delay STARTUP_DELAY_MS ;;
  printMemoryInfo env ;;
  Serial_printf "Initializing I2C (SDA: %d, SCL: %d)...\n"
    [I2C_SDA_PIN; I2C_SCL_PIN] ;;
  emit (EWireBegin I2C_SDA_PIN I2C_SCL_PIN) ;;
  emit (EWireSetClock 400000) ;;
  probe_oled ;;
  Serial_println "Initializing OLED display..." ;;
  display_begin env OLED_ADDR.

(** The branch taken when [display.begin] fails. *)
Definition halt_display (fuel : nat) : M unit :=
  Serial_println "OLED initialization failed!" ;;
  Serial_println "Check connections:" ;;
  Serial_printf "  VCC -> 3.3V or 5V\n" [] ;;
  Serial_printf "  GND -> GND\n" [] ;;
  Serial_printf "  SDA -> GPIO %d\n" [I2C_SDA_PIN] ;;
  Serial_printf "  SCL -> GPIO %d\n" [I2C_SCL_PIN] ;;
  forever fuel
    (delay 5000 ;; Serial_println "OLED init failed - system halted").

(** From a working display to the call of [initCamera]. *)
Definition display_ready : M unit :=
  Serial_println "OLED initialized successfully!" ;;
  emit EDisplayClear ;;
  emit EDisplayFlush ;;
  testOLED ;;
  displayStatus "Initializing camera..." false.

(** The branch taken when [initCamera] fails. *)
Definition halt_camera (fuel : nat) : M unit :=
  displayStatus "Camera FAILED!\nPSRAM issue detected" false ;;
  Serial_println "=== CAMERA INITIALIZATION FAILED ===" ;;
  Serial_println "Your ESP32-CAM has faulty PSRAM hardware." ;;
  Serial_println "This is a common manufacturing defect." ;;
  Serial_println "Solutions:" ;;
  Serial_println "1. Try a different ESP32-CAM module" ;;
  Serial_println "2. Use camera-free projects only" ;;
  Serial_println "3. Return/exchange if recently purchased" ;;
  forever fuel
    (delay 10000 ;;
     displayStatus "Hardware DEFECT!\nPSRAM faulty\nTry different module"
       true ;;
     delay 10000).

(** The end of [setup] when the camera is up. *)
Definition announce_ready : M unit :=
  displayStatus "System ready!\nStreaming..." false ;;
  delay 2000 ;;
  Serial_println "=== System Ready ===" ;;
  Serial_printf "Target FPS: ~%d\n" [1000 / FRAME_DELAY_MS] ;;
  Serial_println "Camera resolution: 96x96 pixels" ;;
  Serial_println "Display resolution: 128x64 pixels" ;;
  Serial_println "Memory: Using DRAM only (PSRAM disabled)" ;;
  Serial_println "Starting video stream...".

Definition setup (fuel : nat) : M SetupOutcome :=
  ok <- setup_display ;;
  if negb ok then
    halt_display fuel ;;
    ret HaltedDisplay
  else
    display_ready ;;
    cam <- initCamera ;;
    if negb cam then
      halt_camera fuel ;;
      ret HaltedCamera
    else
      announce_ready ;;
      ret SetupReturned.

(** *** [loop] *)

(** [(float)errorCount / (frameCount + errorCount) * 100.0f], the sum being
    a [uint32_t] sum. *)
Definition errorRate_expr (frameCount errorCount : Z) : Float32.float :=
  Float32.mul
    (Float32.div (Float32.of_int errorCount)
                 (Float32.of_int (wrap32 (frameCount + errorCount))))
    (Float32.of_int 100).

(** The periodic statistics. *)
Definition report_stats : M unit :=
  s <- get_state ;;
  if (0 <? frameCount s) && (frameCount s mod 100 =? 0) then
    let errorRate := errorRate_expr (frameCount s) (errorCount s) in
    free <- sys env QFreeHeap ;;
    emit (ESerialStats (frameCount s) (errorCount s) errorRate free)
  else ret tt.

(** Frame-rate limiting. *)
Definition pace (startTime : Z) : M unit :=
  now <- millis env ;;
  let processingTime := wrap32 (now - startTime) in
  if processingTime <? FRAME_DELAY_MS then
    delay (FRAME_DELAY_MS - processingTime)
  else ret tt.

(** The last statement of [loop]: reset of the error counter. *)
Definition reset_error_counter : M unit :=
  s <- get_state ;;
  if 1000 <? errorCount s then
    Serial_println "Resetting error counter..." ;;
    set_errorCount 0
  else ret tt.

(** [loop] up to and including [yield()]. *)
Definition loop_until_yield : M bool :=
  startTime <- millis env ;;
  success <- processFrame ;;
  report_stats ;;
  pace startTime ;;
  yield ;;
  ret success.

Definition loop : M unit :=
  loop_until_yield ;;
  reset_error_counter.

(** The Arduino core runs [setup()] once and then [loop()] again and again;
    [iterations] bounds the calls of [loop] that are observed. *)
Definition arduino_main (fuel iterations : nat) : M SetupOutcome :=
  r <- setup fuel ;;
  match r with
  | SetupReturned => forever iterations loop ;; ret SetupReturned
  | halted => ret halted
  end.

End Program.

(** ** Observations on event traces *)

Definition is_camera_init (e : Event) : bool :=
  match e with ECameraInit _ _ => true | _ => false end.

Definition is_fb_get (e : Event) : bool :=
  match e with EFbGet _ => true | _ => false end.

Definition is_camera_event (e : Event) : bool :=
  match e with
  | ECameraInit _ _ | ECameraDeinit | ESensorGet _ | ESensorSet _ _
  | EFbGet _ | EFbReturn _ => true
  | _ => false
  end.

Definition is_display_begin (e : Event) : bool :=
  match e with EDisplayBegin _ _ => true | _ => false end.

(** Clearing, drawing to or flushing the display. *)
Definition is_display_output (e : Event) : bool :=
  match e with
  | EDisplayClear | EDisplayFlush | EDisplayDrawBitmap _ _ _ _ _ _
  | EDisplayDrawLine _ _ _ _ _ | EDisplaySetTextSize _ | EDisplaySetTextColor _
  | EDisplaySetCursor _ _ | EDisplayPrintln _ | EDisplayPrintf _ _ => true
  | _ => false
  end.

(** Driving the power-down line of the sensor. *)
Definition is_pwdn_write (e : Event) : bool :=
  match e with
  | EDigitalWrite pin _ => pin =? PWDN_GPIO_NUM
  | _ => false
  end.

Definition count_events (p : Event -> bool) (evs : list Event) : nat :=
  length (List.filter p evs).

(** The events of each attempt: the trace cut after every sensor
    configuration request; the last segment holds what follows the last
    request. *)
Fixpoint attempt_segments (evs : list Event) : list (list Event) :=
  match evs with
  | [] => [[]]
  | e :: rest =>
      if is_camera_init e then [e] :: attempt_segments rest
      else match attempt_segments rest with
           | seg :: segs => (e :: seg) :: segs
           | [] => [[e]]
           end
  end.

(** Total of the [delay] calls in a stretch of events. *)
Definition total_delay (evs : list Event) : Z :=
  foldr (fun e acc => match e with EDelay ms => ms + acc | _ => acc end) 0 evs.

(** Whether a stretch of events holds the power cycle: power-down asserted,
    100 ms, deasserted, 100 ms, in a row. *)
Fixpoint has_power_cycle (evs : list Event) : bool :=
  match evs with
  | EDigitalWrite p1 true :: ((EDelay d1 :: EDigitalWrite p2 false :: EDelay d2 :: _) as rest) =>
      ((p1 =? PWDN_GPIO_NUM) && (d1 =? 100) && (p2 =? PWDN_GPIO_NUM) && (d2 =? 100))
      || has_power_cycle rest
  | _ :: rest => has_power_cycle rest
  | [] => false
  end.

Definition is_delay (e : Event) : bool :=
  match e with EDelay _ => true | _ => false end.

(** Events that act on a device or on time; what is left out only writes to
    the diagnostic channel, reads a system value or tunes the sensor. *)
Definition is_control (e : Event) : bool :=
  match e with
  | ESerialBegin _ | ESerialPrintln _ | ESerialPrintf _ _
  | ESerialStats _ _ _ _ | ESys _ _
  | ESensorSet _ _ => false
  | _ => true
  end.

Definition control_trace (evs : list Event) : list Event :=
  List.filter is_control evs.

(** Total delay from the start of a stretch of events up to its first sensor
    configuration request (or its end). *)
Fixpoint delay_until_init (evs : list Event) : Z :=
  match evs with
  | [] => 0
  | ECameraInit _ _ :: _ => 0
  | EDelay ms :: rest => ms + delay_until_init rest
  | _ :: rest => delay_until_init rest
  end.

(** For every sensor configuration request of a trace, in order: the total
    delay between it and the next request (or the end of the trace). *)
Fixpoint delays_after_init (evs : list Event) : list Z :=
  match evs with
  | [] => []
  | e :: rest =>
      if is_camera_init e then delay_until_init rest :: delays_after_init rest
      else delays_after_init rest
  end.

(** The same state with another count of system queries. *)
Definition with_sys_calls (s : State) (n : nat) : State :=
  mk_state (frameCount s) (errorCount s) (cameraInitialized s)
    (bitmapBuffer s) n (init_calls s) (fb_calls s).

(** What the retry loop does to the devices, as a function of the answers of
    the sensor driver from call [k] on. *)
Fixpoint attempts_trace (results : nat -> esp_err_t) (present : bool)
    (k : nat) (attempts : list Z) : list Event :=
  match attempts with
  | [] => []
  | a :: rest =>
      let err := results k in
      ECameraInit camera_config err ::
      (if err =? ESP_OK then [ESensorGet present]
       else (if a <? MAX_RETRIES
             then [EDelay (a * 1000); ECameraDeinit; EDelay 500] else [])
            ++ attempts_trace results present (S k) rest)
  end.

(** Whether one of the next [length attempts] answers is [ESP_OK]. *)
Fixpoint attempts_ok (results : nat -> esp_err_t) (k : nat)
    (attempts : list Z) : bool :=
  match attempts with
  | [] => false
  | _ :: rest => (results k =? ESP_OK) || attempts_ok results (S k) rest
  end.

(** How many requests the retry loop makes. *)
Fixpoint attempts_made (results : nat -> esp_err_t) (k : nat)
    (attempts : list Z) : nat :=
  match attempts with
  | [] => O
  | _ :: rest =>
      if results k =? ESP_OK then 1%nat
      else S (attempts_made results (S k) rest)
  end.

(** ** Vocabulary of the statements *)

(** Whether the frame the camera hands out on the next acquisition fails:
    no frame at all, or a frame of the wrong size or format. *)
Definition next_frame_fails (env : Env) (s : State) : bool :=
  match esp_camera_fb_get_result env (fb_calls s) with
  | None => true
  | Some f => frame_mismatch f
  end.

(** Events that neither touch the camera nor start the display driver nor
    drive the power-down line. *)
Definition passive (e : Event) : bool :=
  negb (is_camera_event e) && negb (is_display_begin e) &&
  negb (is_pwdn_write e).

(** A computation that changes no global (only the count of system queries
    moves) and emits only events accepted by [p]. *)
Definition calm {A} (p : Event -> bool) (m : M A) : Prop :=
  forall s, exists a n evs,
    m s = (a, with_sys_calls s n, evs) /\ forallb p evs = true.

(** The line the display-failure loop prints on every turn. *)
Definition is_halt_message (e : Event) : bool :=
  match e with
  | ESerialPrintln msg => String.eqb msg "OLED init failed - system halted"
  | _ => false
  end.

(** The fatal-status screen the camera-failure loop draws on every turn. *)
Definition is_defect_screen (e : Event) : bool :=
  match e with
  | EDisplayPrintln msg =>
      String.eqb msg "Hardware DEFECT!\nPSRAM faulty\nTry different module"
  | _ => false
  end.

(** The device activity of the power-down pulse. *)
Definition power_cycle_trace : list Event :=
  [EPinMode PWDN_GPIO_NUM OUTPUT; EDigitalWrite PWDN_GPIO_NUM true; EDelay 100;
   EDigitalWrite PWDN_GPIO_NUM false; EDelay 100].

(** The answers of the sensor driver to the retry loop started in state [s]. *)
Definition init_ok (env : Env) (s : State) : bool :=
  attempts_ok (esp_camera_init_result env) (init_calls s) (seqZ 1 MAX_RETRIES).

Definition init_made (env : Env) (s : State) : nat :=
  attempts_made (esp_camera_init_result env) (init_calls s) (seqZ 1 MAX_RETRIES).

(** The globals after [initCamera], up to the count of system queries. *)
Definition after_init (env : Env) (s : State) (n : nat) : State :=
  mk_state (frameCount s) (errorCount s) (cameraInitialized s || init_ok env s)
    (bitmapBuffer s) n (init_calls s + init_made env s)%nat (fb_calls s).

(** Events that touch neither the camera nor the power-down line. *)
Definition off_camera (e : Event) : bool :=
  negb (is_camera_event e) && negb (is_pwdn_write e).

(** The error rate printed by a stretch of events, if any. *)
Fixpoint reported_rate (evs : list Event) : option Float32.float :=
  match evs with
  | [] => None
  | ESerialStats _ _ rate _ :: _ => Some rate
  | _ :: rest => reported_rate rest
  end.

(** Whether the statistics are due: [frameCount > 0 && frameCount % 100 == 0]. *)
Definition stats_due (s : State) : bool :=
  (0 <? frameCount s) && (frameCount s mod 100 =? 0).

(** The state in which [loop] reaches its statistics: after [millis()] and
    the per-frame step. *)
Definition at_report (env : Env) (s : State) : State :=
  state_of (processFrame env (state_of (millis env s))).

(** ** Concrete scenarios *)

Module Scenario.

(** The globals at boot. *)
Definition boot : State := mk_state 0 0 false (replicate 1024 0) 0 0 0.

(** The globals while streaming, after 7 good frames. *)
Definition streaming : State := mk_state 7 0 true (replicate 1024 255) 0 1 7.

Definition sys_values (q : sys_query) (n : nat) : Z :=
  match q with
  | QFreeHeap => 201456
  | QMinFreeHeap => 198432
  | QPsramFound => 0
  | QPsramSize => 0
  | QFreePsram => 0
  | QMillis => 3000 + 7 * Z.of_nat n
  end.

(** A uniform 96x96 grayscale frame. *)
Definition uniform_frame (p : Z) : camera_fb_t :=
  mk_fb (Some (replicate (Z.to_nat 9216) p)) 9216 96 96 PIXFORMAT_GRAYSCALE.

(** A frame that declares 96x96 grayscale but carries only 100 bytes. *)
Definition short_frame : camera_fb_t :=
  mk_fb (Some (replicate 100 200)) 100 96 96 PIXFORMAT_GRAYSCALE.

(** A frame of the wrong size. *)
Definition qqvga_frame : camera_fb_t :=
  mk_fb (Some (replicate (Z.to_nat 19200) 200)) 19200 160 120 PIXFORMAT_GRAYSCALE.

(** Everything answers, the camera delivers bright frames. *)
Definition healthy : Env :=
  mk_env sys_values 0 true (fun _ => ESP_OK) true
    (fun _ => Some (uniform_frame 200)).

(** The sensor driver never comes up. *)
Definition dead_camera : Env :=
  mk_env sys_values 0 true (fun _ => ESP_FAIL) true (fun _ => None).

(** The sensor driver fails once, then comes up. *)
Definition second_try : Env :=
  mk_env sys_values 0 true
    (fun n => match n with O => ESP_ERR_NO_MEM | _ => ESP_OK end) true
    (fun _ => Some (uniform_frame 200)).

(** The probe of the OLED address is not acknowledged (status 2), yet the
    display driver starts. *)
Definition probe_nack : Env :=
  mk_env sys_values 2 true (fun _ => ESP_OK) true
    (fun _ => Some (uniform_frame 200)).

(** The display driver does not start. *)
Definition dead_display : Env :=
  mk_env sys_values 2 false (fun _ => ESP_OK) true
    (fun _ => Some (uniform_frame 200)).

(** The camera is up but hands out no frame. *)
Definition no_frame : Env :=
  mk_env sys_values 0 true (fun _ => ESP_OK) true (fun _ => None).

(** The camera hands out frames of the wrong size. *)
Definition wrong_size : Env :=
  mk_env sys_values 0 true (fun _ => ESP_OK) true
    (fun _ => Some qqvga_frame).

End Scenario.

(** ** Vocabulary of the further properties *)

(** A buffer of [uint8_t]. *)
Definition uint8_buffer (b : list Z) : Prop :=
  forallb (fun v => (0 <=? v) && (v <? 256)) b = true.

(** The threshold test the converter makes for destination pixel [(x, y)]. *)
Definition sampled_lit (gray : list Z) (x y : Z) : bool :=
  BRIGHTNESS_THRESHOLD <? byte_at gray (srcY_of y * 96 + srcX_of x).

(** Byte [i] of a row-major bitmap of 128 pixels per row, eight pixels per
    byte, leftmost pixel in the most significant bit. *)
Definition packed_byte (pixel : Z -> Z -> bool) (i : Z) : Z :=
  let x0 := 8 * (i mod 16) in
  let y := i / 16 in
  (if pixel x0 y then 128 else 0) + (if pixel (x0 + 1) y then 64 else 0) +
  (if pixel (x0 + 2) y then 32 else 0) + (if pixel (x0 + 3) y then 16 else 0) +
  (if pixel (x0 + 4) y then 8 else 0) + (if pixel (x0 + 5) y then 4 else 0) +
  (if pixel (x0 + 6) y then 2 else 0) + (if pixel (x0 + 7) y then 1 else 0).

Definition packed_bitmap (pixel : Z -> Z -> bool) : list Z :=
  map (packed_byte pixel) (seqZ 0 BITMAP_BYTES).

(** A computation whose trace satisfies [P], from every state. *)
Definition traces {A} (P : list Event -> Prop) (m : M A) : Prop :=
  forall s, P (events_of (m s)).

(** A computation all of whose events are accepted by [p]. *)
Definition emits {A} (p : Event -> bool) (m : M A) : Prop :=
  traces (fun evs => forallb p evs = true) m.

Definition is_fb_return (e : Event) : bool :=
  match e with EFbReturn _ => true | _ => false end.

Definition is_bitmap_draw (e : Event) : bool :=
  match e with EDisplayDrawBitmap _ _ _ _ _ _ => true | _ => false end.

Definition is_camera_deinit (e : Event) : bool :=
  match e with ECameraDeinit => true | _ => false end.

Definition is_sensor_set (e : Event) : bool :=
  match e with ESensorSet _ _ => true | _ => false end.

(** Events that neither acquire nor return a frame nor draw a bitmap. *)
Definition frame_free (e : Event) : bool :=
  negb (is_fb_get e) && negb (is_fb_return e) && negb (is_bitmap_draw e).

(** What the start-up phase never does: it acquires or returns no frame,
    draws no bitmap, reads no clock, never yields and prints no statistics. *)
Definition startup_event (e : Event) : bool :=
  match e with
  | EFbGet _ | EFbReturn _ | EDisplayDrawBitmap _ _ _ _ _ _ | EYield
  | ESerialStats _ _ _ _ | ESys QMillis _ => false
  | _ => true
  end.

(** All that the streaming phase does: read the clock and the free heap,
    acquire and return frames, redraw the whole screen from a bitmap, print
    statistics at a positive multiple of 100 frames, sleep between 1 and
    [FRAME_DELAY_MS] milliseconds, yield, and announce a counter reset. *)
Definition streaming_event (e : Event) : bool :=
  match e with
  | ESys QMillis _ | ESys QFreeHeap _ => true
  | EFbGet _ | EFbReturn _ | EDisplayClear | EDisplayFlush | EYield => true
  | EDisplayDrawBitmap x y _ w h c =>
      (x =? 0) && (y =? 0) && (w =? BMP_W) && (h =? BMP_H) && (c =? 1)
  | ESerialStats f _ _ _ => (0 <? f) && (f mod 100 =? 0)
  | EDelay ms => (1 <=? ms) && (ms <=? FRAME_DELAY_MS)
  | ESerialPrintln msg => String.eqb msg "Resetting error counter..."
  | _ => false
  end.

(** The discipline of the camera driver's frame buffers along a trace that
    starts holding [held] and ends holding none: a frame is acquired only
    while none is held, the frame returned is the one held, and nothing is
    drawn while a frame is held. *)
Fixpoint frame_protocol (held : option camera_fb_t) (evs : list Event) : Prop :=
  match evs with
  | [] => held = None
  | EFbGet fb :: rest => held = None /\ frame_protocol fb rest
  | EFbReturn f :: rest => held = Some f /\ frame_protocol None rest
  | EDisplayDrawBitmap _ _ _ _ _ _ :: rest =>
      held = None /\ frame_protocol held rest
  | _ :: rest => frame_protocol held rest
  end.

(** The globals as their C types and the sketch's own bounds have them:
    [frameCount] and [errorCount] are [uint32_t], the error counter is at
    most 1000 between two calls of [loop], and [bitmapBuffer] is a
    [uint8_t[1024]]. *)
Definition globals_ok (s : State) : Prop :=
  0 <= frameCount s < 2 ^ 32 /\ 0 <= errorCount s <= 1000 /\
  Z.of_nat (length (bitmapBuffer s)) = BITMAP_BYTES /\
  uint8_buffer (bitmapBuffer s).

(** What [initCamera] asks of the camera driver, as a function of the
    answers of the driver from call [k] on. *)
Fixpoint camera_calls (results : nat -> esp_err_t) (present : bool)
    (k : nat) (attempts : list Z) : list Event :=
  match attempts with
  | [] => []
  | a :: rest =>
      let err := results k in
      ECameraInit camera_config err ::
      (if err =? ESP_OK then
         ESensorGet present ::
         (if present
          then map (fun nv => ESensorSet (fst nv) (snd nv)) sensor_settings
          else [])
       else (if a <? MAX_RETRIES then [ECameraDeinit] else [])
            ++ camera_calls results present (S k) rest)
  end.

(** ** The converter with its undefined behaviour made explicit *)

(** What follows repeats [convertFrameToBitmap] with the operations that C
    leaves undefined turned into an error ([None]): a cast to [int] of a
    float that is not finite or does not fit, a read outside the frame data,
    a shift by a count outside 0..30, a write (or the [memset]) outside
    [bitmapBuffer]. *)

(** [(int)f] *)
Definition checked_cast (f : Float32.float) : option Z :=
  let n := Float32.to_int f in
  if Float32.is_finite f && (- 2 ^ 31 <=? n) && (n <? 2 ^ 31)
  then Some n else None.

(** [int src = (int)(v * scale); if (src >= 96) src = 95;] *)
Definition checked_src (v : Z) (scale : Float32.float) : option Z :=
  match checked_cast (Float32.mul (Float32.of_int v) scale) with
  | Some s => Some (if 96 <=? s then 95 else s)
  | None => None
  end.

(** [a[i]] on an array that holds the bytes [a] and no more. *)
Definition checked_read (a : list Z) (i : Z) : option Z :=
  if i <? 0 then None else a !! Z.to_nat i.

(** [bitmapBuffer[idx] |= (1 << bit);] *)
Definition checked_or_bit (b : list Z) (idx bit : Z) : option (list Z) :=
  if (0 <=? bit) && (bit <? 31) && (0 <=? idx) && (idx <? Z.of_nat (length b))
  then Some (or_bit b idx bit) else None.

(** Body of the inner loop, for one [x]. *)
Definition checked_pixel (gray : list Z) (threshold : Z) (y srcRow : Z)
    (acc : option (list Z)) (x : Z) : option (list Z) :=
  match acc with
  | None => None
  | Some b =>
      match checked_src x scaleX with
      | None => None
      | Some srcX =>
          match checked_read gray (srcRow + srcX) with
          | None => None
          | Some pix =>
              if threshold <? pix then
                let idx := Z.shiftr (y * BMP_W + x) 3 in
                let bit := 7 - Z.land x 7 in
                checked_or_bit b idx bit
              else Some b
          end
      end
  end.

(** Body of the outer loop, for one [y]. *)
Definition checked_row (gray : list Z) (threshold : Z)
    (acc : option (list Z)) (y : Z) : option (list Z) :=
  match acc with
  | None => None
  | Some b =>
      match checked_src y scaleY with
      | None => None
      | Some srcY =>
          let srcRow := srcY * 96 in
          foldl (checked_pixel gray threshold y srcRow) (Some b) (seqZ 0 BMP_W)
      end
  end.

(** [convertFrameToBitmap(fb)]; the frame data is the list [gray] itself,
    whatever [fb->len] declares. *)
Definition checked_convert (fb : option camera_fb_t)
    (bitmapBuffer : list Z) : option (list Z) :=
  match fb with
  | None => Some bitmapBuffer
  | Some f =>
      match buf f with
      | None => Some bitmapBuffer
      | Some gray =>
          if len f <? 96 * 96 then Some bitmapBuffer
          else if Z.of_nat (length bitmapBuffer) <? BITMAP_BYTES then None
          else
            let b0 := memset bitmapBuffer 0 BITMAP_BYTES in
            foldl (checked_row gray BRIGHTNESS_THRESHOLD) (Some b0)
              (seqZ 0 BMP_H)
      end
  end.

(** * The browser simulator of the display ([cam_vis.html]) *)

Module Simulator.

(** JavaScript numbers: IEEE 754 binary64. *)
Module Float64.

Definition prec : Z := 53.
Definition emax : Z := 1024.

Definition float := spec_float.

Definition of_int (n : Z) : float := binary_normalize prec emax n 0 false.
Definition mul : float -> float -> float := SFmul prec emax.
Definition add : float -> float -> float := SFadd prec emax.
Definition div : float -> float -> float := SFdiv prec emax.

(** The decimal literal [num / den] with [num] and [den] integers below
    2^53: the double nearest to the quotient. *)
Definition literal (num den : Z) : float := div (of_int num) (of_int den).

(** [a > b]; false when either side is NaN. *)
Definition gt (a b : float) : bool := SFltb b a.

(** [Math.floor], as an integer; [None] for NaN and the infinities. *)
Definition floor (f : float) : option Z :=
  match f with
  | S754_zero _ => Some 0
  | S754_finite s m e =>
      let n := if s then Zneg m else Zpos m in
      Some (match e with
            | Zneg p => n / 2 ^ Zpos p
            | _ => n * 2 ^ e
            end)
  | _ => None
  end.

End Float64.

Definition TARGET_WIDTH : Z := 128.
Definition TARGET_HEIGHT : Z := 64.

(** [const scaleX = 96 / TARGET_WIDTH;] *)
Definition scaleX : Float64.float :=
  Float64.div (Float64.of_int 96) (Float64.of_int TARGET_WIDTH).
Definition scaleY : Float64.float :=
  Float64.div (Float64.of_int 96) (Float64.of_int TARGET_HEIGHT).

(** [Math.min(Math.floor(v * scale), 95)]: [None] is NaN or minus infinity,
    which index nothing; plus infinity is clamped to 95.  The integers that
    follow are far below 2^53 and computed exactly. *)
Definition src_of (scale : Float64.float) (v : Z) : option Z :=
  match Float64.mul (Float64.of_int v) scale with
  | S754_infinity false => Some 95
  | f => option_map (fun n => Z.min n 95) (Float64.floor f)
  end.

(** [pixels[i]] on the [Uint8ClampedArray] of the image data, as a number:
    outside the array the read gives [undefined], which arithmetic turns
    into NaN. *)
Definition pixel_at (pixels : list Z) (i : Z) : Float64.float :=
  if i <? 0 then S754_nan
  else match pixels !! Z.to_nat i with
       | Some v => Float64.of_int v
       | None => S754_nan
       end.

(** [0.299 * pixels[i] + 0.587 * pixels[i + 1] + 0.114 * pixels[i + 2]] *)
Definition gray_at (pixels : list Z) (srcIndex : Z) : Float64.float :=
  Float64.add
    (Float64.add
       (Float64.mul (Float64.literal 299 1000) (pixel_at pixels srcIndex))
       (Float64.mul (Float64.literal 587 1000) (pixel_at pixels (srcIndex + 1))))
    (Float64.mul (Float64.literal 114 1000) (pixel_at pixels (srcIndex + 2))).

Variant color := white | black.

(** The fill style chosen for canvas pixel [(x, y)]. *)
Definition pixel_color (pixels : list Z) (threshold : Z) (x y : Z) : color :=
  match src_of scaleY y, src_of scaleX x with
  | Some srcY, Some srcX =>
      let srcIndex := (srcY * 96 + srcX) * 4 in
      let gray := gray_at pixels srcIndex in
      if Float64.gt gray (Float64.of_int threshold) then white else black
  | _, _ => black
  end.

Variant CanvasOp :=
| FillStyle (c : color)
| FillRect (x y w h : Z)
| RequestAnimationFrame.

(** [processFrame()], given the image data read back from the off-screen
    canvas: the operations on the OLED canvas, in order. *)
Definition processFrame (isStreaming : bool) (pixels : list Z)
    (threshold : Z) : list CanvasOp :=
  if negb isStreaming then []
  else
    [FillStyle black; FillRect 0 0 TARGET_WIDTH TARGET_HEIGHT] ++
    flat_map (fun y =>
      flat_map (fun x =>
        [FillStyle (pixel_color pixels threshold x y); FillRect x y 1 1])
        (seqZ 0 TARGET_WIDTH))
      (seqZ 0 TARGET_HEIGHT) ++
    [RequestAnimationFrame].

(** The gray value the simulator computes for a pixel whose three colour
    channels all hold [p]. *)
Definition gray_of_level (p : Z) : Float64.float :=
  Float64.add
    (Float64.add
       (Float64.mul (Float64.literal 299 1000) (Float64.of_int p))
       (Float64.mul (Float64.literal 587 1000) (Float64.of_int p)))
    (Float64.mul (Float64.literal 114 1000) (Float64.of_int p)).

End Simulator.

(** ** Further scenarios *)

Module Fixture.

(** A bright 96x96 image whose row 2 is black. *)
Definition striped_gray : list Z :=
  replicate 192 200 ++ replicate 96 0 ++ replicate (Z.to_nat 8928) 200.

Definition striped_frame : camera_fb_t :=
  mk_fb (Some striped_gray) 9216 96 96 PIXFORMAT_GRAYSCALE.

(** The camera hands out frames that declare 96x96 grayscale but carry only
    100 bytes. *)
Definition short_frames : Env :=
  mk_env Scenario.sys_values 0 true (fun _ => ESP_OK) true
    (fun _ => Some Scenario.short_frame).

(** The globals after 100 good frames and 3 errors. *)
Definition at_hundred : State :=
  mk_state 100 3 true (replicate 1024 0) 0 1 103.

(** The image data of a 96x96 canvas all of whose bytes are [p]. *)
Definition flat_image (p : Z) : list Z := replicate (Z.to_nat (96 * 96 * 4)) p.

End Fixture.

(** * Verification *)


(** ** Rounding of the binary32 model *)



Lemma digits2_pos_bounds p :
  2 ^ (Zpos (digits2_pos p) - 1) <= Zpos p < 2 ^ Zpos (digits2_pos p).
Proof.
  induction p as [p IH|p IH|]; cbn [digits2_pos].
  - rewrite Pos2Z.inj_succ. pose proof (Pos2Z.inj_xI p).
    replace (Z.succ (Zpos (digits2_pos p)) - 1) with (Z.succ (Zpos (digits2_pos p) - 1)) by lia.
    rewrite !Z.pow_succ_r by lia. lia.
  - rewrite Pos2Z.inj_succ. pose proof (Pos2Z.inj_xO p).
    replace (Z.succ (Zpos (digits2_pos p)) - 1) with (Z.succ (Zpos (digits2_pos p) - 1)) by lia.
    rewrite !Z.pow_succ_r by lia. lia.
  - cbn. lia.
Qed.

Lemma digits2_pos_unique p d :
  2 ^ (d - 1) <= Zpos p < 2 ^ d -> Zpos (digits2_pos p) = d.
Proof.
  intros [Hlo Hhi]. pose proof (digits2_pos_bounds p) as [Blo Bhi].
  assert (0 < d).
  { destruct (Z.ltb_spec 0 d) as [|Hd]; [assumption|].
    destruct (Z.eq_dec d 0) as [->|Hne]; [cbn in Hhi; lia|].
    rewrite (Z.pow_neg_r 2 d) in Hhi by lia. lia. }
  destruct (Z.lt_trichotomy (Zpos (digits2_pos p)) d) as [Hlt|[Heq|Hgt]];
    [|exact Heq|].
  - assert (2 ^ Zpos (digits2_pos p) <= 2 ^ (d - 1))
      by (apply Z.pow_le_mono_r; lia). lia.
  - assert (2 ^ d <= 2 ^ (Zpos (digits2_pos p) - 1))
      by (apply Z.pow_le_mono_r; lia). lia.
Qed.

Lemma shr_1_located m r s A B :
  located m r s A B ->
  let mrs := shr_1 (Build_shr_record m r s) in
  located (shr_m mrs) (shr_r mrs) (shr_s mrs) A (2 * B) /\
  shr_m mrs = m / 2.
Proof.
  intros (Hm & HB & HA & Hloc).
  assert (Hhalf : forall p, Zpos p~0 / 2 = Zpos p /\ Zpos p~1 / 2 = Zpos p).
  { intros p. pose proof (Pos2Z.inj_xO p). pose proof (Pos2Z.inj_xI p).
    split; Z.div_mod_to_equations; lia. }
  unfold located.
  destruct m as [|[p|p|]|p]; try lia; cbn [shr_1 shr_m shr_r shr_s];
    try (destruct (Hhalf p) as [H0 H1]; rewrite ?H0, ?H1);
    try pose proof (Pos2Z.inj_xO p); try pose proof (Pos2Z.inj_xI p);
    destruct r, s; cbn [orb]; repeat split; try lia.
Qed.

Lemma iter_pos_nat {T} (f : T -> T) p x :
  SpecFloat.iter_pos f p x = Nat.iter (Pos.to_nat p) f x.
Proof.
  revert x. induction p as [p IH|p IH|]; intros x; cbn [SpecFloat.iter_pos].
  - rewrite !IH, Pos2Nat.inj_xI.
    replace (S (2 * Pos.to_nat p)) with (Pos.to_nat p + S (Pos.to_nat p))%nat by lia.
    rewrite Nat.iter_add, Nat.iter_succ_r. reflexivity.
  - rewrite !IH, Pos2Nat.inj_xO.
    replace (2 * Pos.to_nat p)%nat with (Pos.to_nat p + Pos.to_nat p)%nat by lia.
    rewrite Nat.iter_add. reflexivity.
  - reflexivity.
Qed.

Lemma shr_iter_located n m r s A B :
  located m r s A B ->
  let mrs := Nat.iter n shr_1 (Build_shr_record m r s) in
  located (shr_m mrs) (shr_r mrs) (shr_s mrs) A (2 ^ Z.of_nat n * B) /\
  shr_m mrs = m / 2 ^ Z.of_nat n.
Proof.
  intros Hloc. cbv zeta. induction n as [|n IH].
  - cbn [Nat.iter shr_m shr_r shr_s]. change (Z.of_nat 0) with 0.
    rewrite Z.pow_0_r, Z.mul_1_l, Z.div_1_r. split; [exact Hloc|reflexivity].
  - rewrite Nat.iter_succ. destruct IH as [IHl IHm].
    destruct (Nat.iter n shr_1 (Build_shr_record m r s)) as [m' r' s'].
    cbn [shr_m shr_r shr_s] in IHl, IHm.
    destruct (shr_1_located m' r' s' A _ IHl) as [Hl Hm].
    rewrite Nat2Z.inj_succ, Z.pow_succ_r by lia. split.
    + replace (2 * 2 ^ Z.of_nat n * B) with (2 * (2 ^ Z.of_nat n * B)) by lia.
      exact Hl.
    + rewrite Hm, IHm. rewrite Z.div_div by lia.
      f_equal. lia.
Qed.

(** Right shift by [n > 0] places, keeping the position. *)
Lemma shr_located m r s A B e n :
  0 < n -> located m r s A B ->
  let res := shr (Build_shr_record m r s) e n in
  snd res = e + n /\
  located (shr_m (fst res)) (shr_r (fst res)) (shr_s (fst res)) A (2 ^ n * B) /\
  shr_m (fst res) = m / 2 ^ n.
Proof.
  intros Hn Hloc. destruct n as [|p|p]; try lia.
  cbn [shr fst snd]. split; [reflexivity|].
  rewrite iter_pos_nat.
  pose proof (shr_iter_located (Pos.to_nat p) m r s A B Hloc) as H.
  rewrite positive_nat_Z in H. exact H.
Qed.

(** Rounding to nearest even moves by at most half a unit. *)
Lemma round_nearest_even_located m r s A B :
  located m r s A B ->
  let m' := round_nearest_even m (loc_of_shr_record (Build_shr_record m r s)) in
  m <= m' <= m + 1 /\ Z.abs (2 * m' * B - 2 * A) <= B.
Proof.
  intros (Hm & HB & HA & Hloc).
  destruct r, s; cbn [loc_of_shr_record round_nearest_even];
    try destruct (Z.even m); split; lia.
Qed.

Lemma shr_located_nonneg m r s A B e n :
  0 <= n -> located m r s A B ->
  exists m' r' s',
    shr (Build_shr_record m r s) e n = (Build_shr_record m' r' s', e + n) /\
    located m' r' s' A (2 ^ n * B) /\ m' = m / 2 ^ n.
Proof.
  intros Hn Hloc. destruct (Z.eq_dec n 0) as [->|Hne].
  - exists m, r, s. cbn [shr]. rewrite Z.add_0_r, Z.pow_0_r, Z.mul_1_l, Z.div_1_r.
    split; [reflexivity|]. split; [exact Hloc|reflexivity].
  - destruct (shr_located m r s A B e n) as (He & Hl & Hm); [lia|exact Hloc|].
    destruct (shr (Build_shr_record m r s) e n) as [[m' r' s'] e'].
    cbn [fst snd shr_m shr_r shr_s] in *. subst e'.
    exists m', r', s'. split; [reflexivity|]. split; assumption.
Qed.

Lemma fexp32 e : -149 <= e - 24 -> fexp 24 128 e = e - 24.
Proof. intros H. unfold fexp, emin. lia. Qed.


Lemma shr_record_of_loc_bits m l :
  shr_record_of_loc m l = Build_shr_record m (fst (loc_bits l)) (snd (loc_bits l)).
Proof. destruct l as [|[]]; reflexivity. Qed.

(** Rounding a mantissa of at least 24 digits, in the normal range, to
    binary32: the result is a normal float within half a unit in the last
    place of the quantity rounded. *)
Lemma binary_round_aux_located sx p ex lx A B :
  let d := Zpos (digits2_pos p) in
  24 <= d -> -149 <= d + ex - 24 -> d + ex - 24 < 104 ->
  located (Zpos p) (fst (loc_bits lx)) (snd (loc_bits lx)) A B ->
  exists m k,
    binary_round_aux 24 128 sx (Zpos p) ex lx = S754_finite sx m (ex + k) /\
    2 ^ 23 <= Zpos m < 2 ^ 24 /\
    d - 24 <= k <= d - 23 /\
    Z.abs (2 * Zpos m * 2 ^ k * B - 2 * A) <= 2 ^ (d - 24) * B /\
    2 ^ 23 * 2 ^ (d - 24) * B <= A.
Proof.
  intros d Hd Hlo Hhi Hloc.
  pose proof (digits2_pos_bounds p) as Hp. fold d in Hp.
  set (n := d - 24).
  assert (Hpow : 2 ^ (d - 1) = 2 ^ 23 * 2 ^ n /\ 2 ^ d = 2 ^ 24 * 2 ^ n).
  { unfold n. rewrite <- !Z.pow_add_r by lia. split; f_equal; lia. }
  destruct Hpow as [Hp1 Hp2]. rewrite Hp1, Hp2 in Hp.
  assert (Hn : 0 < 2 ^ n) by (apply Z.pow_pos_nonneg; lia).
  unfold binary_round_aux, shr_fexp.
  cbn [Zdigits2]. fold d.
  rewrite fexp32 by lia.
  replace (d + ex - 24 - ex) with n by (unfold n; lia).
  rewrite shr_record_of_loc_bits.
  destruct (shr_located_nonneg (Zpos p) _ _ A B ex n ltac:(unfold n; lia) Hloc)
    as (m1 & r1 & s1 & Hshr & Hl1 & Hm1).
  rewrite Hshr. cbn [shr_m].
  assert (Hm1r : 2 ^ 23 <= m1 < 2 ^ 24).
  { rewrite Hm1. split.
    - apply Z.div_le_lower_bound; lia.
    - apply Z.div_lt_upper_bound; lia. }
  pose proof (round_nearest_even_located m1 r1 s1 A _ Hl1) as [Hm2 Herr].
  set (m2 := round_nearest_even m1 (loc_of_shr_record (Build_shr_record m1 r1 s1))) in *.
  destruct Hl1 as (_ & HB' & HA' & _).
  assert (Hbase : 2 ^ 23 * 2 ^ (d - 24) * B <= A).
  { fold n. nia. }
  destruct m2 as [|q|q] eqn:Hq; try lia.
  cbn [Zdigits2].
  destruct (Z.eq_dec (Zpos q) (2 ^ 24)) as [Hcarry|Hnocarry].
  - (* the rounding carried into a 25th digit *)
    assert (Hdq : Zpos (digits2_pos q) = 25).
    { apply digits2_pos_unique. rewrite Hcarry. cbn. lia. }
    rewrite Hdq, fexp32 by lia.
    replace (25 + (ex + n) - 24 - (ex + n)) with 1 by lia.
    cbn [shr_record_of_loc shr SpecFloat.iter_pos].
    assert (Hq24 : q = 16777216%positive) by (cbn in Hcarry; lia).
    subst q. cbn [shr_1 shr_m].
    replace (ex + n + 1 <=? 128 - 24) with true by (symmetry; apply Z.leb_le; unfold n; lia).
    exists 8388608%positive, (n + 1). split; [f_equal; lia|].
    split; [cbn; lia|]. split; [unfold n; lia|]. split; [|exact Hbase].
    fold n. rewrite Z.pow_add_r by (unfold n; lia).
    change (2 ^ 1) with 2.
    replace (2 * 8388608 * (2 ^ n * 2) * B - 2 * A)
      with (2 * 16777216 * (2 ^ n * B) - 2 * A) by lia.
    exact Herr.
  - assert (Hdq : Zpos (digits2_pos q) = 24).
    { apply digits2_pos_unique. cbn. cbn in Hnocarry, Hm1r. lia. }
    rewrite Hdq, fexp32 by (unfold n; lia).
    replace (24 + (ex + n) - 24 - (ex + n)) with 0 by lia.
    cbn [shr_record_of_loc shr shr_m].
    replace (ex + n <=? 128 - 24) with true by (symmetry; apply Z.leb_le; unfold n; lia).
    exists q, n. split; [reflexivity|].
    split; [cbn in Hnocarry, Hm1r |- *; lia|]. split; [unfold n; lia|].
    split; [|exact Hbase].
    fold n. replace (2 * Zpos q * 2 ^ n * B) with (2 * Zpos q * (2 ^ n * B)) by lia.
    exact Herr.
Qed.



Lemma near_eq v x y : (x == y)%Q -> near v x -> near v y.
Proof. unfold near. intros Heq [H1 H2]. rewrite <- Heq. split; assumption. Qed.

Lemma Qpower2_pos e : (0 < Qpower 2 e)%Q.
Proof. apply Qpower_0_lt. reflexivity. Qed.

Lemma Qpower2_of_Z k : 0 <= k -> (inject_Z (2 ^ k) == Qpower 2 k)%Q.
Proof. intros Hk. rewrite Zpower_Qpower by exact Hk. reflexivity. Qed.

(** From the integer bound of the rounding lemma to [near]. *)
Lemma near_of_located M k n A B ex :
  0 < B -> 0 <= k -> 0 <= n ->
  Z.abs (2 * M * 2 ^ k * B - 2 * A) <= 2 ^ n * B ->
  2 ^ 23 * 2 ^ n * B <= A ->
  near (inject_Z M * Qpower 2 (ex + k)) (inject_Z A / inject_Z B * Qpower 2 ex).
Proof.
  intros HB Hk Hn Herr Hbase.
  assert (Hn2 : 0 < 2 ^ n) by (apply Z.pow_pos_nonneg; lia).
  assert (Hz : (2 ^ 24 - 1) * A <= 2 ^ 24 * (M * 2 ^ k * B) <= (2 ^ 24 + 1) * A).
  { change (2 ^ 23) with 8388608 in Hbase.
    change (2 ^ 24) with 16777216. nia. }
  change (2 ^ 24) with 16777216 in Hz. destruct Hz as [Hz1 Hz2].
  rewrite Zle_Qle in Hz1, Hz2.
  rewrite !inject_Z_mult in Hz1, Hz2.
  rewrite (Qpower2_of_Z k Hk) in Hz1, Hz2.
  assert (HBq : (0 < inject_Z B)%Q) by (change 0%Q with (inject_Z 0); rewrite <- Zlt_Qlt; exact HB).
  pose proof (Qpower2_pos ex) as Hex. pose proof (Qpower2_pos k) as Hkq.
  unfold near. rewrite Qpower_plus by discriminate.
  set (a := inject_Z A) in *. set (b := inject_Z B) in *.
  set (y := (inject_Z M * Qpower 2 k)%Q) in *.
  change (inject_Z (16777216 - 1)) with (16777216 - 1)%Q in Hz1.
  change (inject_Z 16777216) with 16777216%Q in Hz1, Hz2.
  change (inject_Z (16777216 + 1)) with (16777216 + 1)%Q in Hz2.
  assert (Hy : ((1 - u32) * (a / b) <= y /\ y <= (1 + u32) * (a / b))%Q).
  { assert (Hab : (a / b * b == a)%Q) by (field; lra).
    assert (H1 : (((16777216 - 1) * (a / b)) * b <= (16777216 * y) * b)%Q).
    { rewrite <- !Qmult_assoc, Hab. exact Hz1. }
    assert (H2 : ((16777216 * y) * b <= ((16777216 + 1) * (a / b)) * b)%Q).
    { rewrite <- !Qmult_assoc, Hab. exact Hz2. }
    apply Qmult_lt_0_le_reg_r in H1, H2; try exact HBq.
    unfold u32. split; lra. }
  destruct Hy as [Hy1 Hy2].
  assert (E : (inject_Z M * (Qpower 2 ex * Qpower 2 k) == y * Qpower 2 ex)%Q)
    by (unfold y; ring).
  rewrite E. split.
  - assert (E1 : ((1 - u32) * (a / b * Qpower 2 ex) ==
                  (1 - u32) * (a / b) * Qpower 2 ex)%Q) by ring.
    rewrite E1. apply Qmult_le_compat_r; [exact Hy1|lra].
  - assert (E2 : ((1 + u32) * (a / b * Qpower 2 ex) ==
                  (1 + u32) * (a / b) * Qpower 2 ex)%Q) by ring.
    rewrite E2. apply Qmult_le_compat_r; [exact Hy2|lra].
Qed.

(** Rounding, with its error bound stated on rational values. *)
Lemma round_near sx p ex lx A B :
  let d := Zpos (digits2_pos p) in
  24 <= d -> -149 <= d + ex - 24 -> d + ex - 24 < 104 ->
  located (Zpos p) (fst (loc_bits lx)) (snd (loc_bits lx)) A B ->
  exists m e,
    binary_round_aux 24 128 sx (Zpos p) ex lx = S754_finite sx m e /\
    2 ^ 23 <= Zpos m < 2 ^ 24 /\
    ex + d - 24 <= e <= ex + d - 23 /\
    near (inject_Z (Zpos m) * Qpower 2 e)
         (inject_Z A / inject_Z B * Qpower 2 ex).
Proof.
  intros d Hd Hlo Hhi Hloc.
  destruct (binary_round_aux_located sx p ex lx A B Hd Hlo Hhi Hloc)
    as (m & k & Hrun & Hm & Hk & Herr & Hbase).
  fold d in Hk, Herr, Hbase.
  exists m, (ex + k). split; [exact Hrun|]. split; [exact Hm|].
  split; [lia|].
  destruct Hloc as (_ & HB & _).
  apply (near_of_located (Zpos m) k (d - 24) A B ex); try lia; assumption.
Qed.

Lemma iter_xO_value p k : Zpos (Pos.iter xO p k) = Zpos p * 2 ^ Zpos k.
Proof.
  induction k as [|k IH] using Pos.peano_ind.
  - cbn [Pos.iter]. rewrite Pos2Z.inj_xO. change (2 ^ 1) with 2. lia.
  - rewrite Pos.iter_succ, Pos2Z.inj_xO, IH, Pos2Z.inj_succ, Z.pow_succ_r by lia.
    lia.
Qed.

Lemma located_exact m : 0 <= m -> located m false false m 1.
Proof. intros Hm. unfold located. lia. Qed.

(** [(float)n] for a 32-bit unsigned [n > 0]. *)
Lemma of_int_near n :
  0 < n < 2 ^ 32 ->
  exists m e,
    Float32.of_int n = S754_finite false m e /\
    2 ^ 23 <= Zpos m < 2 ^ 24 /\ -23 <= e <= 9 /\
    near (inject_Z (Zpos m) * Qpower 2 e) (inject_Z n).
Proof.
  intros [Hn0 Hn]. destruct n as [|p|p]; try lia.
  unfold Float32.of_int, Float32.prec, Float32.emax, binary_normalize, binary_round.
  pose proof (digits2_pos_bounds p) as Hp.
  set (d := Zpos (digits2_pos p)) in *.
  assert (Hd : 1 <= d <= 32).
  { split; [unfold d; lia|].
    destruct (Z.le_gt_cases d 32) as [|Hgt]; [assumption|].
    assert (2 ^ 32 <= 2 ^ (d - 1)) by (apply Z.pow_le_mono_r; lia). lia. }
  rewrite fexp32 by lia.
  unfold shl_align.
  destruct (d + 0 - 24 - 0) as [|j|j] eqn:Hj.
  - (* exactly 24 digits *)
    destruct (round_near false p 0 loc_Exact (Zpos p) 1)
      as (m & e & Hrun & Hm & He & Hnear); fold d; try lia.
    { apply located_exact. lia. }
    fold d in He. exists m, e. split; [exact Hrun|]. split; [exact Hm|].
    split; [lia|].
    eapply near_eq; [|exact Hnear]. cbn [Qpower]. field.
  - (* more than 24 digits: the rounding shifts right *)
    destruct (round_near false p 0 loc_Exact (Zpos p) 1)
      as (m & e & Hrun & Hm & He & Hnear); fold d; try lia.
    { apply located_exact. lia. }
    fold d in He. exists m, e. split; [exact Hrun|]. split; [exact Hm|].
    split; [lia|].
    eapply near_eq; [|exact Hnear]. cbn [Qpower]. field.
  - (* fewer than 24 digits: the mantissa is shifted left, exactly *)
    pose proof (iter_xO_value p j) as Hmz.
    set (mz := Pos.iter xO p j) in *.
    assert (Hjd : Zpos j = 24 - d) by lia.
    assert (Hdz : Zpos (digits2_pos mz) = 24).
    { apply digits2_pos_unique. rewrite Hmz, Hjd.
      replace (2 ^ (24 - 1)) with (2 ^ (d - 1) * 2 ^ (24 - d))
        by (rewrite <- Z.pow_add_r by lia; f_equal; lia).
      replace (2 ^ 24) with (2 ^ d * 2 ^ (24 - d))
        by (rewrite <- Z.pow_add_r by lia; f_equal; lia).
      assert (0 < 2 ^ (24 - d)) by (apply Z.pow_pos_nonneg; lia). nia. }
    destruct (round_near false mz (d + 0 - 24) loc_Exact (Zpos mz) 1)
      as (m & e & Hrun & Hm & He & Hnear); rewrite ?Hdz; try lia.
    { apply located_exact. lia. }
    rewrite Hdz in He. exists m, e. split; [exact Hrun|]. split; [exact Hm|].
    split; [lia|].
    eapply near_eq; [|exact Hnear].
    rewrite Hmz, inject_Z_mult, (Qpower2_of_Z (Zpos j)) by lia.
    replace (d + 0 - 24) with (- Zpos j) by lia.
    rewrite Qpower_opp.
    pose proof (Qpower2_pos (Zpos j)). field. lra.
Qed.

Lemma digits24 m : 2 ^ 23 <= Zpos m < 2 ^ 24 -> Zpos (digits2_pos m) = 24.
Proof. intros H. apply digits2_pos_unique. exact H. Qed.

(** The location the division hands to the rounding. *)
Lemma new_location_located nb q r A :
  0 < nb -> 0 <= q -> 0 <= r < nb -> A = nb * q + r ->
  located q (fst (loc_bits (new_location nb r)))
            (snd (loc_bits (new_location nb r))) A nb.
Proof.
  intros Hnb Hq Hr ->. unfold located, new_location.
  split; [exact Hq|]. split; [exact Hnb|]. split; [lia|].
  destruct (Z.even nb) eqn:Hev.
  - unfold new_location_even.
    destruct (Z.eqb_spec r 0) as [->|Hr0]; [cbn; lia|].
    destruct (Z.compare_spec (2 * r) nb); cbn; lia.
  - unfold new_location_odd.
    destruct (Z.eqb_spec r 0) as [->|Hr0]; [cbn; lia|].
    assert (Hodd : Z.odd nb = true) by (rewrite <- Z.negb_even, Hev; reflexivity).
    apply Z.odd_spec in Hodd as [t Ht].
    destruct (Z.compare_spec (2 * r + 1) nb); cbn; lia.
Qed.

(** Division of two normal positive floats whose quotient stays normal. *)
Lemma div_near ma ea mb eb :
  2 ^ 23 <= Zpos ma < 2 ^ 24 -> 2 ^ 23 <= Zpos mb < 2 ^ 24 ->
  -64 <= ea - eb <= 64 ->
  exists m e,
    Float32.div (S754_finite false ma ea) (S754_finite false mb eb) =
      S754_finite false m e /\
    2 ^ 23 <= Zpos m < 2 ^ 24 /\
    ea - eb - 24 <= e <= ea - eb - 22 /\
    near (inject_Z (Zpos m) * Qpower 2 e)
         ((inject_Z (Zpos ma) * Qpower 2 ea) / (inject_Z (Zpos mb) * Qpower 2 eb)).
Proof.
  intros Hma Hmb He.
  unfold Float32.div, Float32.prec, Float32.emax, SFdiv, SFdiv_core_binary.
  cbn [Zdigits2 xorb]. rewrite (digits24 ma Hma), (digits24 mb Hmb).
  rewrite fexp32 by lia.
  replace (Z.min (24 + ea - (24 + eb) - 24) (ea - eb)) with (ea - eb - 24) by lia.
  replace (ea - eb - (ea - eb - 24)) with 24 by lia.
  rewrite Z.shiftl_mul_pow2 by lia.
  pose proof (Z_div_mod (Zpos ma * 2 ^ 24) (Zpos mb) ltac:(lia)) as Hdm.
  destruct (Z.div_eucl (Zpos ma * 2 ^ 24) (Zpos mb)) as [q r].
  destruct Hdm as [Hdiv Hrem].
  assert (Hq : 2 ^ 23 <= q < 2 ^ 25).
  { change (2 ^ 23) with 8388608 in *. change (2 ^ 24) with 16777216 in *.
    change (2 ^ 25) with 33554432. nia. }
  destruct q as [|pq|pq]; try (cbn in Hq; lia).
  assert (Hloc := new_location_located (Zpos mb) (Zpos pq) r _
                    ltac:(lia) ltac:(lia) Hrem Hdiv).
  assert (Hd : 24 <= Zpos (digits2_pos pq) <= 25).
  { pose proof (digits2_pos_bounds pq) as Hb.
    set (d := Zpos (digits2_pos pq)) in *. split.
    - destruct (Z.le_gt_cases 24 d) as [|Hlt]; [assumption|].
      assert (2 ^ d <= 2 ^ 23) by (apply Z.pow_le_mono_r; lia). lia.
    - destruct (Z.le_gt_cases d 25) as [|Hgt]; [assumption|].
      assert (2 ^ 25 <= 2 ^ (d - 1)) by (apply Z.pow_le_mono_r; lia). lia. }
  destruct (round_near false pq (ea - eb - 24) (new_location (Zpos mb) r)
              (Zpos ma * 2 ^ 24) (Zpos mb))
    as (m & e & Hrun & Hm & Hrange & Hnear); try lia; [exact Hloc|].
  exists m, e. split; [exact Hrun|]. split; [exact Hm|]. split; [lia|].
  eapply near_eq; [|exact Hnear].
  rewrite inject_Z_mult.
  change (inject_Z (2 ^ 24)) with (Qpower 2 24).
  replace (ea - eb - 24) with (ea + (- eb + - 24)) by lia.
  rewrite !Qpower_plus by discriminate. rewrite !Qpower_opp.
  pose proof (Qpower2_pos ea). pose proof (Qpower2_pos eb).
  assert ((0 < inject_Z (Zpos mb))%Q) by reflexivity.
  change (Qpower 2 24) with (16777216 # 1)%Q.
  change (Qpower 2 (-24)) with (1 # 16777216)%Q.
  set (pa := Qpower 2 ea) in *. set (pb := Qpower 2 eb) in *.
  field. split; lra.
Qed.

(** Product of two normal positive floats whose product stays normal. *)
Lemma mul_near ma ea mb eb :
  2 ^ 23 <= Zpos ma < 2 ^ 24 -> 2 ^ 23 <= Zpos mb < 2 ^ 24 ->
  -100 <= ea + eb <= 50 ->
  exists m e,
    Float32.mul (S754_finite false ma ea) (S754_finite false mb eb) =
      S754_finite false m e /\
    2 ^ 23 <= Zpos m < 2 ^ 24 /\
    ea + eb + 22 <= e <= ea + eb + 25 /\
    near (inject_Z (Zpos m) * Qpower 2 e)
         ((inject_Z (Zpos ma) * Qpower 2 ea) * (inject_Z (Zpos mb) * Qpower 2 eb)).
Proof.
  intros Hma Hmb He.
  unfold Float32.mul, Float32.prec, Float32.emax, SFmul. cbn [xorb].
  assert (Hprod : 2 ^ 46 <= Zpos (ma * mb) < 2 ^ 48).
  { rewrite Pos2Z.inj_mul.
    change (2 ^ 23) with 8388608 in *. change (2 ^ 24) with 16777216 in *.
    change (2 ^ 46) with (8388608 * 8388608).
    change (2 ^ 48) with (16777216 * 16777216). nia. }
  assert (Hd : 47 <= Zpos (digits2_pos (ma * mb)) <= 48).
  { pose proof (digits2_pos_bounds (ma * mb)) as Hb.
    set (d := Zpos (digits2_pos (ma * mb))) in *. split.
    - destruct (Z.le_gt_cases 47 d) as [|Hlt]; [assumption|].
      assert (2 ^ d <= 2 ^ 46) by (apply Z.pow_le_mono_r; lia). lia.
    - destruct (Z.le_gt_cases d 48) as [|Hgt]; [assumption|].
      assert (2 ^ 48 <= 2 ^ (d - 1)) by (apply Z.pow_le_mono_r; lia). lia. }
  destruct (round_near false (ma * mb) (ea + eb) loc_Exact (Zpos (ma * mb)) 1)
    as (m & e & Hrun & Hm & Hrange & Hnear); try lia.
  { apply located_exact. lia. }
  exists m, e. split; [exact Hrun|]. split; [exact Hm|]. split; [lia|].
  eapply near_eq; [|exact Hnear].
  rewrite Pos2Z.inj_mul, inject_Z_mult.
  rewrite Qpower_plus by discriminate.
  set (pa := Qpower 2 ea). set (pb := Qpower 2 eb). field.
Qed.

(** Quotient of two approximations. *)
Lemma near_div_bounds a b x y :
  (0 < x)%Q -> (0 < y)%Q -> near a x -> near b y ->
  ((1 - u32) / (1 + u32) * (x / y) <= a / b /\
   a / b <= (1 + u32) / (1 - u32) * (x / y))%Q.
Proof.
  unfold near, u32. intros Hx Hy [Ha1 Ha2] [Hb1 Hb2].
  assert (Hb : (0 < b)%Q) by lra.
  assert (Hxy : (0 < x / y)%Q).
  { apply Qlt_shift_div_l; [exact Hy|]. lra. }
  set (t := (x / y)%Q) in *.
  assert (Ht : (t * y == x)%Q) by (unfold t; field; lra).
  split.
  - apply Qle_shift_div_l; [exact Hb|].
    apply Qle_trans with ((1 - (1 # 16777216)) / (1 + (1 # 16777216)) * t *
                          ((1 + (1 # 16777216)) * y))%Q.
    + apply Qmult_le_l; [|exact Hb2].
      apply Qmult_lt_0_compat; [reflexivity|exact Hxy].
    + assert (E : ((1 - (1 # 16777216)) / (1 + (1 # 16777216)) * t *
                   ((1 + (1 # 16777216)) * y) ==
                   (1 - (1 # 16777216)) * (t * y))%Q) by (field; lra).
      rewrite E, Ht. exact Ha1.
  - apply Qle_shift_div_r; [exact Hb|].
    apply Qle_trans with ((1 + (1 # 16777216)) / (1 - (1 # 16777216)) * t *
                          ((1 - (1 # 16777216)) * y))%Q.
    + assert (E : ((1 + (1 # 16777216)) / (1 - (1 # 16777216)) * t *
                   ((1 - (1 # 16777216)) * y) ==
                   (1 + (1 # 16777216)) * (t * y))%Q) by (field; lra).
      rewrite E, Ht. exact Ha2.
    + apply Qmult_le_l; [|exact Hb1].
      apply Qmult_lt_0_compat; [reflexivity|exact Hxy].
Qed.

(** Four roundings in a row stay within [2^-21] of the exact value. *)
Lemma near_chain va vb vq vr x y :
  (0 < x)%Q -> (0 < y)%Q ->
  near va x -> near vb y -> near vq (va / vb) -> near vr (vq * 100) ->
  ((1 - (1 # 2097152)) * (100 * x / y) <= vr /\
   vr <= (1 + (1 # 2097152)) * (100 * x / y))%Q.
Proof.
  intros Hx Hy Ha Hb Hq Hr.
  destruct (near_div_bounds va vb x y Hx Hy Ha Hb) as [Hd1 Hd2].
  assert (Hxy : (0 < x / y)%Q).
  { apply Qlt_shift_div_l; [exact Hy|]. lra. }
  assert (E : (100 * x / y == 100 * (x / y))%Q) by (field; lra).
  rewrite E.
  assert (C1 : ((1 - u32) / (1 + u32) == 16777215 # 16777217)%Q) by reflexivity.
  assert (C2 : ((1 + u32) / (1 - u32) == 16777217 # 16777215)%Q) by reflexivity.
  rewrite C1 in Hd1. rewrite C2 in Hd2.
  unfold near, u32 in Hq, Hr.
  set (t := (x / y)%Q) in *. set (X := (va / vb)%Q) in *.
  destruct Hq as [Hq1 Hq2]. destruct Hr as [Hr1 Hr2].
  split; lra.
Qed.

Lemma float_100 : Float32.of_int 100 = S754_finite false 13107200 (-17).
Proof. reflexivity. Qed.

(** The error rate computed by [loop] is, up to a relative error of
    [2^-21], the exact quotient [100 * e / (f + e)], as long as the sum of the
    counters does not wrap. *)
Lemma errorRate_expr_accuracy f e :
  0 <= f -> 0 < e -> f + e < 2 ^ 32 ->
  exists m ex,
    errorRate_expr f e = S754_finite false m ex /\
    let exact := (100 * inject_Z e / inject_Z (f + e))%Q in
    ((1 - (1 # 2097152)) * exact <= F2Q (S754_finite false m ex) /\
     F2Q (S754_finite false m ex) <= (1 + (1 # 2097152)) * exact)%Q.
Proof.
  intros Hf He Hsum. unfold errorRate_expr, wrap32.
  rewrite Z.mod_small by lia.
  destruct (of_int_near e) as (ma & ea & -> & Hma & Hea & Hna); [lia|].
  destruct (of_int_near (f + e)) as (mb & eb & -> & Hmb & Heb & Hnb); [lia|].
  destruct (div_near ma ea mb eb Hma Hmb) as (mq & eq & -> & Hmq & Heq & Hnq);
    [lia|].
  rewrite float_100.
  destruct (mul_near mq eq 13107200 (-17) Hmq) as (m & ex & -> & Hm & Hex & Hnr);
    [cbn; lia|lia|].
  exists m, ex. split; [reflexivity|]. cbv zeta.
  assert (Hxe : (0 < inject_Z e)%Q)
    by (change 0%Q with (inject_Z 0); rewrite <- Zlt_Qlt; lia).
  assert (Hxs : (0 < inject_Z (f + e))%Q)
    by (change 0%Q with (inject_Z 0); rewrite <- Zlt_Qlt; lia).
  assert (Hnr' : near (inject_Z (Zpos m) * Qpower 2 ex)
                   (inject_Z (Zpos mq) * Qpower 2 eq * 100)).
  { eapply near_eq; [|exact Hnr].
    apply Qmult_comp; [reflexivity|]. reflexivity. }
  pose proof (near_chain _ _ _ _ _ _ Hxe Hxs Hna Hnb Hnq Hnr') as [H1 H2].
  unfold F2Q.
  assert (E : (1 * inject_Z (Zpos m) * Qpower 2 ex ==
               inject_Z (Zpos m) * Qpower 2 ex)%Q) by ring.
  rewrite E. split; assumption.
Qed.

(** Without errors the rate is exactly zero. *)
Lemma errorRate_expr_zero f :
  0 < f < 2 ^ 32 -> errorRate_expr f 0 = S754_zero false.
Proof.
  intros Hf. unfold errorRate_expr, wrap32.
  rewrite Z.add_0_r, Z.mod_small by lia.
  destruct (of_int_near f Hf) as (m & e & -> & _). reflexivity.
Qed.
Lemma all_below_spec n P :
  all_below n P = true -> forall x, 0 <= x < Z.of_nat n -> P x = true.
Proof.
  induction n as [|k IH]; simpl; intros H x Hx; [lia|].
  apply andb_true_iff in H as [Hk Hrest].
  destruct (Z.eq_dec x (Z.of_nat k)) as [->|Hne]; [exact Hk|].
  apply IH; [exact Hrest|lia].
Qed.

(** ** Nearest-neighbour source indices *)

Lemma srcX_table :
  all_below 128 (fun x =>
    Float32.is_finite (Float32.mul (Float32.of_int x) scaleX) &&
    (Float32.to_int (Float32.mul (Float32.of_int x) scaleX) =? x * 96 / 128) &&
    (srcX_of x =? x * 96 / 128)) = true.
Proof. vm_compute. reflexivity. Qed.

Lemma srcY_table :
  all_below 64 (fun y =>
    Float32.is_finite (Float32.mul (Float32.of_int y) scaleY) &&
    (Float32.to_int (Float32.mul (Float32.of_int y) scaleY) =? y * 96 / 64) &&
    (srcY_of y =? y * 96 / 64)) = true.
Proof. vm_compute. reflexivity. Qed.

Lemma srcX_of_floor x : 0 <= x < BMP_W -> srcX_of x = x * 96 / 128.
Proof.
  intros Hx. pose proof (all_below_spec _ _ srcX_table x Hx) as H.
  simpl in H. apply andb_true_iff in H as [_ H]. lia.
Qed.

Lemma srcY_of_floor y : 0 <= y < BMP_H -> srcY_of y = y * 96 / 64.
Proof.
  intros Hy. pose proof (all_below_spec _ _ srcY_table y Hy) as H.
  simpl in H. apply andb_true_iff in H as [_ H]. lia.
Qed.

(** The product handed to the cast is a finite float, so the cast is defined,
    and it is already the floor: the clamp to 95 never fires. *)
Lemma scaled_x_cast x :
  0 <= x < BMP_W ->
  Float32.is_finite (Float32.mul (Float32.of_int x) scaleX) = true /\
  Float32.to_int (Float32.mul (Float32.of_int x) scaleX) = x * 96 / 128.
Proof.
  intros Hx. pose proof (all_below_spec _ _ srcX_table x Hx) as H.
  simpl in H. apply andb_true_iff in H as [H _].
  apply andb_true_iff in H as [H1 H2]. split; [exact H1|lia].
Qed.

Lemma scaled_y_cast y :
  0 <= y < BMP_H ->
  Float32.is_finite (Float32.mul (Float32.of_int y) scaleY) = true /\
  Float32.to_int (Float32.mul (Float32.of_int y) scaleY) = y * 96 / 64.
Proof.
  intros Hy. pose proof (all_below_spec _ _ srcY_table y Hy) as H.
  simpl in H. apply andb_true_iff in H as [H _].
  apply andb_true_iff in H as [H1 H2]. split; [exact H1|lia].
Qed.

Lemma src_index_range x y :
  0 <= x < BMP_W -> 0 <= y < BMP_H ->
  0 <= srcX_of x <= 95 /\ 0 <= srcY_of y <= 95 /\
  0 <= srcY_of y * 96 + srcX_of x < 96 * 96.
Proof.
  intros Hx Hy. rewrite srcX_of_floor, srcY_of_floor by assumption.
  unfold BMP_W, BMP_H in *.
  Z.div_mod_to_equations. lia.
Qed.

(** ** Bits of the packed bitmap *)

Lemma pixel_position x y :
  0 <= x < BMP_W -> 0 <= y < BMP_H ->
  Z.shiftr (y * BMP_W + x) 3 = y * 16 + x / 8 /\ Z.land x 7 = x mod 8 /\
  0 <= y * 16 + x / 8 < BITMAP_BYTES.
Proof.
  unfold BITMAP_BYTES, BMP_W, BMP_H. intros Hx Hy.
  rewrite Z.shiftr_div_pow2 by lia.
  change 7 with (Z.ones 3). rewrite Z.land_ones by lia.
  change (2 ^ 3) with 8. change (128 * 64 / 8) with 1024.
  repeat split; Z.div_mod_to_equations; lia.
Qed.

Lemma small_cases j : 0 <= j < 8 ->
  j = 0 \/ j = 1 \/ j = 2 \/ j = 3 \/ j = 4 \/ j = 5 \/ j = 6 \/ j = 7.
Proof. lia. Qed.

Lemma or_byte_testbit a bit j :
  0 <= bit < 8 -> 0 <= j < 8 ->
  Z.testbit (Z.land (Z.lor a (Z.shiftl 1 bit)) 255) j =
  Z.testbit a j || (j =? bit).
Proof.
  intros Hb Hj. rewrite Z.land_spec, Z.lor_spec.
  generalize (Z.testbit a j). intros t.
  apply small_cases in Hb. apply small_cases in Hj.
  destruct Hb as [->|[->|[->|[->|[->|[->|[->| ->]]]]]]];
  destruct Hj as [->|[->|[->|[->|[->|[->|[->| ->]]]]]]];
  destruct t; reflexivity.
Qed.

Lemma or_bit_length b idx bit : length (or_bit b idx bit) = length b.
Proof. unfold or_bit. apply length_insert. Qed.

Lemma or_bit_byte_same b idx bit :
  0 <= idx < Z.of_nat (length b) ->
  byte_at (or_bit b idx bit) idx =
  Z.land (Z.lor (byte_at b idx) (Z.shiftl 1 bit)) 255.
Proof.
  intros Hi. unfold or_bit. unfold byte_at at 1.
  rewrite list_lookup_insert_eq by lia. reflexivity.
Qed.

Lemma or_bit_byte_other b idx bit i :
  0 <= idx -> 0 <= i -> i <> idx ->
  byte_at (or_bit b idx bit) i = byte_at b i.
Proof.
  intros Hidx Hi Hne. unfold or_bit. unfold byte_at at 1 3.
  rewrite list_lookup_insert_ne by lia. reflexivity.
Qed.

Lemma convert_pixel_length gray T y srcRow b x :
  length (convert_pixel gray T y srcRow b x) = length b.
Proof.
  unfold convert_pixel. destruct (T <? _); [apply or_bit_length|reflexivity].
Qed.

(** One step of the inner loop sets the bit of [(x, y)] when the sample is
    lit and touches no other bit. *)
Lemma convert_pixel_bit gray T y srcRow b x x' y' :
  Z.of_nat (length b) = BITMAP_BYTES ->
  0 <= x < BMP_W -> 0 <= y < BMP_H -> 0 <= x' < BMP_W -> 0 <= y' < BMP_H ->
  bitmap_bit (convert_pixel gray T y srcRow b x) x' y' =
  bitmap_bit b x' y' || (lit gray T srcRow x && (x' =? x) && (y' =? y)).
Proof.
  intros Hlen Hx Hy Hx' Hy'. unfold convert_pixel, lit.
  destruct (T <? byte_at gray (srcRow + srcX_of x)); simpl;
    [|rewrite orb_false_r; reflexivity].
  unfold bitmap_bit.
  destruct (pixel_position x y Hx Hy) as (-> & -> & Hi).
  destruct (pixel_position x' y' Hx' Hy') as (-> & -> & Hi').
  unfold BMP_W, BMP_H in *.
  destruct (Z.eq_dec (y' * 16 + x' / 8) (y * 16 + x / 8)) as [Heq|Hne].
  - rewrite Heq, or_bit_byte_same by lia.
    rewrite or_byte_testbit by (Z.div_mod_to_equations; lia).
    f_equal.
    destruct (Z.eqb_spec (7 - x' mod 8) (7 - x mod 8)),
      (Z.eqb_spec x' x), (Z.eqb_spec y' y); simpl; try reflexivity;
      exfalso; Z.div_mod_to_equations; lia.
  - rewrite or_bit_byte_other by lia.
    destruct (Z.eqb_spec x' x), (Z.eqb_spec y' y); simpl;
      rewrite ?orb_false_r; try reflexivity.
    subst. congruence.
Qed.

Lemma convert_inner gray T y srcRow xs :
  0 <= y < BMP_H -> Forall (fun x => 0 <= x < BMP_W) xs ->
  forall b, Z.of_nat (length b) = BITMAP_BYTES ->
  length (foldl (convert_pixel gray T y srcRow) b xs) = length b /\
  forall x' y', 0 <= x' < BMP_W -> 0 <= y' < BMP_H ->
    bitmap_bit (foldl (convert_pixel gray T y srcRow) b xs) x' y' =
    bitmap_bit b x' y' ||
    (lit gray T srcRow x' && bool_decide (x' ∈ xs) && (y' =? y)).
Proof.
  intros Hy Hxs. induction Hxs as [|x xs Hx Hxs IH]; intros b Hlen.
  - cbn [foldl]. split; [reflexivity|]. intros x' y' _ _.
    rewrite bool_decide_eq_false_2 by apply not_elem_of_nil.
    rewrite andb_false_r, orb_false_r. reflexivity.
  - cbn [foldl].
    assert (Hlen' : Z.of_nat (length (convert_pixel gray T y srcRow b x)) =
                    BITMAP_BYTES) by (rewrite convert_pixel_length; exact Hlen).
    destruct (IH _ Hlen') as [IHl IHb]. split.
    + rewrite IHl. apply convert_pixel_length.
    + intros x' y' Hx' Hy'. rewrite IHb by assumption.
      rewrite convert_pixel_bit by assumption.
      rewrite <- orb_assoc. f_equal.
      destruct (Z.eqb_spec x' x) as [->|Hne].
      * rewrite (bool_decide_eq_true_2 (x ∈ x :: xs)) by (apply elem_of_cons; left; reflexivity).
        destruct (lit gray T srcRow x), (Z.eqb y' y), (bool_decide (x ∈ xs));
          reflexivity.
      * rewrite andb_false_r. simpl.
        rewrite (bool_decide_ext (x' ∈ x :: xs) (x' ∈ xs)); [reflexivity|].
        rewrite elem_of_cons. tauto.
Qed.

Lemma convert_row_length gray T b y :
  0 <= y < BMP_H -> Z.of_nat (length b) = BITMAP_BYTES ->
  length (convert_row gray T b y) = length b.
Proof.
  intros Hy Hlen. unfold convert_row.
  apply convert_inner; [exact Hy| |exact Hlen].
  apply Forall_forall. intros x Hx. apply elem_of_seqZ in Hx. unfold BMP_W in *. lia.
Qed.

(** One pass of the outer loop sets exactly the lit bits of row [y]. *)
Lemma convert_row_bit gray T b y x' y' :
  0 <= y < BMP_H -> Z.of_nat (length b) = BITMAP_BYTES ->
  0 <= x' < BMP_W -> 0 <= y' < BMP_H ->
  bitmap_bit (convert_row gray T b y) x' y' =
  bitmap_bit b x' y' || (lit gray T (srcY_of y * 96) x' && (y' =? y)).
Proof.
  intros Hy Hlen Hx' Hy'. unfold convert_row.
  assert (Hall : Forall (fun x => 0 <= x < BMP_W) (seqZ 0 BMP_W)).
  { apply Forall_forall. intros x Hx. apply elem_of_seqZ in Hx. unfold BMP_W in *. lia. }
  destruct (convert_inner gray T y (srcY_of y * 96) _ Hy Hall b Hlen) as [_ Hb].
  rewrite Hb by assumption.
  rewrite (bool_decide_eq_true_2 (x' ∈ seqZ 0 BMP_W)) by (apply elem_of_seqZ; unfold BMP_W in *; lia).
  rewrite andb_true_r. reflexivity.
Qed.

Lemma convert_outer gray T ys :
  Forall (fun y => 0 <= y < BMP_H) ys ->
  forall b, Z.of_nat (length b) = BITMAP_BYTES ->
  length (foldl (convert_row gray T) b ys) = length b /\
  forall x' y', 0 <= x' < BMP_W -> 0 <= y' < BMP_H ->
    bitmap_bit (foldl (convert_row gray T) b ys) x' y' =
    bitmap_bit b x' y' ||
    (lit gray T (srcY_of y' * 96) x' && bool_decide (y' ∈ ys)).
Proof.
  intros Hys. induction Hys as [|y ys Hy Hys IH]; intros b Hlen.
  - cbn [foldl]. split; [reflexivity|]. intros x' y' _ _.
    rewrite bool_decide_eq_false_2 by apply not_elem_of_nil.
    rewrite andb_false_r, orb_false_r. reflexivity.
  - cbn [foldl].
    assert (Hlen' : Z.of_nat (length (convert_row gray T b y)) = BITMAP_BYTES)
      by (rewrite convert_row_length; assumption).
    destruct (IH _ Hlen') as [IHl IHb]. split.
    + rewrite IHl. apply convert_row_length; assumption.
    + intros x' y' Hx' Hy'. rewrite IHb by assumption.
      rewrite convert_row_bit by assumption.
      rewrite <- orb_assoc. f_equal.
      destruct (Z.eqb_spec y' y) as [->|Hne].
      * rewrite (bool_decide_eq_true_2 (y ∈ y :: ys)) by (apply elem_of_cons; left; reflexivity).
        destruct (lit gray T (srcY_of y * 96) x'), (bool_decide (y ∈ ys));
          reflexivity.
      * rewrite andb_false_r. simpl.
        rewrite (bool_decide_ext (y' ∈ y :: ys) (y' ∈ ys)); [reflexivity|].
        rewrite elem_of_cons. tauto.
Qed.

(** ** The converter as a whole *)

Lemma memset_zero_all (a : list Z) :
  Z.of_nat (length a) = BITMAP_BYTES ->
  memset a 0 BITMAP_BYTES = replicate (Z.to_nat BITMAP_BYTES) 0.
Proof.
  intros Hlen. unfold memset.
  rewrite drop_ge by lia. rewrite app_nil_r. f_equal. lia.
Qed.

Lemma byte_at_replicate n v i : byte_at (replicate n v) i = v \/ byte_at (replicate n v) i = 0.
Proof.
  unfold byte_at. destruct (replicate n v !! Z.to_nat i) as [w|] eqn:E.
  - apply lookup_replicate in E as [-> _]. left. reflexivity.
  - right. reflexivity.
Qed.

Lemma bitmap_bit_zeroed n x y : bitmap_bit (replicate n 0) x y = false.
Proof.
  unfold bitmap_bit.
  destruct (byte_at_replicate n 0 (Z.shiftr (y * BMP_W + x) 3)) as [-> | ->];
    apply Z.bits_0.
Qed.

(** The two loops, started on a zeroed buffer, leave bit [(x, y)] set exactly
    when the sampled intensity is above the threshold, for any threshold. *)
Lemma convert_loops_bit gray T n x y :
  Z.of_nat n = BITMAP_BYTES -> 0 <= x < BMP_W -> 0 <= y < BMP_H ->
  bitmap_bit (convert_loops gray T (replicate n 0)) x y =
  (T <? byte_at gray (srcY_of y * 96 + srcX_of x)).
Proof.
  intros Hn Hx Hy. unfold convert_loops.
  assert (Hall : Forall (fun y => 0 <= y < BMP_H) (seqZ 0 BMP_H)).
  { apply Forall_forall. intros k Hk. apply elem_of_seqZ in Hk. lia. }
  assert (Hlen : Z.of_nat (length (replicate n 0)) = BITMAP_BYTES)
    by (rewrite length_replicate; exact Hn).
  destruct (convert_outer gray T _ Hall _ Hlen) as [_ Hb].
  rewrite Hb by assumption. rewrite bitmap_bit_zeroed. simpl.
  rewrite (bool_decide_eq_true_2 (y ∈ seqZ 0 BMP_H)) by (apply elem_of_seqZ; lia).
  rewrite andb_true_r. reflexivity.
Qed.

Lemma convert_valid_frame f gray dest :
  buf f = Some gray -> 96 * 96 <= len f ->
  Z.of_nat (length dest) = BITMAP_BYTES ->
  convertFrameToBitmap (Some f) dest =
  convert_loops gray BRIGHTNESS_THRESHOLD (replicate (Z.to_nat BITMAP_BYTES) 0).
Proof.
  intros Hbuf Hlen Hdest. unfold convertFrameToBitmap. rewrite Hbuf.
  destruct (Z.ltb_spec (len f) (96 * 96)); [lia|].
  cbv zeta. rewrite memset_zero_all by exact Hdest. reflexivity.
Qed.

(** C1: for every 96x96 grayscale source frame and every destination pixel
    (x, y) with 0 <= x < 128 and 0 <= y < 64, the bit convertFrameToBitmap
    leaves at (x, y) is 1 exactly when the sampled source intensity p is
    strictly greater than the threshold; p equal to the threshold gives 0. *)
Theorem convert_bit_iff_above_threshold f gray dest x y :
  frame_96x96 f gray ->
  Z.of_nat (length dest) = BITMAP_BYTES ->
  0 <= x < 128 -> 0 <= y < 64 ->
  let p := byte_at gray (srcY_of y * 96 + srcX_of x) in
  let out := convertFrameToBitmap (Some f) dest in
  (bitmap_bit out x y = true <-> p > BRIGHTNESS_THRESHOLD) /\
  (p = BRIGHTNESS_THRESHOLD -> bitmap_bit out x y = false).
Proof.
  intros (Hbuf & Hlen & _) Hdest Hx Hy p out. subst out.
  rewrite (convert_valid_frame f gray dest Hbuf) by (assumption || lia).
  rewrite convert_loops_bit by (unfold BMP_W, BMP_H; lia || reflexivity).
  fold p. split.
  - split; intros H; [apply Z.ltb_lt in H|apply Z.ltb_lt]; lia.
  - intros Hp. rewrite Hp. apply Z.ltb_irrefl.
Qed.

(** C2: for every destination pixel (x, y) with 0 <= x < 128 and
    0 <= y < 64 the source indices are srcX = floor(x * 96 / 128) and
    srcY = floor(y * 96 / 64), each clamped to at most 95; x = 127 maps to
    srcX = 95, y = 63 maps to srcY <= 95, and the sampled index stays inside
    the 96x96 source. *)
Theorem src_index_floor_clamped x y :
  0 <= x < 128 -> 0 <= y < 64 ->
  srcX_of x = Z.min (x * 96 / 128) 95 /\
  srcY_of y = Z.min (y * 96 / 64) 95 /\
  srcX_of 127 = 95 /\ srcY_of 63 <= 95 /\
  0 <= srcX_of x < 96 /\ 0 <= srcY_of y < 96 /\
  0 <= srcY_of y * 96 + srcX_of x < 96 * 96.
Proof.
  intros Hx Hy.
  pose proof (src_index_range x y Hx Hy) as (Rx & Ry & Ri).
  pose proof (srcX_of_floor x Hx) as Ex. pose proof (srcY_of_floor y Hy) as Ey.
  split; [lia|]. split; [lia|].
  split; [vm_compute; reflexivity|].
  split; [vm_compute; discriminate|].
  lia.
Qed.


(** ** The per-frame step *)

Arguments convertFrameToBitmap : simpl never.
Arguments wrap32 : simpl never.

Lemma pixformat_eqb_eq a b : pixformat_eqb a b = true <-> a = b.
Proof. destruct a, b; simpl; split; congruence. Qed.

Lemma frame_mismatch_spec f :
  frame_mismatch f = true <->
  width f <> 96 \/ height f <> 96 \/ format f <> PIXFORMAT_GRAYSCALE.
Proof.
  unfold frame_mismatch.
  rewrite !orb_true_iff, !negb_true_iff.
  rewrite !Z.eqb_neq.
  rewrite <- not_true_iff_false, pixformat_eqb_eq. tauto.
Qed.

Lemma processFrame_failed env s :
  cameraInitialized s = true -> next_frame_fails env s = true ->
  processFrame env s =
  (false,
   mk_state (frameCount s) (wrap32 (errorCount s + 1)) (cameraInitialized s)
     (bitmapBuffer s) (sys_calls s) (init_calls s) (S (fb_calls s)),
   match esp_camera_fb_get_result env (fb_calls s) with
   | None => [EFbGet None]
   | Some f => [EFbGet (Some f); EFbReturn f]
   end).
Proof.
  intros Hinit Hfail. unfold next_frame_fails in Hfail.
  destruct s as [fc ec ci bb sc ic fbc]. cbn in Hinit, Hfail |- *. subst ci.
  unfold processFrame, bind, get_state, esp_camera_fb_get. cbn.
  destruct (esp_camera_fb_get_result env fbc) as [f|].
  - rewrite Hfail. reflexivity.
  - reflexivity.
Qed.

Lemma processFrame_succeeded env s f :
  cameraInitialized s = true ->
  esp_camera_fb_get_result env (fb_calls s) = Some f ->
  frame_mismatch f = false ->
  processFrame env s =
  (true,
   mk_state (wrap32 (frameCount s + 1)) (errorCount s) (cameraInitialized s)
     (convertFrameToBitmap (Some f) (bitmapBuffer s))
     (sys_calls s) (init_calls s) (S (fb_calls s)),
   [EFbGet (Some f); EFbReturn f; EDisplayClear;
    EDisplayDrawBitmap 0 0 (convertFrameToBitmap (Some f) (bitmapBuffer s))
      BMP_W BMP_H 1;
    EDisplayFlush]).
Proof.
  intros Hinit Hfb Hok.
  destruct s as [fc ec ci bb sc ic fbc]. cbn in Hinit, Hfb |- *. subst ci.
  unfold processFrame, bind, get_state, esp_camera_fb_get. cbn.
  rewrite Hfb, Hok. reflexivity.
Qed.

(** C3 (as amended): with the camera initialized, a call of the per-frame
    step increments frameCount (modulo 2^32) exactly when the frame succeeded
    and increments errorCount (modulo 2^32) exactly when the frame failed
    (no frame acquired, or a size or format mismatch); the other counter is
    left as it was. *)
Theorem processFrame_counters env s :
  cameraInitialized s = true ->
  let r := processFrame env s in
  let failed := next_frame_fails env s in
  result_of r = negb failed /\
  frameCount (state_of r) =
    (if failed then frameCount s else wrap32 (frameCount s + 1)) /\
  errorCount (state_of r) =
    (if failed then wrap32 (errorCount s + 1) else errorCount s).
Proof.
  intros Hinit r failed. subst r failed.
  destruct (next_frame_fails env s) eqn:Hf.
  - rewrite (processFrame_failed env s Hinit Hf). repeat split.
  - unfold next_frame_fails in Hf.
    destruct (esp_camera_fb_get_result env (fb_calls s)) as [f|] eqn:Hfb;
      [|discriminate].
    rewrite (processFrame_succeeded env s f Hinit Hfb Hf). repeat split.
Qed.

(** C10: when acquisition returns no frame, or the acquired frame's
    dimensions or pixel format differ from 96x96 grayscale, the per-frame
    step records a failed frame, releases the frame if one was acquired, and
    skips conversion and rendering: the bitmap buffer is untouched and the
    display is neither cleared, drawn to nor flushed. *)
Theorem processFrame_failure_skips_render env s :
  cameraInitialized s = true ->
  let fb := esp_camera_fb_get_result env (fb_calls s) in
  (fb = None \/
   exists f, fb = Some f /\
     (width f <> 96 \/ height f <> 96 \/ format f <> PIXFORMAT_GRAYSCALE)) ->
  let r := processFrame env s in
  result_of r = false /\
  errorCount (state_of r) = wrap32 (errorCount s + 1) /\
  frameCount (state_of r) = frameCount s /\
  bitmapBuffer (state_of r) = bitmapBuffer s /\
  count_events is_display_output (events_of r) = 0%nat /\
  events_of r = match fb with
                | None => [EFbGet None]
                | Some f => [EFbGet (Some f); EFbReturn f]
                end.
Proof.
  intros Hinit fb Hbad r. subst r.
  assert (Hf : next_frame_fails env s = true).
  { unfold next_frame_fails. fold fb.
    destruct Hbad as [-> | (f & -> & Hmis)]; [reflexivity|].
    apply frame_mismatch_spec. exact Hmis. }
  rewrite (processFrame_failed env s Hinit Hf). fold fb.
  repeat split. destruct fb; reflexivity.
Qed.

(** ** The end of a loop iteration *)

Lemma reset_error_counter_run s :
  reset_error_counter s =
  (tt,
   mk_state (frameCount s) (if 1000 <? errorCount s then 0 else errorCount s)
     (cameraInitialized s) (bitmapBuffer s) (sys_calls s) (init_calls s)
     (fb_calls s),
   if 1000 <? errorCount s
   then [ESerialPrintln "Resetting error counter..."] else []).
Proof.
  unfold reset_error_counter, bind, get_state.
  destruct s as [fc ec ci bb sc ic fbc]. cbn.
  destruct (1000 <? ec); reflexivity.
Qed.

Lemma loop_run env s :
  loop env s =
  (tt, state_of (reset_error_counter (state_of (loop_until_yield env s))),
   events_of (loop_until_yield env s) ++
   events_of (reset_error_counter (state_of (loop_until_yield env s)))).
Proof.
  unfold loop, bind.
  destruct (loop_until_yield env s) as [[ok s1] ev1].
  unfold state_of, events_of. cbn [fst snd].
  destruct (reset_error_counter s1) as [[[] s2] ev2]. reflexivity.
Qed.

(** C5: at the end of every loop iteration errorCount is reset to 0 exactly
    when it exceeds 1000; it is never reset when it is at most 1000, and the
    reset leaves frameCount unchanged. *)
Theorem loop_resets_error_counter env s :
  let before := loop_until_yield env s in
  let after := loop env s in
  let e := errorCount (state_of before) in
  frameCount (state_of after) = frameCount (state_of before) /\
  errorCount (state_of after) = (if 1000 <? e then 0 else e) /\
  events_of after =
    events_of before ++
    (if 1000 <? e then [ESerialPrintln "Resetting error counter..."] else []) /\
  (errorCount (state_of after) = 0 /\ events_of after <> events_of before
   <-> e > 1000).
Proof.
  intros before after e. subst before after e.
  rewrite loop_run.
  destruct (loop_until_yield env s) as [[ok s1] ev1].
  unfold state_of, events_of. cbn [fst snd].
  rewrite reset_error_counter_run. cbn [fst snd frameCount errorCount].
  destruct (Z.ltb_spec 1000 (errorCount s1)) as [Hgt|Hle].
  - split; [reflexivity|]. split; [reflexivity|]. split; [reflexivity|].
    split; [lia|]. intros _. split; [reflexivity|].
    intros Heq. apply (f_equal length) in Heq.
    rewrite length_app in Heq. simpl in Heq. lia.
  - rewrite app_nil_r. split; [reflexivity|]. split; [reflexivity|].
    split; [reflexivity|]. split; [|lia].
    intros [_ Hne]. congruence.
Qed.

(** ** Running the monad *)

Lemma bind_run {A B} (m : M A) (k : A -> M B) s a s1 e1 :
  m s = (a, s1, e1) ->
  bind m k s =
  (result_of (k a s1), state_of (k a s1), e1 ++ events_of (k a s1)).
Proof.
  intros Hm. unfold bind. rewrite Hm.
  destruct (k a s1) as [[b s2] e2]. reflexivity.
Qed.

Lemma run_eta {A} (r : A * State * list Event) :
  r = (result_of r, state_of r, events_of r).
Proof. destruct r as [[a s] e]. reflexivity. Qed.

Lemma events_of_bind {A B} (m : M A) (k : A -> M B) s :
  events_of (bind m k s) =
  events_of (m s) ++ events_of (k (result_of (m s)) (state_of (m s))).
Proof. rewrite (bind_run m k s _ _ _ (run_eta (m s))). reflexivity. Qed.

Lemma state_of_bind {A B} (m : M A) (k : A -> M B) s :
  state_of (bind m k s) = state_of (k (result_of (m s)) (state_of (m s))).
Proof. rewrite (bind_run m k s _ _ _ (run_eta (m s))). reflexivity. Qed.

Lemma result_of_bind {A B} (m : M A) (k : A -> M B) s :
  result_of (bind m k s) = result_of (k (result_of (m s)) (state_of (m s))).
Proof. rewrite (bind_run m k s _ _ _ (run_eta (m s))). reflexivity. Qed.

(** Projections of a run that is already a triple. *)
Ltac proj_run :=
  repeat match goal with
    | |- context [events_of (?a, ?s, ?e)] => change (events_of (a, s, e)) with e
    | |- context [state_of (?a, ?s, ?e)] => change (state_of (a, s, e)) with s
    | |- context [result_of (?a, ?s, ?e)] => change (result_of (a, s, e)) with a
    end.

Lemma control_trace_app e1 e2 :
  control_trace (e1 ++ e2) = control_trace e1 ++ control_trace e2.
Proof. apply List.filter_app. Qed.

Lemma with_sys_calls_twice s n m :
  with_sys_calls (with_sys_calls s n) m = with_sys_calls s m.
Proof. reflexivity. Qed.

Lemma with_sys_calls_same s : with_sys_calls s (sys_calls s) = s.
Proof. destruct s; reflexivity. Qed.

(** [printMemoryInfo] only queries the system and writes to the diagnostic
    channel. *)
Lemma printMemoryInfo_run env s :
  exists n evs,
    printMemoryInfo env s = (tt, with_sys_calls s n, evs) /\
    control_trace evs = [].
Proof.
  destruct s as [fc ec ci bb sc ic fbc].
  unfold printMemoryInfo, bind, sys, Serial_println, Serial_printf, emit,
    with_sys_calls. cbn.
  destruct (sys_value env QPsramFound (S (S sc)) =? 0); cbn;
    eexists _, _; split; reflexivity.
Qed.

Lemma report_init_error_run err s :
  exists evs, report_init_error err s = (tt, s, evs) /\ control_trace evs = [].
Proof.
  unfold report_init_error, Serial_println, Serial_printf, emit.
  destruct (err =? ESP_ERR_NO_MEM); [eexists; split; reflexivity|].
  destruct (err =? ESP_ERR_INVALID_ARG); [eexists; split; reflexivity|].
  destruct (err =? ESP_FAIL); eexists; split; reflexivity.
Qed.

Lemma apply_settings_run l s :
  exists evs, apply_settings l s = (tt, s, evs) /\ control_trace evs = [].
Proof.
  induction l as [|[name v] rest IH].
  - eexists. split; reflexivity.
  - destruct IH as (evs & Hrun & Hq). cbn [apply_settings].
    unfold bind, emit. rewrite Hrun. eexists. split; [reflexivity|].
    cbn. exact Hq.
Qed.

(** The retry loop, whatever the list of attempts: its result, its effect on
    the globals, and what it does to the devices. *)
Lemma initCamera_attempts_run env attempts :
  forall s,
  let results := esp_camera_init_result env in
  let k := init_calls s in
  let ok := attempts_ok results k attempts in
  exists n evs,
    initCamera_attempts env attempts s =
    (ok,
     mk_state (frameCount s) (errorCount s) (cameraInitialized s || ok)
       (bitmapBuffer s) n (k + attempts_made results k attempts)%nat
       (fb_calls s),
     evs) /\
    control_trace evs =
    attempts_trace results (esp_camera_sensor_present env) k attempts.
Proof.
  induction attempts as [|a rest IH]; intros s results k ok.
  - exists (sys_calls s), []. subst ok k. cbn.
    rewrite orb_false_r, Nat.add_0_r. destruct s; split; reflexivity.
  - subst ok k results. cbn [initCamera_attempts attempts_ok attempts_made attempts_trace].
    unfold Serial_printf at 1. unfold emit.
    rewrite (bind_run _ _ s tt s [ESerialPrintf "Camera init attempt %d/%d...\n" [a; MAX_RETRIES]] eq_refl).
    destruct (printMemoryInfo_run env s) as (n1 & ev1 & Hmem & Hq1).
    rewrite (bind_run _ _ _ _ _ _ Hmem). unfold control_trace in *.
    set (s1 := with_sys_calls s n1).
    set (err := esp_camera_init_result env (init_calls s)).
    assert (Hinit : esp_camera_init env camera_config s1 =
              (err, mk_state (frameCount s) (errorCount s) (cameraInitialized s)
                      (bitmapBuffer s) n1 (S (init_calls s)) (fb_calls s),
               [ECameraInit camera_config err])) by reflexivity.
    rewrite (bind_run _ _ _ _ _ _ Hinit).
    set (s2 := mk_state _ _ _ _ n1 _ _).
    destruct (err =? ESP_OK) eqn:Herr.
    + (* success *)
      subst s2 s1.
      unfold Serial_println, Serial_printf, emit, esp_camera_sensor_get,
        set_cameraInitialized, bind.
      destruct (esp_camera_sensor_present env); cbn;
        rewrite orb_true_r, Nat.add_1_r;
        eexists _, _; (split; [reflexivity|]);
        cbn; rewrite ?List.filter_app, Hq1; reflexivity.
    + (* failure *)
      cbn [result_of state_of events_of fst snd].
      destruct (report_init_error_run err s2) as (ev3 & Herrmsg & Hq3).
      destruct (IH s2) as (n4 & ev4 & Hrec & Hq4).
      cbn [init_calls frameCount errorCount cameraInitialized bitmapBuffer fb_calls] in Hrec, Hq4.
      unfold control_trace in *.
      unfold Serial_printf, delay, esp_camera_deinit, emit, bind, ret.
      rewrite Herrmsg.
      destruct (a <? MAX_RETRIES); cbv beta iota; rewrite Hrec; cbn;
        rewrite <- Nat.add_succ_comm;
        eexists _, _; (split; [reflexivity|]);
        cbn; rewrite ?List.filter_app, Hq1; cbn;
        rewrite ?List.filter_app, Hq3; cbn; rewrite ?Hq4; reflexivity.
Qed.

(** ** Calm computations *)

Lemma count_events_app p e1 e2 :
  count_events p (e1 ++ e2) = (count_events p e1 + count_events p e2)%nat.
Proof. unfold count_events. rewrite List.filter_app, length_app. reflexivity. Qed.

Lemma count_events_none p q evs :
  (forall e, p e = true -> q e = false) ->
  forallb p evs = true -> count_events q evs = 0%nat.
Proof.
  intros Hpq. induction evs as [|e rest IH]; [reflexivity|].
  cbn [forallb]. intros H. apply andb_true_iff in H as [He Hrest].
  unfold count_events in *. cbn [List.filter]. rewrite (Hpq e He). auto.
Qed.

Lemma forallb_weaken (p q : Event -> bool) evs :
  (forall e, p e = true -> q e = true) ->
  forallb p evs = true -> forallb q evs = true.
Proof.
  intros Hpq. rewrite !forallb_forall. intros H e He. auto.
Qed.

Lemma calm_ret {A} p (a : A) : calm p (ret a).
Proof.
  intros s. exists a, (sys_calls s), [].
  rewrite with_sys_calls_same. split; reflexivity.
Qed.

Lemma calm_emit p e : p e = true -> calm p (emit e).
Proof.
  intros He s. exists tt, (sys_calls s), [e].
  rewrite with_sys_calls_same. split; [reflexivity|]. cbn. rewrite He. reflexivity.
Qed.

Lemma calm_sys env p q : (forall v, p (ESys q v) = true) -> calm p (sys env q).
Proof.
  intros Hp s. eexists _, _, _. split; [reflexivity|]. cbn. rewrite Hp. reflexivity.
Qed.

Lemma calm_bind {A B} p (m : M A) (k : A -> M B) :
  calm p m -> (forall a, calm p (k a)) -> calm p (bind m k).
Proof.
  intros Hm Hk s.
  destruct (Hm s) as (a & n1 & e1 & Hrun1 & Hp1).
  destruct (Hk a (with_sys_calls s n1)) as (b & n2 & e2 & Hrun2 & Hp2).
  exists b, n2, (e1 ++ e2). split.
  - rewrite (bind_run _ _ _ _ _ _ Hrun1), Hrun2. reflexivity.
  - rewrite forallb_app, Hp1, Hp2. reflexivity.
Qed.

Lemma calm_weaken {A} (p q : Event -> bool) (m : M A) :
  (forall e, p e = true -> q e = true) -> calm p m -> calm q m.
Proof.
  intros Hpq Hm s. destruct (Hm s) as (a & n & evs & Hrun & Hp).
  exists a, n, evs. split; [exact Hrun|]. eapply forallb_weaken; eassumption.
Qed.

Lemma calm_for_each p l body :
  (forall i, calm p (body i)) -> calm p (for_each l body).
Proof.
  intros Hb. induction l as [|i rest IH]; cbn [for_each].
  - apply calm_ret.
  - apply calm_bind; [apply Hb|intros _; exact IH].
Qed.

(** A loop without exit that runs a calm body: whatever the fuel, it has
    made [fuel] turns, each of them emitting [c] events of the kind [q]. *)
Lemma forever_run p q c body :
  (forall s, exists n evs, body s = (tt, with_sys_calls s n, evs) /\
                           forallb p evs = true /\ count_events q evs = c) ->
  forall fuel s, exists n evs,
    forever fuel body s = (tt, with_sys_calls s n, evs) /\
    forallb p evs = true /\ count_events q evs = (fuel * c)%nat.
Proof.
  intros Hbody. induction fuel as [|fuel IH]; intros s; cbn [forever].
  - exists (sys_calls s), []. rewrite with_sys_calls_same.
    repeat split.
  - destruct (Hbody s) as (n1 & e1 & Hrun1 & Hp1 & Hc1).
    destruct (IH (with_sys_calls s n1)) as (n2 & e2 & Hrun2 & Hp2 & Hc2).
    exists n2, (e1 ++ e2). split; [|split].
    + rewrite (bind_run _ _ _ _ _ _ Hrun1), Hrun2. reflexivity.
    + rewrite forallb_app, Hp1, Hp2. reflexivity.
    + rewrite count_events_app, Hc1, Hc2. reflexivity.
Qed.

Ltac calm_step :=
  lazymatch goal with
  | |- calm _ (bind _ _) => apply calm_bind; [|intros ?]
  | |- calm _ (ret _) => apply calm_ret
  | |- calm _ (emit _) => apply calm_emit; reflexivity
  | |- calm _ (sys _ _) => apply calm_sys; intros ?; reflexivity
  | |- calm _ (for_each _ _) => apply calm_for_each; intros ?
  | |- calm _ (if ?c then _ else _) => destruct c
  | |- calm _ (get_state) => intros ?s; eexists _, _, _;
        rewrite with_sys_calls_same; split; reflexivity
  end.

Ltac calm_auto :=
  unfold Serial_println, Serial_printf, delay, yield, esp_camera_deinit;
  repeat calm_step.

Lemma calm_printMemoryInfo env : calm passive (printMemoryInfo env).
Proof. unfold printMemoryInfo. calm_auto. Qed.

Lemma calm_displayStatus env msg stats : calm passive (displayStatus env msg stats).
Proof. unfold displayStatus. calm_auto. Qed.

Lemma calm_testOLED : calm passive testOLED.
Proof. unfold testOLED. calm_auto. Qed.

Lemma calm_display_ready env : calm passive (display_ready env).
Proof.
  unfold display_ready.
  pose proof calm_testOLED. pose proof (calm_displayStatus env).
  calm_auto; auto.
Qed.

Lemma calm_announce_ready env : calm passive (announce_ready env).
Proof.
  unfold announce_ready. pose proof (calm_displayStatus env). calm_auto; auto.
Qed.

(** ** [initCamera] and [setup] as a whole *)

Lemma initCamera_run env s :
  exists n evs,
    initCamera env s = (init_ok env s, after_init env s n, evs) /\
    control_trace evs =
    power_cycle_trace ++
    attempts_trace (esp_camera_init_result env) (esp_camera_sensor_present env)
      (init_calls s) (seqZ 1 MAX_RETRIES).
Proof.
  unfold initCamera, after_init, init_ok, init_made.
  destruct (printMemoryInfo_run env s) as (n1 & ev1 & Hmem & Hq1).
  destruct (initCamera_attempts_run env (seqZ 1 MAX_RETRIES) (with_sys_calls s n1))
    as (n2 & ev2 & Hatt & Hq2).
  cbn [with_sys_calls init_calls frameCount errorCount cameraInitialized
       bitmapBuffer fb_calls] in Hatt, Hq2.
  unfold control_trace in *.
  unfold Serial_println, Serial_printf, power_cycle, delay, emit, bind, ret.
  rewrite Hmem. cbv beta iota.
  change (mk_state (frameCount s) (errorCount s) (cameraInitialized s)
            (bitmapBuffer s) n1 (init_calls s) (fb_calls s))
    with (with_sys_calls s n1) in Hatt.
  rewrite Hatt.
  destruct (attempts_ok (esp_camera_init_result env) (init_calls s)
              (seqZ 1 MAX_RETRIES));
    eexists _, _; (split; [reflexivity|]);
    cbn; rewrite ?List.filter_app, Hq1; cbn; rewrite ?List.filter_app, Hq2;
    cbn; rewrite ?app_nil_r; reflexivity.
Qed.

Lemma halt_display_run fuel s :
  exists n evs,
    halt_display fuel s = (tt, with_sys_calls s n, evs) /\
    forallb passive evs = true /\
    count_events is_halt_message evs = fuel.
Proof.
  destruct (forever_run passive is_halt_message 1
              (delay 5000 ;; Serial_println "OLED init failed - system halted")%sketch)
    with (fuel := fuel) (s := s) as (n & evs & Hrun & Hp & Hc).
  { intros s0. exists (sys_calls s0). eexists.
    rewrite with_sys_calls_same. repeat split. }
  unfold halt_display, Serial_println, Serial_printf, delay, emit, bind in Hrun |- *.
  rewrite Hrun. exists n. eexists. split; [reflexivity|]. split.
  - cbn. exact Hp.
  - rewrite Nat.mul_1_r in Hc. cbn. exact Hc.
Qed.

Lemma defect_screen_run env s :
  exists n evs,
    (delay 10000 ;;
     displayStatus env "Hardware DEFECT!\nPSRAM faulty\nTry different module" true ;;
     delay 10000)%sketch s = (tt, with_sys_calls s n, evs) /\
    forallb passive evs = true /\ count_events is_defect_screen evs = 1%nat.
Proof.
  destruct s as [fc ec ci bb sc ic fbc].
  eexists _, _. split; [reflexivity|]. split; reflexivity.
Qed.

Lemma halt_camera_run env fuel s :
  exists n evs,
    halt_camera env fuel s = (tt, with_sys_calls s n, evs) /\
    forallb passive evs = true /\
    count_events is_defect_screen evs = fuel.
Proof.
  destruct (forever_run passive is_defect_screen 1 _ (defect_screen_run env))
    with (fuel := fuel) (s := s) as (n & evs & Hrun & Hp & Hc).
  unfold halt_camera, displayStatus, Serial_println, Serial_printf, delay, emit,
    bind, ret in Hrun |- *.
  cbv beta iota in Hrun |- *.
  rewrite Hrun. exists n. eexists. split; [reflexivity|]. split.
  - cbn. exact Hp.
  - rewrite Nat.mul_1_r in Hc. cbn. exact Hc.
Qed.

(** [setup] down to [display.begin]: the probe is made once, its failure is
    reported, and the driver init is called once whatever the probe says. *)
Lemma setup_display_run env s :
  exists n evs,
    setup_display env s = (display_begin_ok env, with_sys_calls s n, evs) /\
    forallb off_camera evs = true /\
    count_events is_display_begin evs = 1%nat /\
    count_events is_halt_message evs = 0%nat /\
    last evs = Some (EDisplayBegin OLED_ADDR (display_begin_ok env)) /\
    (wire_endTransmission_status env <> 0 ->
     In (ESerialPrintf "No I2C device found at address 0x%02X\n" [OLED_ADDR]) evs).
Proof.
  destruct s as [fc ec ci bb sc ic fbc].
  unfold setup_display, printMemoryInfo, probe_oled, Wire_endTransmission,
    display_begin, sys, Serial_println, Serial_printf, delay, emit, bind, ret.
  cbn.
  destruct (sys_value env QPsramFound (S (S sc)) =? 0);
    destruct (Z.eqb_spec (wire_endTransmission_status env) 0) as [Hw|Hw]; cbn;
    eexists _, _; (split; [reflexivity|]);
    (split; [reflexivity|]); (split; [reflexivity|]);
    (split; [reflexivity|]); (split; [reflexivity|]);
    intros Hne; try contradiction;
    cbn; tauto.
Qed.

(** ** Observations commute with the projection on device activity *)

Lemma count_control p evs :
  (forall e, p e = true -> is_control e = true) ->
  count_events p (control_trace evs) = count_events p evs.
Proof.
  intros Hp. unfold count_events, control_trace.
  induction evs as [|e rest IH]; [reflexivity|].
  cbn [List.filter]. destruct (is_control e) eqn:Hc.
  - cbn [List.filter]. destruct (p e); cbn [length]; rewrite IH; reflexivity.
  - destruct (p e) eqn:Hpe; [|exact IH].
    rewrite (Hp e Hpe) in Hc. discriminate.
Qed.

Lemma delay_until_init_control evs :
  delay_until_init (control_trace evs) = delay_until_init evs.
Proof.
  unfold control_trace. induction evs as [|e rest IH]; [reflexivity|].
  destruct e; cbn; rewrite ?IH; reflexivity.
Qed.

Lemma delays_after_init_control evs :
  delays_after_init (control_trace evs) = delays_after_init evs.
Proof.
  unfold control_trace. induction evs as [|e rest IH]; [reflexivity|].
  pose proof (delay_until_init_control rest) as Hd. unfold control_trace in Hd.
  destruct e; cbn; rewrite ?IH, ?Hd; reflexivity.
Qed.

(** ** The retry loop, from the answers of the sensor driver *)

Lemma attempts_trace_count r p k l :
  count_events is_camera_init (attempts_trace r p k l) = attempts_made r k l.
Proof.
  revert k. induction l as [|a rest IH]; intros k; [reflexivity|].
  cbn [attempts_trace attempts_made].
  change (ECameraInit camera_config (r k) :: ?t)
    with ([ECameraInit camera_config (r k)] ++ t).
  rewrite count_events_app.
  destruct (r k =? ESP_OK); [reflexivity|].
  rewrite count_events_app, IH.
  destruct (a <? MAX_RETRIES); reflexivity.
Qed.

(** The retry loop never acquires a frame, never drives the power-down line
    and never starts the display driver. *)
Lemma attempts_trace_quiet r p k l :
  forallb (fun e => negb (is_fb_get e) && negb (is_pwdn_write e) &&
                    negb (is_display_begin e))
    (attempts_trace r p k l) = true.
Proof.
  revert k. induction l as [|a rest IH]; intros k; [reflexivity|].
  cbn [attempts_trace forallb]. cbn [is_fb_get is_pwdn_write is_display_begin negb andb].
  destruct (r k =? ESP_OK); [reflexivity|].
  rewrite forallb_app, IH. destruct (a <? MAX_RETRIES); reflexivity.
Qed.

Lemma attempts_made_le r k l : (attempts_made r k l <= length l)%nat.
Proof.
  revert k. induction l as [|a rest IH]; intros k; cbn; [lia|].
  destruct (r k =? ESP_OK); [lia|]. specialize (IH (S k)). lia.
Qed.

Lemma attempts_all_fail r k l :
  (forall i, (i < length l)%nat -> r (k + i)%nat <> ESP_OK) ->
  attempts_ok r k l = false /\ attempts_made r k l = length l.
Proof.
  revert k. induction l as [|a rest IH]; intros k Hall; [split; reflexivity|].
  cbn [attempts_ok attempts_made length].
  assert (H0 : r k <> ESP_OK).
  { specialize (Hall 0%nat). rewrite Nat.add_0_r in Hall. apply Hall. cbn. lia. }
  apply Z.eqb_neq in H0. rewrite H0.
  destruct (IH (S k)) as [Hok Hmade].
  { intros i Hi. rewrite Nat.add_succ_comm. apply Hall. cbn. lia. }
  rewrite Hok, Hmade. split; reflexivity.
Qed.

Lemma attempts_first_success r k l j :
  (j < length l)%nat ->
  (forall i, (i < j)%nat -> r (k + i)%nat <> ESP_OK) ->
  r (k + j)%nat = ESP_OK ->
  attempts_ok r k l = true /\ attempts_made r k l = S j.
Proof.
  revert k j. induction l as [|a rest IH]; intros k j Hj Hbefore Hok;
    [cbn in Hj; lia|].
  cbn [attempts_ok attempts_made].
  destruct j as [|j].
  - rewrite Nat.add_0_r in Hok. rewrite Hok. split; reflexivity.
  - assert (H0 : r k <> ESP_OK).
    { specialize (Hbefore 0%nat). rewrite Nat.add_0_r in Hbefore.
      apply Hbefore. lia. }
    apply Z.eqb_neq in H0. rewrite H0.
    destruct (IH (S k) j) as [Hok' Hmade].
    + cbn in Hj. lia.
    + intros i Hi. rewrite Nat.add_succ_comm. apply Hbefore. lia.
    + rewrite Nat.add_succ_comm. exact Hok.
    + rewrite Hok', Hmade. split; reflexivity.
Qed.

Lemma seq_retries : seqZ 1 MAX_RETRIES = [1; 2; 3; 4; 5].
Proof. reflexivity. Qed.

Ltac split_results :=
  repeat match goal with
         | |- context [Z.eqb (?r ?k) ESP_OK] =>
             destruct (Z.eqb (r k) ESP_OK) eqn:?; cbn
         end.

(** The back-off of the retry loop of [initCamera]: after the failed attempt
    number [a] and before the next one the sketch waits [a * 1000 + 500]
    milliseconds. *)
Lemma retry_backoff r p k :
  removelast
    (delays_after_init (power_cycle_trace ++ attempts_trace r p k [1; 2; 3; 4; 5])) =
  map (fun a => a * 1000 + 500)
    (seqZ 1 (Z.of_nat (attempts_made r k [1; 2; 3; 4; 5]) - 1)).
Proof. cbn. split_results; reflexivity. Qed.

(** Cutting the device trace of [initCamera] at the configuration requests:
    the power cycle sits in the first piece, and no later piece drives the
    power-down line. *)
Lemma retry_segments r p k :
  exists first rest,
    attempt_segments (power_cycle_trace ++ attempts_trace r p k [1; 2; 3; 4; 5]) =
    first :: rest /\
    has_power_cycle first = true /\
    last first = Some (ECameraInit camera_config (r k)) /\
    forallb (fun seg => (count_events is_pwdn_write seg =? 0)%nat) rest = true.
Proof.
  cbn. split_results; eexists _, _; (split; [reflexivity|]);
    repeat split; reflexivity.
Qed.

Lemma off_camera_no_camera e : off_camera e = true -> is_camera_event e = false.
Proof. unfold off_camera. destruct (is_camera_event e); [discriminate|reflexivity]. Qed.

Lemma passive_off_camera e : passive e = true -> off_camera e = true.
Proof.
  unfold passive, off_camera.
  destruct (is_camera_event e), (is_pwdn_write e), (is_display_begin e);
    cbn; congruence.
Qed.

(** A failed [display.begin] ends [setup] in the halt loop, before anything
    is asked of the camera. *)
Lemma setup_display_failed env fuel s :
  display_begin_ok env = false ->
  exists n evs,
    setup env fuel s = (HaltedDisplay, with_sys_calls s n, evs) /\
    forallb off_camera evs = true /\
    count_events is_display_begin evs = 1%nat /\
    count_events is_halt_message evs = fuel /\
    (wire_endTransmission_status env <> 0 ->
     In (ESerialPrintf "No I2C device found at address 0x%02X\n" [OLED_ADDR]) evs).
Proof.
  intros Hfail.
  destruct (setup_display_run env s)
    as (n1 & ev1 & Hrun1 & Hp1 & Hc1 & Hh1 & _ & Hmsg).
  destruct (halt_display_run fuel (with_sys_calls s n1))
    as (n2 & ev2 & Hrun2 & Hp2 & Hc2).
  rewrite Hfail in Hrun1.
  exists n2, (ev1 ++ ev2 ++ []). split; [|split; [|split; [|split]]].
  - unfold setup. rewrite (bind_run _ _ _ _ _ _ Hrun1). cbn [negb].
    rewrite (bind_run _ _ _ _ _ _ Hrun2). reflexivity.
  - rewrite app_nil_r, forallb_app, Hp1. cbn [andb].
    eapply forallb_weaken; [apply passive_off_camera|exact Hp2].
  - rewrite app_nil_r, count_events_app, Hc1.
    rewrite (count_events_none passive is_display_begin ev2); [reflexivity| |exact Hp2].
    intros e. unfold passive.
    destruct (is_display_begin e); [|reflexivity].
    rewrite andb_false_r. discriminate.
  - rewrite app_nil_r, count_events_app, Hh1, Hc2. reflexivity.
  - intros Hw. apply in_or_app. left. exact (Hmsg Hw).
Qed.

(** With a working display, [setup] goes on to [initCamera], and its end is
    decided by the camera alone. *)
Lemma setup_display_ok env fuel s :
  display_begin_ok env = true ->
  exists n pre cam post,
    setup env fuel s =
    (if init_ok env s then SetupReturned else HaltedCamera,
     after_init env s n, pre ++ cam ++ post) /\
    forallb off_camera pre = true /\
    count_events is_display_begin pre = 1%nat /\
    (wire_endTransmission_status env <> 0 ->
     In (ESerialPrintf "No I2C device found at address 0x%02X\n" [OLED_ADDR]) pre) /\
    control_trace cam =
      power_cycle_trace ++
      attempts_trace (esp_camera_init_result env)
        (esp_camera_sensor_present env) (init_calls s) (seqZ 1 MAX_RETRIES) /\
    forallb passive post = true.
Proof.
  intros Hok.
  destruct (setup_display_run env s)
    as (n1 & ev1 & Hrun1 & Hp1 & Hc1 & _ & _ & Hmsg).
  rewrite Hok in Hrun1.
  assert (Hc2 : forall ev2, forallb passive ev2 = true ->
                count_events is_display_begin (ev1 ++ ev2) = 1%nat).
  { intros ev2 Hp2. rewrite count_events_app, Hc1.
    rewrite (count_events_none passive is_display_begin ev2); [reflexivity| |exact Hp2].
    intros e. unfold passive. destruct (is_display_begin e); [|reflexivity].
    rewrite andb_false_r. discriminate. }
  destruct (calm_display_ready env (with_sys_calls s n1))
    as ([] & n2 & ev2 & Hrun2 & Hp2).
  rewrite with_sys_calls_twice in Hrun2.
  destruct (initCamera_run env (with_sys_calls s n2)) as (n3 & ev3 & Hrun3 & Hq3).
  change (init_ok env (with_sys_calls s n2)) with (init_ok env s) in Hrun3.
  change (after_init env (with_sys_calls s n2) n3) with (after_init env s n3) in Hrun3.
  change (init_calls (with_sys_calls s n2)) with (init_calls s) in Hq3.
  unfold setup. rewrite (bind_run _ _ _ _ _ _ Hrun1). cbn [negb].
  rewrite (bind_run _ _ _ _ _ _ Hrun2).
  rewrite (bind_run _ _ _ _ _ _ Hrun3).
  destruct (init_ok env s) eqn:Hcam; cbn [negb].
  - destruct (calm_announce_ready env (after_init env s n3))
      as ([] & n4 & ev4 & Hrun4 & Hp4).
    rewrite (bind_run _ _ _ _ _ _ Hrun4).
    exists n4, (ev1 ++ ev2), ev3, (ev4 ++ []).
    split; [|split; [|split; [|split; [|split]]]].
    + cbn [result_of state_of events_of fst snd ret].
      rewrite <- !app_assoc. reflexivity.
    + rewrite forallb_app, Hp1. cbn [andb].
      eapply forallb_weaken; [apply passive_off_camera|exact Hp2].
    + apply Hc2. exact Hp2.
    + intros Hw. apply in_or_app. left. exact (Hmsg Hw).
    + exact Hq3.
    + rewrite app_nil_r. exact Hp4.
  - destruct (halt_camera_run env fuel (after_init env s n3))
      as (n4 & ev4 & Hrun4 & Hp4 & _).
    rewrite (bind_run _ _ _ _ _ _ Hrun4).
    exists n4, (ev1 ++ ev2), ev3, (ev4 ++ []).
    split; [|split; [|split; [|split; [|split]]]].
    + cbn [result_of state_of events_of fst snd ret].
      rewrite <- !app_assoc. reflexivity.
    + rewrite forallb_app, Hp1. cbn [andb].
      eapply forallb_weaken; [apply passive_off_camera|exact Hp2].
    + apply Hc2. exact Hp2.
    + intros Hw. apply in_or_app. left. exact (Hmsg Hw).
    + exact Hq3.
    + rewrite app_nil_r. exact Hp4.
Qed.

(** ** What a run of [initCamera] shows *)

Lemma control_init e : is_camera_init e = true -> is_control e = true.
Proof. destruct e; cbn; congruence. Qed.

Lemma control_fb_get e : is_fb_get e = true -> is_control e = true.
Proof. destruct e; cbn; congruence. Qed.

Lemma control_pwdn e : is_pwdn_write e = true -> is_control e = true.
Proof. destruct e; cbn; congruence. Qed.

Lemma attempts_trace_no_fb_get r p k l :
  count_events is_fb_get (attempts_trace r p k l) = 0%nat.
Proof.
  eapply count_events_none; [|apply attempts_trace_quiet].
  intros e He. cbn beta in He.
  destruct (is_fb_get e); [discriminate He|reflexivity].
Qed.

Lemma attempts_trace_no_pwdn r p k l :
  count_events is_pwdn_write (attempts_trace r p k l) = 0%nat.
Proof.
  eapply count_events_none; [|apply attempts_trace_quiet].
  intros e He. cbn beta in He.
  destruct (is_pwdn_write e); [|reflexivity].
  rewrite andb_false_r in He. discriminate He.
Qed.

Lemma initCamera_observed env s :
  let r := initCamera env s in
  result_of r = init_ok env s /\
  cameraInitialized (state_of r) = cameraInitialized s || init_ok env s /\
  init_calls (state_of r) = (init_calls s + init_made env s)%nat /\
  frameCount (state_of r) = frameCount s /\
  errorCount (state_of r) = errorCount s /\
  count_events is_camera_init (events_of r) = init_made env s /\
  count_events is_fb_get (events_of r) = 0%nat /\
  count_events is_pwdn_write (events_of r) = 2%nat /\
  removelast (delays_after_init (events_of r)) =
    map (fun a => a * 1000 + 500) (seqZ 1 (Z.of_nat (init_made env s) - 1)).
Proof.
  intros r. subst r.
  destruct (initCamera_run env s) as (n & evs & Hrun & Hq).
  rewrite Hrun. unfold result_of, state_of, events_of. cbn [fst snd].
  repeat (split; [reflexivity|]).
  rewrite <- (count_control is_camera_init evs control_init).
  rewrite <- (count_control is_fb_get evs control_fb_get).
  rewrite <- (count_control is_pwdn_write evs control_pwdn).
  rewrite <- (delays_after_init_control evs).
  rewrite Hq. rewrite !count_events_app, attempts_trace_count.
  split; [reflexivity|]. split; [|split].
  - rewrite attempts_trace_no_fb_get. reflexivity.
  - rewrite attempts_trace_no_pwdn. reflexivity.
  - unfold init_made. rewrite seq_retries. apply retry_backoff.
Qed.

Lemma init_made_bounds env s : (1 <= init_made env s <= 5)%nat.
Proof.
  unfold init_made. split.
  - rewrite seq_retries. cbn. destruct (_ =? ESP_OK); lia.
  - pose proof (attempts_made_le (esp_camera_init_result env) (init_calls s)
                  (seqZ 1 MAX_RETRIES)) as H.
    rewrite seq_retries in *. cbn [length] in H. exact H.
Qed.

(** With a working display, what the whole of [setup] asks of the camera is
    what [initCamera] asks, and a failed [initCamera] holds the sketch in the
    second halt loop. *)
Lemma setup_camera_observed env fuel s :
  display_begin_ok env = true ->
  let up := setup env fuel s in
  result_of up = (if init_ok env s then SetupReturned else HaltedCamera) /\
  cameraInitialized (state_of up) = cameraInitialized s || init_ok env s /\
  count_events is_camera_init (events_of up) = init_made env s /\
  count_events is_fb_get (events_of up) = 0%nat.
Proof.
  intros Hok up. subst up.
  destruct (setup_display_ok env fuel s Hok)
    as (n & pre & cam & post & Hrun & Hpre & _ & _ & Hcam & Hpost).
  rewrite Hrun. unfold result_of, state_of, events_of. cbn [fst snd].
  split; [reflexivity|]. split; [reflexivity|].
  rewrite !count_events_app.
  rewrite <- (count_control is_camera_init cam control_init).
  rewrite <- (count_control is_fb_get cam control_fb_get).
  rewrite Hcam, !count_events_app, attempts_trace_count.
  assert (Hoff : forall q, (forall e, is_camera_event e = false -> q e = false) ->
            count_events q pre = 0%nat /\ count_events q post = 0%nat).
  { intros q Hq. split.
    - apply (count_events_none off_camera); [|exact Hpre].
      intros e He. apply Hq, off_camera_no_camera, He.
    - apply (count_events_none off_camera);
        [|eapply forallb_weaken; [apply passive_off_camera|exact Hpost]].
      intros e He. apply Hq, off_camera_no_camera, He. }
  destruct (Hoff is_camera_init) as [-> ->]; [intros []; cbn; congruence|].
  destruct (Hoff is_fb_get) as [-> ->]; [intros []; cbn; congruence|].
  split.
  - unfold init_made. cbn. lia.
  - rewrite attempts_trace_no_fb_get. reflexivity.
Qed.

Lemma control_display_begin e : is_display_begin e = true -> is_control e = true.
Proof. destruct e; cbn; congruence. Qed.

Lemma attempts_trace_no_display_begin r p k l :
  count_events is_display_begin (attempts_trace r p k l) = 0%nat.
Proof.
  eapply count_events_none; [|apply attempts_trace_quiet].
  intros e He. cbn beta in He.
  destruct (is_display_begin e); [|reflexivity].
  rewrite andb_false_r in He. discriminate He.
Qed.

(** Whatever the probe answered, [setup] calls the driver init of the
    display exactly once, and a probe that failed is reported. *)
Lemma setup_probe_observed env fuel s :
  let up := setup env fuel s in
  count_events is_display_begin (events_of up) = 1%nat /\
  (wire_endTransmission_status env <> 0 ->
   In (ESerialPrintf "No I2C device found at address 0x%02X\n" [OLED_ADDR])
      (events_of up)).
Proof.
  intros up. subst up. destruct (display_begin_ok env) eqn:Hok.
  - destruct (setup_display_ok env fuel s Hok)
      as (n & pre & cam & post & Hrun & _ & Hbegin & Hmsg & Hcam & Hpost).
    rewrite Hrun. unfold events_of. cbn [snd]. split.
    + rewrite !count_events_app, Hbegin.
      rewrite <- (count_control is_display_begin cam control_display_begin).
      rewrite Hcam, count_events_app, attempts_trace_no_display_begin.
      rewrite (count_events_none passive is_display_begin post);
        [reflexivity| |exact Hpost].
      intros e. unfold passive. destruct (is_display_begin e); [|reflexivity].
      rewrite andb_false_r. discriminate.
    + intros Hw. apply in_or_app. left. exact (Hmsg Hw).
  - destruct (setup_display_failed env fuel s Hok)
      as (n & evs & Hrun & _ & Hbegin & _ & Hmsg).
    rewrite Hrun. unfold events_of. cbn [snd]. split; assumption.
Qed.

Lemma arduino_main_halted env fuel iterations s :
  result_of (setup env fuel s) <> SetupReturned ->
  result_of (arduino_main env fuel iterations s) = result_of (setup env fuel s) /\
  state_of (arduino_main env fuel iterations s) = state_of (setup env fuel s) /\
  events_of (arduino_main env fuel iterations s) = events_of (setup env fuel s).
Proof.
  intros Hhalt. unfold arduino_main.
  rewrite (bind_run _ _ _ _ _ _ (run_eta (setup env fuel s))).
  destruct (result_of (setup env fuel s)); [contradiction| |];
    unfold result_of, state_of, events_of; cbn [fst snd ret];
    rewrite app_nil_r; repeat split.
Qed.




(** C8 (as amended): a failed driver initialization of the display is fatal
    with zero retries: the driver init is called once, the sketch stays in
    the halt loop (one diagnostic line per turn, for as many turns as are
    observed) and nothing is ever asked of the camera.  A failed presence
    probe alone is not fatal: it is reported on the diagnostic channel, the
    driver init is called all the same, and when the driver init succeeds
    setup goes on to camera initialization. *)
Theorem display_failure_is_fatal env s fuel iterations :
  let up := setup env fuel s in
  count_events is_display_begin (events_of up) = 1%nat /\
  (wire_endTransmission_status env <> 0 ->
   In (ESerialPrintf "No I2C device found at address 0x%02X\n" [OLED_ADDR])
      (events_of up)) /\
  (display_begin_ok env = false ->
   let run := arduino_main env fuel iterations s in
   result_of run = HaltedDisplay /\
   count_events is_display_begin (events_of run) = 1%nat /\
   count_events is_halt_message (events_of run) = fuel /\
   count_events is_camera_event (events_of run) = 0%nat) /\
  (display_begin_ok env = true ->
   result_of up <> HaltedDisplay /\
   (1 <= count_events is_camera_init (events_of up))%nat).
Proof.
  intros up. subst up.
  destruct (setup_probe_observed env fuel s) as [Hbegin1 Hmsg].
  split; [exact Hbegin1|]. split; [exact Hmsg|]. split.
  - intros Hfail run. subst run.
    destruct (setup_display_failed env fuel s Hfail)
      as (n & evs & Hrun & Hoff & Hbegin & Hhalt & _).
    destruct (arduino_main_halted env fuel iterations s) as (-> & _ & ->);
      [rewrite Hrun; discriminate|].
    rewrite Hrun. unfold result_of, events_of. cbn [fst snd].
    split; [reflexivity|]. split; [exact Hbegin|]. split; [exact Hhalt|].
    apply (count_events_none off_camera); [|exact Hoff].
    apply off_camera_no_camera.
  - intros Hok.
    destruct (setup_camera_observed env fuel s Hok) as (Hr & _ & Hc & _).
    rewrite Hr, Hc. split.
    + destruct (init_ok env s); discriminate.
    + apply init_made_bounds.
Qed.

(** C8, the claim as stated, fails for the probe: with the probe not
    acknowledged and a display driver that starts, setup returns, the camera
    is initialized and the loop acquires frames. *)
Lemma probe_failure_is_not_fatal :
  let run := arduino_main Scenario.probe_nack 3 2 Scenario.boot in
  wire_endTransmission_status Scenario.probe_nack <> 0 /\
  In (ESerialPrintf "No I2C device found at address 0x%02X\n" [OLED_ADDR])
     (events_of run) /\
  result_of run = SetupReturned /\
  count_events is_camera_init (events_of run) = 1%nat /\
  count_events is_fb_get (events_of run) = 2%nat /\
  frameCount (state_of run) = 2.
Proof.
  vm_compute. split; [discriminate|]. split; [|repeat split].
  repeat (first [left; reflexivity | right]).
Qed.

(** ** The statistics report *)

Lemma reported_rate_app a b :
  reported_rate (a ++ b) =
  match reported_rate a with Some r => Some r | None => reported_rate b end.
Proof.
  induction a as [|e rest IH]; [reflexivity|].
  destruct e; cbn; try exact IH; reflexivity.
Qed.

Lemma stats_due_spec s :
  stats_due s = true <-> 0 < frameCount s /\ frameCount s mod 100 = 0.
Proof.
  unfold stats_due. rewrite andb_true_iff, Z.ltb_lt, Z.eqb_eq. tauto.
Qed.

Lemma report_stats_run env s :
  report_stats env s =
  (tt,
   (if stats_due s then with_sys_calls s (S (sys_calls s)) else s),
   (if stats_due s
    then [ESys QFreeHeap (sys_value env QFreeHeap (sys_calls s));
          ESerialStats (frameCount s) (errorCount s)
            (errorRate_expr (frameCount s) (errorCount s))
            (sys_value env QFreeHeap (sys_calls s))]
    else [])).
Proof.
  unfold report_stats, stats_due, bind, get_state.
  destruct ((0 <? frameCount s) && (frameCount s mod 100 =? 0)); reflexivity.
Qed.

Lemma processFrame_prints_no_rate env s :
  reported_rate (events_of (processFrame env s)) = None.
Proof.
  destruct (cameraInitialized s) eqn:Hinit.
  - destruct (next_frame_fails env s) eqn:Hf.
    + rewrite (processFrame_failed env s Hinit Hf).
      destruct (esp_camera_fb_get_result env (fb_calls s)); reflexivity.
    + unfold next_frame_fails in Hf.
      destruct (esp_camera_fb_get_result env (fb_calls s)) as [f|] eqn:Hfb;
        [|discriminate].
      rewrite (processFrame_succeeded env s f Hinit Hfb Hf). reflexivity.
  - unfold processFrame, bind, get_state. rewrite Hinit. reflexivity.
Qed.

Lemma pace_prints_no_rate env t s :
  reported_rate (events_of (pace env t s)) = None.
Proof.
  unfold pace, millis, sys, delay, emit, bind, ret. cbn.
  destruct (_ <? FRAME_DELAY_MS); reflexivity.
Qed.

Lemma loop_until_yield_rate env s :
  reported_rate (events_of (loop_until_yield env s)) =
  reported_rate (events_of (report_stats env (at_report env s))).
Proof.
  unfold loop_until_yield, at_report.
  rewrite events_of_bind, events_of_bind, events_of_bind, events_of_bind.
  set (s1 := state_of (processFrame env (state_of (millis env s)))).
  rewrite !reported_rate_app.
  replace (reported_rate (events_of (millis env s))) with (@None Float32.float)
    by reflexivity.
  rewrite processFrame_prints_no_rate.
  destruct (reported_rate (events_of (report_stats env s1))); [reflexivity|].
  rewrite pace_prints_no_rate. reflexivity.
Qed.

(** C4 (as amended): a loop iteration computes and reports the error rate
    only when, after the per-frame step, frameCount > 0 and frameCount is a
    multiple of 100.  The value reported is the single-precision value of
    (float)errorCount / (frameCount + errorCount) * 100: as long as the sum of
    the counters stays below 2^32 it is a finite float that equals
    100 * errorCount / (frameCount + errorCount) up to a relative rounding
    error of 2^-21 (and exactly 0 when errorCount is 0).  When both counters
    are 0 no rate is computed at all, and the expression itself would give
    NaN there, not 0. *)
Theorem error_rate_report env s :
  let at_stats := at_report env s in
  let f := frameCount at_stats in
  let e := errorCount at_stats in
  let reported := reported_rate (events_of (loop env s)) in
  (reported =
     if stats_due at_stats
     then Some (Float32.mul
                  (Float32.div (Float32.of_int e)
                               (Float32.of_int ((f + e) mod 2 ^ 32)))
                  (Float32.of_int 100))
     else None) /\
  (stats_due at_stats = true <-> 0 < f /\ f mod 100 = 0) /\
  (forall rate, reported = Some rate -> 0 <= e -> f + e < 2 ^ 32 ->
     let exact := (100 * inject_Z e / inject_Z (f + e))%Q in
     Float32.is_finite rate = true /\
     ((1 - (1 # 2097152)) * exact <= F2Q rate /\
      F2Q rate <= (1 + (1 # 2097152)) * exact)%Q /\
     (e = 0 -> rate = S754_zero false)) /\
  (f = 0 -> reported = None) /\
  errorRate_expr 0 0 = S754_nan.
Proof.
  intros at_stats f e reported.
  assert (Hrate : reported =
                  if stats_due at_stats then Some (errorRate_expr f e) else None).
  { unfold reported, loop. rewrite events_of_bind.
    rewrite reported_rate_app, loop_until_yield_rate.
    fold at_stats. rewrite report_stats_run.
    replace (events_of (tt, (if stats_due at_stats
                             then with_sys_calls at_stats (S (sys_calls at_stats))
                             else at_stats),
                        (if stats_due at_stats
                         then [ESys QFreeHeap (sys_value env QFreeHeap (sys_calls at_stats));
                               ESerialStats (frameCount at_stats) (errorCount at_stats)
                                 (errorRate_expr (frameCount at_stats) (errorCount at_stats))
                                 (sys_value env QFreeHeap (sys_calls at_stats))]
                         else [])))
      with (if stats_due at_stats
            then [ESys QFreeHeap (sys_value env QFreeHeap (sys_calls at_stats));
                  ESerialStats (frameCount at_stats) (errorCount at_stats)
                    (errorRate_expr (frameCount at_stats) (errorCount at_stats))
                    (sys_value env QFreeHeap (sys_calls at_stats))]
            else []) by reflexivity.
    destruct (stats_due at_stats); [reflexivity|].
    rewrite reset_error_counter_run.
    cbn [reported_rate]. unfold events_of. cbn [snd].
    destruct (1000 <? _); reflexivity. }
  split; [exact Hrate|]. split; [apply stats_due_spec|].
  split; [|split; [|reflexivity]].
  - intros rate Hsome He Hsum exact.
    rewrite Hrate in Hsome.
    destruct (stats_due at_stats) eqn:Hdue; [|discriminate].
    apply stats_due_spec in Hdue as [Hf _]. fold f in Hf.
    injection Hsome as <-.
    destruct (Z.eq_dec e 0) as [He0|He0].
    + assert (Hz : errorRate_expr f e = S754_zero false).
      { rewrite He0. apply errorRate_expr_zero. lia. }
      rewrite Hz. split; [reflexivity|]. split; [|reflexivity].
      subst exact. cbn [F2Q].
      assert (E : (100 * inject_Z e / inject_Z (f + e) == 0)%Q).
      { rewrite He0. change (inject_Z 0) with 0%Q. unfold Qdiv. ring. }
      rewrite E. split; apply Qle_lteq; right; ring.
    + destruct (errorRate_expr_accuracy f e) as (m & ex & Hval & Hlo & Hhi);
        try lia.
      rewrite Hval. split; [reflexivity|]. split; [split; assumption|].
      intros; contradiction.
  - intros Hf. rewrite Hrate.
    destruct (stats_due at_stats) eqn:Hdue; [|reflexivity].
    apply stats_due_spec in Hdue. fold f in Hdue. lia.
Qed.


(** ** Streaming: what one call of [loop] asks of the camera *)

Lemma processFrame_streams env s :
  cameraInitialized s = true ->
  count_events is_fb_get (events_of (processFrame env s)) = 1%nat /\
  count_events is_camera_init (events_of (processFrame env s)) = 0%nat /\
  cameraInitialized (state_of (processFrame env s)) = true.
Proof.
  intros Hinit. destruct (next_frame_fails env s) eqn:Hf.
  - rewrite (processFrame_failed env s Hinit Hf).
    unfold events_of, state_of. cbn [fst snd cameraInitialized].
    destruct (esp_camera_fb_get_result env (fb_calls s)); repeat split; assumption.
  - unfold next_frame_fails in Hf.
    destruct (esp_camera_fb_get_result env (fb_calls s)) as [f|] eqn:Hfb;
      [|discriminate].
    rewrite (processFrame_succeeded env s f Hinit Hfb Hf).
    unfold events_of, state_of. cbn [fst snd cameraInitialized].
    repeat split; assumption.
Qed.

Lemma pace_run env t s :
  exists evs,
    pace env t s = (tt, with_sys_calls s (S (sys_calls s)), evs) /\
    forallb passive evs = true.
Proof.
  unfold pace, millis, sys, delay, emit, bind, ret. cbn.
  destruct (_ <? FRAME_DELAY_MS); eexists; split; reflexivity.
Qed.

Lemma passive_counts evs :
  forallb passive evs = true ->
  count_events is_fb_get evs = 0%nat /\ count_events is_camera_init evs = 0%nat.
Proof.
  intros Hp. split; (apply (count_events_none passive); [|exact Hp]);
    intros []; cbn; congruence.
Qed.

(** With the camera initialized, every call of [loop] acquires exactly one
    frame, asks for no sensor configuration, and leaves the camera
    initialized. *)
Lemma loop_streams env s :
  cameraInitialized s = true ->
  count_events is_fb_get (events_of (loop env s)) = 1%nat /\
  count_events is_camera_init (events_of (loop env s)) = 0%nat /\
  cameraInitialized (state_of (loop env s)) = true.
Proof.
  intros Hinit.
  set (s0 := state_of (millis env s)).
  assert (H0 : cameraInitialized s0 = true) by exact Hinit.
  destruct (processFrame_streams env s0 H0) as (Hget & Hcfg & H1).
  set (s1 := state_of (processFrame env s0)) in *.
  pose proof (report_stats_run env s1) as Hrep.
  set (s2 := state_of (report_stats env s1)).
  assert (H2 : cameraInitialized s2 = true).
  { unfold s2. rewrite Hrep. unfold state_of. cbn [fst snd].
    destruct (stats_due s1); exact H1. }
  destruct (pace_run env (result_of (millis env s)) s2) as (ev3 & Hpace & Hp3).
  destruct (passive_counts ev3 Hp3) as [Hp3g Hp3c].
  unfold loop, loop_until_yield.
  rewrite !events_of_bind, !state_of_bind.
  fold s0. fold s1. fold s2.
  rewrite Hpace. rewrite Hrep.
  rewrite reset_error_counter_run.
  unfold yield, emit, ret. proj_run.
  cbn [cameraInitialized with_sys_calls].
  rewrite !count_events_app, Hget, Hcfg, Hp3g, Hp3c.
  replace (count_events is_fb_get (events_of (millis env s))) with 0%nat
    by reflexivity.
  replace (count_events is_camera_init (events_of (millis env s))) with 0%nat
    by reflexivity.
  repeat split.
  - destruct (stats_due s1), (1000 <? _); reflexivity.
  - destruct (stats_due s1), (1000 <? _); reflexivity.
  - exact H2.
Qed.

Lemma forever_loop_streams env iterations :
  forall s, cameraInitialized s = true ->
  count_events is_fb_get (events_of (forever iterations (loop env) s)) = iterations /\
  count_events is_camera_init (events_of (forever iterations (loop env) s)) = 0%nat /\
  cameraInitialized (state_of (forever iterations (loop env) s)) = true.
Proof.
  induction iterations as [|n IH]; intros s Hinit; cbn [forever].
  - repeat split. exact Hinit.
  - destruct (loop_streams env s Hinit) as (Hg & Hc & Hci).
    destruct (IH _ Hci) as (IHg & IHc & IHci).
    rewrite events_of_bind, state_of_bind, !count_events_app.
    rewrite Hg, Hc, IHg, IHc. repeat split. exact IHci.
Qed.

(** When [setup] returns, the sketch streams: the Arduino core calls [loop]
    again and again, and every call acquires a frame. *)
Lemma arduino_main_streams env fuel iterations s :
  display_begin_ok env = true -> init_ok env s = true ->
  let run := arduino_main env fuel iterations s in
  result_of run = SetupReturned /\
  cameraInitialized (state_of run) = true /\
  count_events is_camera_init (events_of run) = init_made env s /\
  count_events is_fb_get (events_of run) = iterations.
Proof.
  intros Hdisp Hok run. subst run.
  destruct (setup_camera_observed env fuel s Hdisp) as (Hr & Hci & Hc & Hf).
  rewrite Hok in Hr, Hci. rewrite orb_true_r in Hci.
  destruct (forever_loop_streams env iterations _ Hci) as (Lg & Lc & Lci).
  unfold arduino_main.
  rewrite result_of_bind, state_of_bind, events_of_bind, Hr.
  rewrite result_of_bind, state_of_bind, events_of_bind.
  cbn [ret result_of state_of events_of fst snd].
  rewrite app_nil_r, !count_events_app.
  fold (events_of (setup env fuel s)).
  fold (state_of (setup env fuel s)).
  fold (events_of (forever iterations (loop env) (state_of (setup env fuel s)))).
  fold (state_of (forever iterations (loop env) (state_of (setup env fuel s)))).
  rewrite Hc, Hf, Lg, Lc. repeat split; [exact Lci|lia].
Qed.

(** C6: camera initialization requests sensor configuration at most
    MAX_RETRIES = 5 times.  If every attempt fails it makes exactly 5
    attempts and reports failure, and the sketch then stays in the fatal halt
    loop without ever acquiring a frame; if an attempt succeeds no further
    attempt is made, setup returns and the sketch streams (every call of loop
    acquires a frame); and the wait between the failed attempt number a and
    the next one is a * 1000 + 500 ms, linear in a. *)
Theorem camera_init_retry_policy env s fuel iterations :
  let r := initCamera env s in
  let n := count_events is_camera_init (events_of r) in
  let results k := esp_camera_init_result env (init_calls s + k)%nat in
  (1 <= n <= Z.to_nat MAX_RETRIES)%nat /\
  init_calls (state_of r) = (init_calls s + n)%nat /\
  ((forall k, (k < 5)%nat -> results k <> ESP_OK) ->
   n = 5%nat /\ result_of r = false /\
   cameraInitialized (state_of r) = cameraInitialized s /\
   (display_begin_ok env = true ->
    let run := arduino_main env fuel iterations s in
    result_of run = HaltedCamera /\
    count_events is_camera_init (events_of run) = 5%nat /\
    count_events is_fb_get (events_of run) = 0%nat)) /\
  (forall j, (j < 5)%nat ->
   (forall k, (k < j)%nat -> results k <> ESP_OK) -> results j = ESP_OK ->
   n = S j /\ result_of r = true /\
   cameraInitialized (state_of r) = true /\
   (display_begin_ok env = true ->
    let run := arduino_main env fuel iterations s in
    result_of run = SetupReturned /\
    cameraInitialized (state_of run) = true /\
    count_events is_camera_init (events_of run) = S j /\
    count_events is_fb_get (events_of run) = iterations)) /\
  removelast (delays_after_init (events_of r)) =
    map (fun a => a * 1000 + 500) (seqZ 1 (Z.of_nat n - 1)).
Proof.
  intros r n results.
  destruct (initCamera_observed env s)
    as (Hres & Hci & Hic & _ & _ & Hn & _ & _ & Hdelay).
  fold r in Hres, Hci, Hic, Hn, Hdelay. fold n in Hn.
  pose proof (init_made_bounds env s) as Hb.
  split; [rewrite Hn; exact Hb|].
  split; [rewrite Hn; exact Hic|].
  split; [|split].
  - intros Hall.
    destruct (attempts_all_fail (esp_camera_init_result env) (init_calls s)
                (seqZ 1 MAX_RETRIES)) as [Hok Hmade].
    { rewrite seq_retries. exact Hall. }
    fold (init_ok env s) in Hok. fold (init_made env s) in Hmade.
    rewrite seq_retries in Hmade. cbn [length] in Hmade.
    split; [congruence|]. split; [congruence|].
    split; [rewrite Hci, Hok; apply orb_false_r|].
    intros Hdisp run. subst run.
    destruct (setup_camera_observed env fuel s Hdisp) as (Hr & _ & Hc & Hf).
    rewrite Hok in Hr.
    destruct (arduino_main_halted env fuel iterations s) as (-> & _ & ->);
      [rewrite Hr; discriminate|].
    split; [exact Hr|]. split; [congruence|exact Hf].
  - intros j Hj Hbefore Hsucc.
    destruct (attempts_first_success (esp_camera_init_result env) (init_calls s)
                (seqZ 1 MAX_RETRIES) j) as [Hok Hmade].
    { rewrite seq_retries. exact Hj. }
    { exact Hbefore. }
    { exact Hsucc. }
    fold (init_ok env s) in Hok. fold (init_made env s) in Hmade.
    split; [congruence|]. split; [congruence|].
    split; [rewrite Hci, Hok; apply orb_true_r|].
    intros Hdisp run. subst run.
    destruct (arduino_main_streams env fuel iterations s Hdisp Hok)
      as (Hr & Hc & Hcount & Hget).
    split; [exact Hr|]. split; [exact Hc|]. split; [congruence|exact Hget].
  - rewrite Hn. exact Hdelay.
Qed.

(** ** A run that makes both counters zero at the statistics *)

(** A turn of [loop] whose frame is good. *)
Lemma loop_good_frame env s f :
  cameraInitialized s = true ->
  esp_camera_fb_get_result env (fb_calls s) = Some f ->
  frame_mismatch f = false ->
  frameCount (state_of (loop env s)) = wrap32 (frameCount s + 1) /\
  errorCount (state_of (loop env s)) =
    (if 1000 <? errorCount s then 0 else errorCount s) /\
  cameraInitialized (state_of (loop env s)) = true /\
  frameCount (at_report env s) = wrap32 (frameCount s + 1) /\
  errorCount (at_report env s) = errorCount s.
Proof.
  intros Hci Hfb Hok.
  set (s0 := state_of (millis env s)).
  assert (H0 : cameraInitialized s0 = true) by exact Hci.
  assert (Hfb0 : esp_camera_fb_get_result env (fb_calls s0) = Some f)
    by exact Hfb.
  pose proof (processFrame_succeeded env s0 f H0 Hfb0 Hok) as Hpf.
  assert (Hat : at_report env s = state_of (processFrame env s0)) by reflexivity.
  set (s1 := state_of (processFrame env s0)) in *.
  assert (H1 : frameCount s1 = wrap32 (frameCount s + 1) /\
               errorCount s1 = errorCount s /\ cameraInitialized s1 = true).
  { unfold s1. rewrite Hpf. unfold state_of. cbn [fst snd frameCount errorCount
      cameraInitialized]. repeat split. exact H0. }
  destruct H1 as (H1f & H1e & H1c).
  pose proof (report_stats_run env s1) as Hrep.
  set (s2 := state_of (report_stats env s1)).
  assert (H2 : frameCount s2 = frameCount s1 /\ errorCount s2 = errorCount s1 /\
               cameraInitialized s2 = cameraInitialized s1).
  { unfold s2. rewrite Hrep. unfold state_of. cbn [fst snd].
    destruct (stats_due s1); repeat split. }
  destruct H2 as (H2f & H2e & H2c).
  destruct (pace_run env (result_of (millis env s)) s2) as (ev3 & Hpace & _).
  rewrite Hat.
  unfold loop, loop_until_yield.
  rewrite !state_of_bind.
  fold s0. fold s1. fold s2.
  rewrite Hpace. rewrite reset_error_counter_run.
  unfold yield, emit, ret. proj_run.
  cbn [frameCount errorCount cameraInitialized with_sys_calls].
  rewrite H2f, H2e, H2c, H1f, H1e, H1c. repeat split.
Qed.

(** With a camera that always delivers good frames the counters after [n]
    turns are [n] (modulo 2^32) and 0. *)
Lemma healthy_frames n :
  forall s, cameraInitialized s = true -> errorCount s = 0 ->
  0 <= frameCount s < 2 ^ 32 ->
  let s' := state_of (forever n (loop Scenario.healthy) s) in
  frameCount s' = wrap32 (frameCount s + Z.of_nat n) /\
  errorCount s' = 0 /\ cameraInitialized s' = true.
Proof.
  induction n as [|n IH]; intros s Hci He Hf; cbv zeta.
  - cbn [forever ret state_of fst snd]. rewrite Z.add_0_r.
    unfold wrap32. rewrite Z.mod_small by exact Hf. repeat split; assumption.
  - cbn [forever]. rewrite state_of_bind.
    destruct (loop_good_frame Scenario.healthy s (Scenario.uniform_frame 200)
                Hci eq_refl eq_refl) as (Lf & Le & Lc & _).
    rewrite He in Le. change (1000 <? 0) with false in Le. cbv iota in Le.
    destruct (IH _ Lc Le) as (IHf & IHe & IHc).
    { rewrite Lf. unfold wrap32. apply Z.mod_pos_bound. lia. }
    cbv zeta in IHf, IHe, IHc. rewrite IHf, Lf. repeat split; try assumption.
    unfold wrap32. rewrite Zplus_mod_idemp_l. f_equal. lia.
Qed.

Lemma healthy_boot :
  let up := setup Scenario.healthy 0 Scenario.boot in
  result_of up = SetupReturned /\ frameCount (state_of up) = 0 /\
  errorCount (state_of up) = 0 /\ cameraInitialized (state_of up) = true.
Proof. vm_compute. repeat split. Qed.

Lemma healthy_run n :
  let s := state_of (arduino_main Scenario.healthy 0 n Scenario.boot) in
  frameCount s = wrap32 (Z.of_nat n) /\ errorCount s = 0 /\
  cameraInitialized s = true.
Proof.
  cbv zeta. destruct healthy_boot as (Hr & Hf & He & Hc). cbv zeta in Hr, Hf, He, Hc.
  unfold arduino_main. rewrite state_of_bind, Hr. rewrite state_of_bind.
  cbn [ret state_of fst snd].
  fold (state_of (forever n (loop Scenario.healthy)
                    (state_of (setup Scenario.healthy 0 Scenario.boot)))).
  destruct (healthy_frames n _ Hc He) as (Ff & Fe & Fc); [rewrite Hf; lia|].
  cbv zeta in Ff, Fe, Fc. rewrite Hf in Ff. repeat split; assumption.
Qed.

(** C4, the claim as stated, fails at zero.  After boot and 2^32 - 1 good
    frames [frameCount] is 2^32 - 1 and [errorCount] is 0; the next good
    frame wraps [frameCount] to 0, so both counters are 0 when [loop]
    reaches its statistics, and the turn reports no rate at all, hence no
    rate 0. *)
Lemma error_rate_undefined_at_zero :
  let s := state_of (arduino_main Scenario.healthy 0 (Z.to_nat 4294967295)
                       Scenario.boot) in
  cameraInitialized s = true /\
  frameCount s = 4294967295 /\ errorCount s = 0 /\
  frameCount (at_report Scenario.healthy s) = 0 /\
  errorCount (at_report Scenario.healthy s) = 0 /\
  reported_rate (events_of (loop Scenario.healthy s)) = None.
Proof.
  cbv zeta. remember (Z.to_nat 4294967295) as n eqn:Hn.
  destruct (healthy_run n) as (Hf & He & Hc). cbv zeta in Hf, He, Hc.
  remember (state_of (arduino_main Scenario.healthy 0 n Scenario.boot)) as s eqn:Hs.
  assert (Hf' : frameCount s = 4294967295).
  { rewrite Hf, Hn, Z2Nat.id by lia. reflexivity. }
  clear Hf Hn Hs n.
  destruct (loop_good_frame Scenario.healthy s (Scenario.uniform_frame 200)
              Hc eq_refl eq_refl) as (_ & _ & _ & Af & Ae).
  rewrite Hf' in Af. change (wrap32 (4294967295 + 1)) with 0 in Af.
  rewrite He in Ae.
  split; [exact Hc|]. split; [exact Hf'|]. split; [exact He|].
  split; [exact Af|]. split; [exact Ae|].
  unfold loop. rewrite events_of_bind.
  rewrite reported_rate_app, loop_until_yield_rate, report_stats_run.
  assert (Hdue : stats_due (at_report Scenario.healthy s) = false).
  { unfold stats_due. rewrite Af. reflexivity. }
  rewrite Hdue. proj_run. cbn [reported_rate].
  rewrite reset_error_counter_run. proj_run.
  destruct (1000 <? _); reflexivity.
Qed.

(** ** Scenarios, and the theorems at concrete inputs *)

Lemma uniform_frame_96x96 p :
  0 <= p <= 255 ->
  frame_96x96 (Scenario.uniform_frame p) (replicate (Z.to_nat 9216) p).
Proof.
  intros Hp. unfold frame_96x96, Scenario.uniform_frame. cbn [buf len width height format].
  split; [reflexivity|]. split; [reflexivity|].
  split; [rewrite length_replicate; reflexivity|].
  split; [reflexivity|]. split; [reflexivity|]. split; [reflexivity|].
  apply forallb_forall. intros q Hq. apply list_elem_of_In in Hq.
  apply elem_of_replicate in Hq as [-> _]. lia.
Qed.

(** A frame of intensity 200 lights every pixel; a frame of intensity 10
    lights none; the bitmap has 128 * 64 / 8 bytes. *)
Example bright_frame_all_lit :
  convertFrameToBitmap (Some (Scenario.uniform_frame 200)) (replicate 1024 0) =
  replicate 1024 255.
Proof. vm_compute. reflexivity. Qed.

Example dark_frame_all_clear :
  convertFrameToBitmap (Some (Scenario.uniform_frame 10)) (replicate 1024 255) =
  replicate 1024 0.
Proof. vm_compute. reflexivity. Qed.

Example threshold_frame_all_clear :
  convertFrameToBitmap (Some (Scenario.uniform_frame 64)) (replicate 1024 255) =
  replicate 1024 0.
Proof. vm_compute. reflexivity. Qed.

Lemma convert_bit_iff_above_threshold_witness :
  let f := Scenario.uniform_frame 200 in
  let gray := replicate (Z.to_nat 9216) 200 in
  let dest := replicate 1024 255 in
  (bitmap_bit (convertFrameToBitmap (Some f) dest) 127 63 = true <->
   byte_at gray (srcY_of 63 * 96 + srcX_of 127) > BRIGHTNESS_THRESHOLD) /\
  (byte_at gray (srcY_of 63 * 96 + srcX_of 127) = BRIGHTNESS_THRESHOLD ->
   bitmap_bit (convertFrameToBitmap (Some f) dest) 127 63 = false).
Proof.
  apply (convert_bit_iff_above_threshold (Scenario.uniform_frame 200)
           (replicate (Z.to_nat 9216) 200) (replicate 1024 255) 127 63).
  - apply uniform_frame_96x96. lia.
  - reflexivity.
  - lia.
  - lia.
Defined.

Lemma src_index_floor_clamped_witness :
  srcX_of 127 = Z.min (127 * 96 / 128) 95 /\
  srcY_of 63 = Z.min (63 * 96 / 64) 95 /\
  srcX_of 127 = 95 /\ srcY_of 63 <= 95 /\
  0 <= srcX_of 127 < 96 /\ 0 <= srcY_of 63 < 96 /\
  0 <= srcY_of 63 * 96 + srcX_of 127 < 96 * 96.
Proof. apply (src_index_floor_clamped 127 63); lia. Defined.

(** C3, the claim as stated, fails: a failed frame leaves frameCount as it
    was; only errorCount moves. *)
Lemma failed_frame_is_not_counted_as_frame :
  let s := Scenario.streaming in
  let r := processFrame Scenario.no_frame s in
  cameraInitialized s = true /\
  result_of r = false /\
  frameCount s = 7 /\ frameCount (state_of r) = 7 /\
  frameCount (state_of r) <> frameCount s + 1 /\
  errorCount (state_of r) = errorCount s + 1.
Proof. vm_compute. repeat split; discriminate. Qed.

Lemma processFrame_counters_witness :
  let s := Scenario.streaming in
  let r := processFrame Scenario.healthy s in
  let failed := next_frame_fails Scenario.healthy s in
  result_of r = negb failed /\
  frameCount (state_of r) =
    (if failed then frameCount s else wrap32 (frameCount s + 1)) /\
  errorCount (state_of r) =
    (if failed then wrap32 (errorCount s + 1) else errorCount s).
Proof.
  apply (processFrame_counters Scenario.healthy Scenario.streaming).
  reflexivity.
Defined.

Lemma processFrame_failure_skips_render_witness :
  let s := Scenario.streaming in
  let r := processFrame Scenario.wrong_size s in
  result_of r = false /\
  errorCount (state_of r) = wrap32 (errorCount s + 1) /\
  frameCount (state_of r) = frameCount s /\
  bitmapBuffer (state_of r) = bitmapBuffer s /\
  count_events is_display_output (events_of r) = 0%nat /\
  events_of r = [EFbGet (Some Scenario.qqvga_frame);
                 EFbReturn Scenario.qqvga_frame].
Proof.
  apply (processFrame_failure_skips_render Scenario.wrong_size Scenario.streaming).
  - reflexivity.
  - right. exists Scenario.qqvga_frame. split; [reflexivity|].
    left. discriminate.
Defined.



Lemma camera_init_retry_policy_witness :
  count_events is_camera_init
    (events_of (initCamera Scenario.dead_camera Scenario.boot)) = 5%nat /\
  result_of (initCamera Scenario.dead_camera Scenario.boot) = false /\
  result_of (arduino_main Scenario.dead_camera 2 3 Scenario.boot) = HaltedCamera /\
  count_events is_camera_init
    (events_of (initCamera Scenario.second_try Scenario.boot)) = 2%nat /\
  result_of (arduino_main Scenario.second_try 2 3 Scenario.boot) = SetupReturned /\
  count_events is_fb_get
    (events_of (arduino_main Scenario.second_try 2 3 Scenario.boot)) = 3%nat.
Proof.
  destruct (camera_init_retry_policy Scenario.dead_camera Scenario.boot 2 3)
    as (_ & _ & Hfail & _).
  destruct Hfail as (H5 & Hres & _ & Hrun); [intros k _; discriminate|].
  destruct (Hrun eq_refl) as (Hhalt & _).
  destruct (camera_init_retry_policy Scenario.second_try Scenario.boot 2 3)
    as (_ & _ & _ & Hsucc & _).
  destruct (Hsucc 1%nat) as (H2 & _ & _ & Hup).
  - lia.
  - intros k Hk. assert (k = 0%nat) as -> by lia. discriminate.
  - reflexivity.
  - destruct (Hup eq_refl) as (Hret & _ & _ & Hget).
    repeat split; assumption.
Defined.

Lemma display_failure_is_fatal_witness :
  let run := arduino_main Scenario.dead_display 4 2 Scenario.boot in
  result_of run = HaltedDisplay /\
  count_events is_display_begin (events_of run) = 1%nat /\
  count_events is_halt_message (events_of run) = 4%nat /\
  count_events is_camera_event (events_of run) = 0%nat.
Proof.
  destruct (display_failure_is_fatal Scenario.dead_display Scenario.boot 4 2)
    as (_ & _ & Hfail & _).
  exact (Hfail eq_refl).
Defined.

(** The retry schedule when the sensor driver never comes up. *)
Example dead_camera_backoff :
  delays_after_init (events_of (initCamera Scenario.dead_camera Scenario.boot)) =
  [1500; 2500; 3500; 4500; 0].
Proof. vm_compute. reflexivity. Qed.

(** 1000 frames with 50 errors: the reported rate is 9986438 * 2^-21, that
    is 4.7619...; 500 frames with 23 errors: 4.3977... *)
Example error_rate_1000_50 :
  errorRate_expr 1000 50 = S754_finite false 9986438 (-21) /\
  476190 * 2 ^ 21 < 9986438 * 100000 < 476191 * 2 ^ 21.
Proof. vm_compute. repeat split. Qed.

Example error_rate_500_23 :
  errorRate_expr 500 23 = S754_finite false 9222657 (-21) /\
  439770 * 2 ^ 21 < 9222657 * 100000 < 439771 * 2 ^ 21.
Proof. vm_compute. repeat split. Qed.

(** A report that is due: after the 1000th good frame, with 50 errors on
    the counter, the rate printed is within 2^-21 of 100 * 50 / 1050. *)
Lemma error_rate_report_witness :
  let s := mk_state 999 50 true (replicate 1024 0) 0 1 999 in
  exists rate,
    reported_rate (events_of (loop Scenario.healthy s)) = Some rate /\
    Float32.is_finite rate = true /\
    ((1 - (1 # 2097152)) * (100 * inject_Z 50 / inject_Z (1000 + 50)) <= F2Q rate /\
     F2Q rate <= (1 + (1 # 2097152)) * (100 * inject_Z 50 / inject_Z (1000 + 50)))%Q.
Proof.
  intros s.
  destruct (error_rate_report Scenario.healthy s) as (Hrep & _ & Hacc & _).
  assert (Hdue : stats_due (at_report Scenario.healthy s) = true)
    by (vm_compute; reflexivity).
  rewrite Hdue in Hrep.
  eexists. split; [exact Hrep|].
  destruct (Hacc _ Hrep) as (Hfin & Hbounds & _).
  - vm_compute. discriminate.
  - vm_compute. reflexivity.
  - split; [exact Hfin|]. exact Hbounds.
Defined.

(** ** Further properties of the frame converter *)

Lemma uint8_or_byte a bit :
  0 <= Z.land (Z.lor a (Z.shiftl 1 bit)) 255 < 256.
Proof.
  change 255 with (Z.ones 8). rewrite Z.land_ones by lia.
  apply Z.mod_pos_bound. lia.
Qed.

Lemma uint8_buffer_spec b :
  uint8_buffer b <-> forall i v, b !! i = Some v -> 0 <= v < 256.
Proof.
  unfold uint8_buffer. rewrite forallb_forall. split.
  - intros H i v Hi. apply list_elem_of_lookup_2, list_elem_of_In in Hi.
    specialize (H v Hi). lia.
  - intros H v Hv. apply list_elem_of_In, list_elem_of_lookup_1 in Hv as [i Hi].
    specialize (H i v Hi). lia.
Qed.

Lemma or_bit_uint8 b idx bit : uint8_buffer b -> uint8_buffer (or_bit b idx bit).
Proof.
  rewrite !uint8_buffer_spec. intros H i v Hi. unfold or_bit in Hi.
  destruct (decide (i = Z.to_nat idx)) as [->|Hne].
  - apply list_lookup_insert_Some in Hi as [(_ & <- & _)|[Hc _]]; [|congruence].
    apply uint8_or_byte.
  - rewrite list_lookup_insert_ne in Hi by congruence. eauto.
Qed.

Lemma convert_pixel_uint8 gray T y srcRow b x :
  uint8_buffer b -> uint8_buffer (convert_pixel gray T y srcRow b x).
Proof.
  intros H. unfold convert_pixel. destruct (T <? _); [apply or_bit_uint8|]; exact H.
Qed.

Lemma foldl_invariant {A B} (P : A -> Prop) (f : A -> B -> A) l :
  (forall a x, P a -> P (f a x)) -> forall a, P a -> P (foldl f a l).
Proof.
  intros Hf. induction l as [|x l IH]; intros a Ha; cbn [foldl]; auto.
Qed.

Lemma convert_loops_uint8 gray T b :
  uint8_buffer b -> uint8_buffer (convert_loops gray T b).
Proof.
  unfold convert_loops. apply foldl_invariant. intros a y Ha.
  unfold convert_row. revert Ha. apply foldl_invariant.
  intros a' x. apply convert_pixel_uint8.
Qed.

Lemma convert_loops_length gray T b :
  length (convert_loops gray T b) = length b.
Proof.
  unfold convert_loops.
  apply (foldl_invariant (fun a => length a = length b)); [|reflexivity].
  intros a y Ha. unfold convert_row.
  apply (foldl_invariant (fun a' => length a' = length b)); [|exact Ha].
  intros a' x Ha'. rewrite convert_pixel_length. exact Ha'.
Qed.

Lemma uint8_replicate_zero n : uint8_buffer (replicate n 0).
Proof.
  apply uint8_buffer_spec. intros i v Hi.
  apply lookup_replicate in Hi as [-> _]. lia.
Qed.

Lemma list_eq_byte_at (a b : list Z) :
  length a = length b ->
  (forall i, 0 <= i < Z.of_nat (length a) -> byte_at a i = byte_at b i) ->
  a = b.
Proof.
  intros Hlen H. apply list_eq. intros i.
  destruct (decide (i < length a)%nat) as [Hi|Hi].
  - specialize (H (Z.of_nat i) ltac:(lia)). unfold byte_at in H.
    rewrite Nat2Z.id in H.
    destruct (lookup_lt_is_Some_2 a i Hi) as [va Ea].
    destruct (lookup_lt_is_Some_2 b i ltac:(lia)) as [vb Eb].
    rewrite Ea, Eb in *. simpl in H. congruence.
  - rewrite !lookup_ge_None_2 by lia. reflexivity.
Qed.

Lemma byte_at_uint8 b i : uint8_buffer b -> 0 <= byte_at b i < 256.
Proof.
  intros H. unfold byte_at. destruct (b !! Z.to_nat i) as [v|] eqn:E; simpl.
  - eapply uint8_buffer_spec; eauto.
  - lia.
Qed.

Lemma uint8_eq_bits a b :
  0 <= a < 256 -> 0 <= b < 256 ->
  (forall k, 0 <= k < 8 -> Z.testbit a k = Z.testbit b k) -> a = b.
Proof.
  intros Ha Hb H. apply Z.bits_inj'. intros k Hk.
  destruct (Z.lt_ge_cases k 8) as [Hlt|Hge]; [apply H; lia|].
  rewrite <- (Z.mod_small a (2 ^ 8)), <- (Z.mod_small b (2 ^ 8)) by (simpl; lia).
  rewrite !Z.mod_pow2_bits_high by lia. reflexivity.
Qed.

Lemma packed_byte_range pixel i : 0 <= packed_byte pixel i < 256.
Proof.
  unfold packed_byte. cbv zeta.
  repeat match goal with |- context [if ?c then _ else _] => destruct c end; lia.
Qed.

Lemma packed_byte_testbit pixel i k :
  0 <= k < 8 ->
  Z.testbit (packed_byte pixel i) k = pixel (8 * (i mod 16) + (7 - k)) (i / 16).
Proof.
  intros Hk. unfold packed_byte. cbv zeta.
  replace (8 * (i mod 16)) with (8 * (i mod 16) + 0) at 1 by lia.
  generalize (8 * (i mod 16)) (i / 16). intros x0 y.
  apply small_cases in Hk.
  destruct Hk as [->|[->|[->|[->|[->|[->|[->| ->]]]]]]];
    match goal with |- _ = pixel (x0 + ?c) y =>
      let c' := eval cbv in c in change c with c' end;
    destruct (pixel (x0 + 0) y), (pixel (x0 + 1) y), (pixel (x0 + 2) y),
      (pixel (x0 + 3) y), (pixel (x0 + 4) y), (pixel (x0 + 5) y),
      (pixel (x0 + 6) y), (pixel (x0 + 7) y); reflexivity.
Qed.

Lemma byte_at_packed_bitmap pixel i :
  0 <= i < BITMAP_BYTES -> byte_at (packed_bitmap pixel) i = packed_byte pixel i.
Proof.
  intros Hi. unfold byte_at, packed_bitmap.
  rewrite list_lookup_fmap.
  rewrite (lookup_seqZ_lt 0 BITMAP_BYTES (Z.to_nat i)) by lia.
  simpl. f_equal. lia.
Qed.

Lemma length_packed_bitmap pixel :
  length (packed_bitmap pixel) = Z.to_nat BITMAP_BYTES.
Proof. unfold packed_bitmap. rewrite length_map, length_seqZ. reflexivity. Qed.

(** The two loops on a zeroed buffer build the packed bitmap of the threshold
    tests. *)
Lemma convert_loops_packed gray T :
  convert_loops gray T (replicate (Z.to_nat BITMAP_BYTES) 0) =
  packed_bitmap (fun x y => T <? byte_at gray (srcY_of y * 96 + srcX_of x)).
Proof.
  apply list_eq_byte_at.
  - rewrite convert_loops_length, length_replicate, length_packed_bitmap.
    reflexivity.
  - rewrite convert_loops_length, length_replicate. intros i Hi.
    rewrite Z2Nat.id in Hi by (vm_compute; discriminate).
    rewrite byte_at_packed_bitmap by exact Hi.
    apply uint8_eq_bits.
    + apply byte_at_uint8, convert_loops_uint8, uint8_replicate_zero.
    + apply packed_byte_range.
    + intros k Hk. rewrite packed_byte_testbit by exact Hk.
      assert (Hx : 0 <= 8 * (i mod 16) + (7 - k) < BMP_W)
        by (unfold BMP_W; Z.div_mod_to_equations; lia).
      assert (Hy : 0 <= i / 16 < BMP_H)
        by (unfold BMP_H; change BITMAP_BYTES with 1024 in Hi;
            Z.div_mod_to_equations; lia).
      rewrite <- (convert_loops_bit gray T (Z.to_nat BITMAP_BYTES))
        by (assumption || reflexivity).
      unfold bitmap_bit.
      destruct (pixel_position _ _ Hx Hy) as (-> & -> & _).
      f_equal; [f_equal|]; Z.div_mod_to_equations; lia.
Qed.

(** X1: whenever the converter's guard passes, the whole new buffer is known:
    it is the row-major packing, 16 bytes per row and leftmost pixel in the
    most significant bit, of the threshold tests at the sampled source
    pixels.  Nothing of the old buffer and nothing else of the frame enters. *)
Theorem convert_builds_packed_bitmap (f : camera_fb_t) (gray dest : list Z) :
  buf f = Some gray -> 96 * 96 <= len f ->
  Z.of_nat (length dest) = BITMAP_BYTES ->
  convertFrameToBitmap (Some f) dest = packed_bitmap (sampled_lit gray).
Proof.
  intros Hbuf Hlen Hdest.
  rewrite (convert_valid_frame f gray dest Hbuf Hlen Hdest).
  apply convert_loops_packed.
Qed.

Lemma packed_bitmap_ext p q :
  (forall x y, 0 <= x < BMP_W -> 0 <= y < BMP_H -> p x y = q x y) ->
  packed_bitmap p = packed_bitmap q.
Proof.
  intros H. unfold packed_bitmap. apply map_ext_in. intros i Hi.
  apply list_elem_of_In, elem_of_seqZ in Hi. change BITMAP_BYTES with 1024 in Hi.
  unfold packed_byte. cbv zeta.
  assert (Hy : 0 <= i / 16 < BMP_H)
    by (unfold BMP_H; Z.div_mod_to_equations; lia).
  assert (Hx : forall j, 0 <= j < 8 -> 0 <= 8 * (i mod 16) + j < BMP_W)
    by (intros j Hj; unfold BMP_W; Z.div_mod_to_equations; lia).
  replace (8 * (i mod 16)) with (8 * (i mod 16) + 0) at 1 9 by lia.
  rewrite !H by (try apply Hx; try exact Hy; lia).
  reflexivity.
Qed.

Lemma packed_bitmap_const (c : bool) :
  packed_bitmap (fun _ _ => c) =
  replicate (Z.to_nat BITMAP_BYTES) (if c then 255 else 0).
Proof. destruct c; vm_compute; reflexivity. Qed.

Lemma sampled_rows y : 0 <= y < BMP_H -> srcY_of y mod 3 <> 2.
Proof.
  intros Hy. rewrite srcY_of_floor by exact Hy. unfold BMP_H in Hy.
  Z.div_mod_to_equations. lia.
Qed.

Lemma convert_guard_fails f dest :
  (buf f = None \/ len f < 96 * 96) -> convertFrameToBitmap (Some f) dest = dest.
Proof.
  intros H. unfold convertFrameToBitmap. destruct (buf f); [|reflexivity].
  destruct H as [H|H]; [discriminate|].
  destruct (Z.ltb_spec (len f) (96 * 96)); [reflexivity|lia].
Qed.

Lemma convert_buffer_shape (fb : option camera_fb_t) (dest : list Z) :
  Z.of_nat (length dest) = BITMAP_BYTES -> uint8_buffer dest ->
  Z.of_nat (length (convertFrameToBitmap fb dest)) = BITMAP_BYTES /\
  uint8_buffer (convertFrameToBitmap fb dest).
Proof.
  intros Hlen Hu. unfold convertFrameToBitmap.
  destruct fb as [f|]; [|split; assumption].
  destruct (buf f) as [gray|]; [|split; assumption].
  destruct (len f <? 96 * 96); [split; assumption|].
  cbv zeta. rewrite memset_zero_all by exact Hlen. split.
  - rewrite convert_loops_length, length_replicate. apply Z2Nat.id.
    vm_compute. discriminate.
  - apply convert_loops_uint8, uint8_replicate_zero.
Qed.

(** X3: every third source row (rows 2, 5, 8, ..., 95) is never looked at:
    two frames that agree on all other rows convert to the same bitmap,
    whatever the old buffers held. *)
Theorem convert_ignores_every_third_row (f1 f2 : camera_fb_t)
    (gray1 gray2 dest1 dest2 : list Z) :
  buf f1 = Some gray1 -> buf f2 = Some gray2 ->
  96 * 96 <= len f1 -> 96 * 96 <= len f2 ->
  Z.of_nat (length dest1) = BITMAP_BYTES ->
  Z.of_nat (length dest2) = BITMAP_BYTES ->
  (forall r c, 0 <= r < 96 -> 0 <= c < 96 -> r mod 3 <> 2 ->
     byte_at gray1 (r * 96 + c) = byte_at gray2 (r * 96 + c)) ->
  convertFrameToBitmap (Some f1) dest1 = convertFrameToBitmap (Some f2) dest2.
Proof.
  intros Hb1 Hb2 Hl1 Hl2 Hd1 Hd2 Hagree.
  rewrite (convert_valid_frame f1 gray1 dest1 Hb1 Hl1 Hd1).
  rewrite (convert_valid_frame f2 gray2 dest2 Hb2 Hl2 Hd2).
  rewrite !convert_loops_packed. apply packed_bitmap_ext. intros x y Hx Hy.
  destruct (src_index_range x y Hx Hy) as (Hsx & Hsy & _).
  rewrite Hagree by (try apply sampled_rows; try lia; exact Hy).
  reflexivity.
Qed.

(** X4: every source pixel outside the skipped rows is used: for each source
    row [r] with [r mod 3 <> 2] and each source column [c] there is a
    destination pixel whose bit is the threshold test of source pixel
    [(c, r)]. *)
Theorem convert_uses_every_other_pixel (f : camera_fb_t) (gray dest : list Z)
    (r c : Z) :
  buf f = Some gray -> 96 * 96 <= len f ->
  Z.of_nat (length dest) = BITMAP_BYTES ->
  0 <= r < 96 -> 0 <= c < 96 -> r mod 3 <> 2 ->
  exists x y, 0 <= x < BMP_W /\ 0 <= y < BMP_H /\
    srcX_of x = c /\ srcY_of y = r /\
    bitmap_bit (convertFrameToBitmap (Some f) dest) x y =
    (BRIGHTNESS_THRESHOLD <? byte_at gray (r * 96 + c)).
Proof.
  intros Hb Hl Hd Hr Hc Hmod.
  exists ((4 * c + 2) / 3), ((2 * r + 1) / 3).
  assert (Hx : 0 <= (4 * c + 2) / 3 < BMP_W)
    by (unfold BMP_W; Z.div_mod_to_equations; lia).
  assert (Hy : 0 <= (2 * r + 1) / 3 < BMP_H)
    by (unfold BMP_H; Z.div_mod_to_equations; lia).
  assert (Ex : srcX_of ((4 * c + 2) / 3) = c)
    by (rewrite srcX_of_floor by exact Hx; Z.div_mod_to_equations; lia).
  assert (Ey : srcY_of ((2 * r + 1) / 3) = r)
    by (rewrite srcY_of_floor by exact Hy; Z.div_mod_to_equations; lia).
  split; [exact Hx|]. split; [exact Hy|]. split; [exact Ex|]. split; [exact Ey|].
  rewrite (convert_valid_frame f gray dest Hb Hl Hd).
  rewrite convert_loops_bit by (assumption || reflexivity).
  rewrite Ex, Ey. reflexivity.
Qed.

(** X5: the converter is monotone in brightness: if no pixel of the second
    frame is darker than in the first, every pixel lit for the first frame is
    lit for the second. *)
Theorem convert_monotone_in_brightness (f1 f2 : camera_fb_t)
    (gray1 gray2 dest1 dest2 : list Z) (x y : Z) :
  buf f1 = Some gray1 -> buf f2 = Some gray2 ->
  96 * 96 <= len f1 -> 96 * 96 <= len f2 ->
  Z.of_nat (length dest1) = BITMAP_BYTES ->
  Z.of_nat (length dest2) = BITMAP_BYTES ->
  (forall i, 0 <= i < 96 * 96 -> byte_at gray1 i <= byte_at gray2 i) ->
  0 <= x < BMP_W -> 0 <= y < BMP_H ->
  bitmap_bit (convertFrameToBitmap (Some f1) dest1) x y = true ->
  bitmap_bit (convertFrameToBitmap (Some f2) dest2) x y = true.
Proof.
  intros Hb1 Hb2 Hl1 Hl2 Hd1 Hd2 Hle Hx Hy.
  rewrite (convert_valid_frame f1 gray1 dest1 Hb1 Hl1 Hd1).
  rewrite (convert_valid_frame f2 gray2 dest2 Hb2 Hl2 Hd2).
  rewrite !convert_loops_bit by (assumption || reflexivity).
  destruct (src_index_range x y Hx Hy) as (_ & _ & Hi).
  specialize (Hle _ Hi). rewrite !Z.ltb_lt. lia.
Qed.

(** X6: a frame of one intensity [p] gives an all-white screen (every byte
    255) if [p > 64] and an all-black one (every byte 0) otherwise. *)
Theorem convert_uniform_frame (f : camera_fb_t) (gray dest : list Z) (p : Z) :
  buf f = Some gray -> 96 * 96 <= len f ->
  Z.of_nat (length dest) = BITMAP_BYTES ->
  (forall i, 0 <= i < 96 * 96 -> byte_at gray i = p) ->
  convertFrameToBitmap (Some f) dest =
  replicate (Z.to_nat BITMAP_BYTES) (if BRIGHTNESS_THRESHOLD <? p then 255 else 0).
Proof.
  intros Hb Hl Hd Hp.
  rewrite (convert_valid_frame f gray dest Hb Hl Hd), convert_loops_packed.
  rewrite <- packed_bitmap_const. apply packed_bitmap_ext. intros x y Hx Hy.
  destruct (src_index_range x y Hx Hy) as (_ & _ & Hi).
  rewrite (Hp _ Hi). reflexivity.
Qed.

(** ** No undefined behaviour in the converter *)

Lemma checked_src_x x :
  0 <= x < BMP_W -> checked_src x scaleX = Some (srcX_of x).
Proof.
  intros Hx. destruct (scaled_x_cast x Hx) as [Hfin Hval].
  unfold checked_src, checked_cast, srcX_of. cbv zeta. rewrite Hfin, Hval.
  unfold BMP_W in Hx.
  assert (H : 0 <= x * 96 / 128 < 96) by (Z.div_mod_to_equations; lia).
  destruct (Z.leb_spec (- 2 ^ 31) (x * 96 / 128)); [|lia].
  destruct (Z.ltb_spec (x * 96 / 128) (2 ^ 31)); [|lia].
  reflexivity.
Qed.

Lemma checked_src_y y :
  0 <= y < BMP_H -> checked_src y scaleY = Some (srcY_of y).
Proof.
  intros Hy. destruct (scaled_y_cast y Hy) as [Hfin Hval].
  unfold checked_src, checked_cast, srcY_of. cbv zeta. rewrite Hfin, Hval.
  unfold BMP_H in Hy.
  assert (H : 0 <= y * 96 / 64 < 96) by (Z.div_mod_to_equations; lia).
  destruct (Z.leb_spec (- 2 ^ 31) (y * 96 / 64)); [|lia].
  destruct (Z.ltb_spec (y * 96 / 64) (2 ^ 31)); [|lia].
  reflexivity.
Qed.

Lemma checked_read_in a i :
  0 <= i < Z.of_nat (length a) -> checked_read a i = Some (byte_at a i).
Proof.
  intros Hi. unfold checked_read, byte_at.
  destruct (Z.ltb_spec i 0); [lia|].
  destruct (lookup_lt_is_Some_2 a (Z.to_nat i) ltac:(lia)) as [v ->].
  reflexivity.
Qed.

Lemma checked_or_bit_in b idx bit :
  0 <= bit < 8 -> 0 <= idx < Z.of_nat (length b) ->
  checked_or_bit b idx bit = Some (or_bit b idx bit).
Proof.
  intros Hb Hi. unfold checked_or_bit.
  destruct (Z.leb_spec 0 bit); [|lia]. destruct (Z.ltb_spec bit 31); [|lia].
  destruct (Z.leb_spec 0 idx); [|lia].
  destruct (Z.ltb_spec idx (Z.of_nat (length b))); [|lia].
  reflexivity.
Qed.

Lemma checked_pixel_ok gray T x y b :
  96 * 96 <= Z.of_nat (length gray) -> Z.of_nat (length b) = BITMAP_BYTES ->
  0 <= x < BMP_W -> 0 <= y < BMP_H ->
  checked_pixel gray T y (srcY_of y * 96) (Some b) x =
  Some (convert_pixel gray T y (srcY_of y * 96) b x).
Proof.
  intros Hgray Hlen Hx Hy.
  destruct (src_index_range x y Hx Hy) as (_ & _ & Hi).
  destruct (pixel_position x y Hx Hy) as (Eidx & Ebit & Hidx).
  unfold checked_pixel, convert_pixel. cbv zeta.
  rewrite (checked_src_x x Hx), checked_read_in by lia.
  destruct (T <? _); [|reflexivity].
  apply checked_or_bit_in.
  - rewrite Ebit. Z.div_mod_to_equations. lia.
  - rewrite Eidx, Hlen. exact Hidx.
Qed.

Lemma checked_inner gray T y l :
  96 * 96 <= Z.of_nat (length gray) -> 0 <= y < BMP_H ->
  Forall (fun x => 0 <= x < BMP_W) l ->
  forall b, Z.of_nat (length b) = BITMAP_BYTES ->
  foldl (checked_pixel gray T y (srcY_of y * 96)) (Some b) l =
  Some (foldl (convert_pixel gray T y (srcY_of y * 96)) b l).
Proof.
  intros Hgray Hy Hl. induction Hl as [|x l Hx _ IH]; intros b Hlen.
  - reflexivity.
  - cbn [foldl]. rewrite (checked_pixel_ok gray T x y b Hgray Hlen Hx Hy).
    apply IH. rewrite convert_pixel_length. exact Hlen.
Qed.

Lemma checked_row_ok gray T y b :
  96 * 96 <= Z.of_nat (length gray) -> Z.of_nat (length b) = BITMAP_BYTES ->
  0 <= y < BMP_H ->
  checked_row gray T (Some b) y = Some (convert_row gray T b y).
Proof.
  intros Hgray Hlen Hy. unfold checked_row, convert_row.
  rewrite (checked_src_y y Hy). cbv zeta.
  apply checked_inner; try assumption.
  apply Forall_forall. intros x Hx. apply elem_of_seqZ in Hx.
  unfold BMP_W in *. lia.
Qed.

Lemma checked_outer gray T l :
  96 * 96 <= Z.of_nat (length gray) ->
  Forall (fun y => 0 <= y < BMP_H) l ->
  forall b, Z.of_nat (length b) = BITMAP_BYTES ->
  foldl (checked_row gray T) (Some b) l = Some (foldl (convert_row gray T) b l).
Proof.
  intros Hgray Hl. induction Hl as [|y l Hy _ IH]; intros b Hlen.
  - reflexivity.
  - cbn [foldl]. rewrite (checked_row_ok gray T y b Hgray Hlen Hy).
    apply IH. rewrite convert_row_length by assumption. exact Hlen.
Qed.


(** The check is not idle: a frame that declares 96 * 96 bytes and carries
    100 makes the converter read past its data. *)
Example lying_frame_reads_past_its_data :
  checked_convert
    (Some (mk_fb (Some (replicate 100 200)) 9216 96 96 PIXFORMAT_GRAYSCALE))
    (replicate 1024 0) = None.
Proof. vm_compute. reflexivity. Qed.

(** ** Trace properties that compose *)

Section Traces.

Variable P : list Event -> Prop.
Hypothesis P_nil : P [].
Hypothesis P_app : forall a b, P a -> P b -> P (a ++ b).

Lemma traces_ret {A} (a : A) : traces P (ret a).
Proof. intros s. exact P_nil. Qed.

Lemma traces_bind {A B} (m : M A) (k : A -> M B) :
  traces P m -> (forall a, traces P (k a)) -> traces P (bind m k).
Proof.
  intros Hm Hk s. rewrite events_of_bind. apply P_app; [apply Hm|apply Hk].
Qed.

Lemma traces_silent {A} (m : M A) :
  (forall s, events_of (m s) = []) -> traces P m.
Proof. intros H s. rewrite H. exact P_nil. Qed.

Lemma traces_forever fuel body : traces P body -> traces P (forever fuel body).
Proof.
  intros Hb. induction fuel as [|n IH]; cbn [forever].
  - apply traces_ret.
  - apply traces_bind; [exact Hb|intros _; exact IH].
Qed.

Lemma traces_for_each l body :
  (forall i, traces P (body i)) -> traces P (for_each l body).
Proof.
  intros Hb. induction l as [|i rest IH]; cbn [for_each].
  - apply traces_ret.
  - apply traces_bind; [apply Hb|intros _; exact IH].
Qed.

End Traces.

Lemma forallb_app_true (p : Event -> bool) a b :
  forallb p a = true -> forallb p b = true -> forallb p (a ++ b) = true.
Proof. intros Ha Hb. rewrite forallb_app, Ha, Hb. reflexivity. Qed.

Lemma emits_ret {A} p (a : A) : emits p (ret a).
Proof. apply traces_ret. reflexivity. Qed.

Lemma emits_bind {A B} p (m : M A) (k : A -> M B) :
  emits p m -> (forall a, emits p (k a)) -> emits p (bind m k).
Proof. apply traces_bind. apply forallb_app_true. Qed.

Lemma emits_silent {A} p (m : M A) :
  (forall s, events_of (m s) = []) -> emits p m.
Proof. apply traces_silent. reflexivity. Qed.

Lemma emits_forever p fuel body : emits p body -> emits p (forever fuel body).
Proof. apply traces_forever; [reflexivity|apply forallb_app_true]. Qed.

Lemma emits_for_each p l body :
  (forall i, emits p (body i)) -> emits p (for_each l body).
Proof. apply traces_for_each; [reflexivity|apply forallb_app_true]. Qed.

Lemma emits_emit p e : p e = true -> emits p (emit e).
Proof. intros H s. cbn. rewrite H. reflexivity. Qed.

Lemma emits_sys env p q : (forall v, p (ESys q v) = true) -> emits p (sys env q).
Proof. intros H s. cbn. rewrite H. reflexivity. Qed.

Lemma emits_camera_init env p c :
  (forall err, p (ECameraInit c err) = true) -> emits p (esp_camera_init env c).
Proof. intros H s. cbn. rewrite H. reflexivity. Qed.

Lemma emits_fb_get env p :
  (forall fb, p (EFbGet fb) = true) -> emits p (esp_camera_fb_get env).
Proof. intros H s. cbn. rewrite H. reflexivity. Qed.

Lemma emits_weaken {A} (p q : Event -> bool) (m : M A) :
  (forall e, p e = true -> q e = true) -> emits p m -> emits q m.
Proof. intros Hpq Hm s. eapply forallb_weaken; [exact Hpq|apply Hm]. Qed.

Ltac emits_step :=
  lazymatch goal with
  | |- emits _ (bind _ _) => apply emits_bind; [|intros ?]
  | |- emits _ (ret _) => apply emits_ret
  | |- emits _ (emit _) => apply emits_emit; reflexivity
  | |- emits _ (sys _ _) => apply emits_sys; intros ?; reflexivity
  | |- emits _ (esp_camera_init _ _) =>
      apply emits_camera_init; intros ?; reflexivity
  | |- emits _ (esp_camera_fb_get _) =>
      apply emits_fb_get; intros ?; reflexivity
  | |- emits _ (for_each _ _) => apply emits_for_each; intros ?
  | |- emits _ (forever _ _) => apply emits_forever
  | |- emits _ (if ?c then _ else _) => destruct c
  | |- emits _ (match ?c with Some _ => _ | None => _ end) => destruct c
  | |- emits _ get_state => apply emits_silent; reflexivity
  | |- emits _ (set_frameCount _) => apply emits_silent; reflexivity
  | |- emits _ (set_errorCount _) => apply emits_silent; reflexivity
  | |- emits _ (set_cameraInitialized _) => apply emits_silent; reflexivity
  | |- emits _ (set_bitmapBuffer _) => apply emits_silent; reflexivity
  end.

Ltac emits_auto :=
  unfold Serial_println, Serial_printf, delay, yield, esp_camera_deinit,
    esp_camera_fb_return, esp_camera_sensor_get, Wire_endTransmission,
    display_begin, millis, incr_frameCount, incr_errorCount,
    convert_into_buffer;
  cbv zeta;
  repeat emits_step.

(** *** The start-up phase *)

Lemma startup_printMemoryInfo env : emits startup_event (printMemoryInfo env).
Proof. unfold printMemoryInfo. emits_auto. Qed.

Lemma startup_displayStatus env msg stats :
  emits startup_event (displayStatus env msg stats).
Proof. unfold displayStatus. emits_auto. Qed.

Lemma startup_apply_settings l : emits startup_event (apply_settings l).
Proof.
  induction l as [|[name v] rest IH]; cbn [apply_settings]; emits_auto.
  exact IH.
Qed.

Lemma startup_initCamera_attempts env l :
  emits startup_event (initCamera_attempts env l).
Proof.
  induction l as [|a rest IH]; cbn [initCamera_attempts].
  - emits_auto.
  - unfold report_init_error.
    emits_auto;
      try apply startup_printMemoryInfo; try apply startup_apply_settings;
      try exact IH.
Qed.

Lemma startup_initCamera env : emits startup_event (initCamera env).
Proof.
  unfold initCamera, power_cycle.
  emits_auto; try apply startup_printMemoryInfo;
    try apply startup_initCamera_attempts.
Qed.

Lemma startup_setup env fuel : emits startup_event (setup env fuel).
Proof.
  unfold setup, setup_display, probe_oled, halt_display, display_ready,
    testOLED, halt_camera, announce_ready.
  emits_auto; try apply startup_printMemoryInfo;
    try apply startup_displayStatus; try apply startup_initCamera.
Qed.

(** *** The streaming phase *)

Lemma streaming_processFrame env : emits streaming_event (processFrame env).
Proof. unfold processFrame. emits_auto. Qed.

Lemma streaming_report_stats env : emits streaming_event (report_stats env).
Proof.
  intros s. rewrite report_stats_run. unfold events_of. cbn [snd].
  unfold stats_due. destruct ((0 <? frameCount s) && (frameCount s mod 100 =? 0)) eqn:E.
  - cbn. rewrite E. reflexivity.
  - reflexivity.
Qed.

Lemma streaming_pace env t : emits streaming_event (pace env t).
Proof.
  unfold pace. apply emits_bind; [emits_auto|intros a]. cbv zeta.
  destruct (Z.ltb_spec (wrap32 (a - t)) FRAME_DELAY_MS) as [Hlt|Hge].
  - apply emits_emit. cbn.
    assert (0 <= wrap32 (a - t)) by (unfold wrap32; apply Z.mod_pos_bound; lia).
    unfold FRAME_DELAY_MS in *. apply andb_true_iff. split; lia.
  - apply emits_ret.
Qed.

Lemma streaming_reset : emits streaming_event reset_error_counter.
Proof. unfold reset_error_counter. emits_auto. Qed.

Lemma streaming_loop env : emits streaming_event (loop env).
Proof.
  unfold loop, loop_until_yield.
  emits_auto; try apply streaming_processFrame;
    try apply streaming_report_stats; try apply streaming_pace.
  apply streaming_reset.
Qed.

(** X7: a run of the sketch has two phases that share no display mode and
    no camera activity.  Everything [setup] does is start-up activity: no
    frame is acquired or returned, no bitmap drawn, no clock read, no yield,
    no statistics.  Everything the calls of [loop] do is streaming activity:
    clock and heap queries, frame acquisition and return, full-screen bitmap
    redraws at (0, 0) of size 128x64, statistics at positive multiples of 100
    frames, sleeps of 1 to 50 ms, yields and counter-reset notices; so no
    text is drawn, and the camera and the display are never initialised
    again. *)
Theorem arduino_main_two_phases env fuel iterations s :
  exists startup streaming,
    events_of (arduino_main env fuel iterations s) = startup ++ streaming /\
    startup = events_of (setup env fuel s) /\
    forallb startup_event startup = true /\
    forallb streaming_event streaming = true /\
    (result_of (setup env fuel s) <> SetupReturned -> streaming = []).
Proof.
  unfold arduino_main. rewrite events_of_bind.
  eexists _, _. split; [reflexivity|]. split; [reflexivity|].
  split; [apply startup_setup|].
  destruct (result_of (setup env fuel s)); split;
    try (intros; reflexivity); try (intros H; now contradiction H).
  apply emits_bind; [|intros ?; apply emits_ret].
  apply emits_forever, streaming_loop.
Qed.

(** ** Frame buffers *)

Lemma frame_protocol_app a b :
  forall held, frame_protocol held a -> frame_protocol None b ->
  frame_protocol held (a ++ b).
Proof.
  induction a as [|e a IH]; intros held Ha Hb.
  - cbn in Ha. subst held. exact Hb.
  - destruct e; cbn in Ha |- *;
      try (apply IH; assumption);
      destruct Ha as [Hh Ha]; (split; [exact Hh|apply IH; assumption]).
Qed.

Lemma frame_protocol_quiet evs :
  forallb frame_free evs = true ->
  frame_protocol None evs.
Proof.
  induction evs as [|e evs IH]; intros H; [reflexivity|].
  cbn [forallb] in H. apply andb_true_iff in H as [He H].
  destruct e; try discriminate He; cbn; apply IH; exact H.
Qed.

Lemma startup_quiet e :
  startup_event e = true -> frame_free e = true.
Proof. destruct e; try reflexivity; discriminate. Qed.

Lemma disciplined_bind {A B} (m : M A) (k : A -> M B) :
  traces (frame_protocol None) m -> (forall a, traces (frame_protocol None) (k a)) ->
  traces (frame_protocol None) (bind m k).
Proof.
  apply traces_bind. intros a b. apply frame_protocol_app.
Qed.

Lemma disciplined_quiet {A} (m : M A) :
  emits frame_free m ->
  traces (frame_protocol None) m.
Proof. intros H s. apply frame_protocol_quiet, H. Qed.

Lemma frame_free_millis env : emits frame_free (millis env).
Proof. emits_auto. Qed.

Lemma frame_free_report_stats env : emits frame_free (report_stats env).
Proof. unfold report_stats. emits_auto. Qed.

Lemma frame_free_pace env t : emits frame_free (pace env t).
Proof. unfold pace. emits_auto. Qed.

Lemma frame_free_reset : emits frame_free reset_error_counter.
Proof. unfold reset_error_counter. emits_auto. Qed.

Lemma disciplined_processFrame env :
  traces (frame_protocol None) (processFrame env).
Proof.
  intros s. unfold processFrame, bind, get_state, esp_camera_fb_get,
    esp_camera_fb_return, incr_errorCount, incr_frameCount, convert_into_buffer,
    set_errorCount, set_frameCount, set_bitmapBuffer, emit, ret.
  destruct (cameraInitialized s); cbn; [|reflexivity].
  destruct (esp_camera_fb_get_result env (fb_calls s)) as [f|]; cbn.
  - destruct (frame_mismatch f); cbn; repeat split.
  - repeat split.
Qed.

Lemma disciplined_loop env : traces (frame_protocol None) (loop env).
Proof.
  unfold loop, loop_until_yield.
  apply disciplined_bind.
  - apply disciplined_bind;
      [apply disciplined_quiet, frame_free_millis|intros t].
    apply disciplined_bind; [apply disciplined_processFrame|intros ok].
    apply disciplined_bind;
      [apply disciplined_quiet, frame_free_report_stats|intros _].
    apply disciplined_bind;
      [apply disciplined_quiet, frame_free_pace|intros _].
    apply disciplined_quiet. emits_auto.
  - intros _. apply disciplined_quiet, frame_free_reset.
Qed.

(** X8: the sketch keeps the camera driver's frame-buffer discipline over
    the whole run, for every behaviour of the collaborators: it holds at most
    one frame at a time, returns exactly the frame it acquired, returns it
    before it draws, and holds none when it stops being observed. *)
Theorem arduino_main_frame_discipline env fuel iterations s :
  frame_protocol None (events_of (arduino_main env fuel iterations s)).
Proof.
  revert s. change (traces (frame_protocol None) (arduino_main env fuel iterations)).
  unfold arduino_main. apply disciplined_bind.
  - apply disciplined_quiet.
    apply (emits_weaken startup_event); [apply startup_quiet|apply startup_setup].
  - intros r. destruct r; try (apply traces_ret; reflexivity).
    apply disciplined_bind; [|intros _; apply traces_ret; reflexivity].
    apply traces_forever; [reflexivity|intros a b; apply frame_protocol_app|].
    apply disciplined_loop.
Qed.

(** ** One turn of [loop], on the globals *)

Lemma processFrame_step env s :
  let r := processFrame env s in
  exists (drew : bool) (e' : Z),
    result_of r = drew /\
    frameCount (state_of r) =
      (if drew then wrap32 (frameCount s + 1) else frameCount s) /\
    count_events is_bitmap_draw (events_of r) = (if drew then 1 else 0)%nat /\
    (e' = errorCount s \/ e' = wrap32 (errorCount s + 1)) /\
    errorCount (state_of r) = e' /\
    (bitmapBuffer (state_of r) = bitmapBuffer s \/
     exists f, bitmapBuffer (state_of r) =
               convertFrameToBitmap (Some f) (bitmapBuffer s)) /\
    cameraInitialized (state_of r) = cameraInitialized s /\
    sys_calls (state_of r) = sys_calls s /\
    total_delay (events_of r) = 0.
Proof.
  unfold processFrame, bind, get_state, esp_camera_fb_get,
    esp_camera_fb_return, incr_errorCount, incr_frameCount, convert_into_buffer,
    set_errorCount, set_frameCount, set_bitmapBuffer, emit, ret.
  destruct (cameraInitialized s) eqn:Hci; cbn.
  - destruct (esp_camera_fb_get_result env (fb_calls s)) as [f|]; cbn.
    + destruct (frame_mismatch f); cbn.
      * exists false, (wrap32 (errorCount s + 1)). repeat split; auto.
      * exists true, (errorCount s). repeat split; eauto.
    + exists false, (wrap32 (errorCount s + 1)). repeat split; auto.
  - exists false, (errorCount s). repeat split; auto.
Qed.

Lemma quiet_counts evs :
  forallb frame_free evs = true ->
  count_events is_bitmap_draw evs = 0%nat.
Proof.
  apply count_events_none. intros e He. unfold frame_free in He.
  destruct (is_bitmap_draw e); [|reflexivity].
  rewrite andb_false_r in He. discriminate.
Qed.

Lemma loop_step env s :
  exists (drew : bool) (e' : Z),
    frameCount (state_of (loop env s)) =
      (if drew then wrap32 (frameCount s + 1) else frameCount s) /\
    count_events is_bitmap_draw (events_of (loop env s)) =
      (if drew then 1 else 0)%nat /\
    (e' = errorCount s \/ e' = wrap32 (errorCount s + 1)) /\
    errorCount (state_of (loop env s)) = (if 1000 <? e' then 0 else e') /\
    (bitmapBuffer (state_of (loop env s)) = bitmapBuffer s \/
     exists f, bitmapBuffer (state_of (loop env s)) =
               convertFrameToBitmap (Some f) (bitmapBuffer s)) /\
    cameraInitialized (state_of (loop env s)) = cameraInitialized s /\
    drew = result_of (processFrame env (state_of (millis env s))).
Proof.
  set (s0 := state_of (millis env s)).
  destruct (processFrame_step env s0)
    as (drew & e' & Hres & Hf & Hd & He & He' & Hb & Hci & _).
  change (frameCount s0) with (frameCount s) in Hf.
  change (errorCount s0) with (errorCount s) in He.
  change (bitmapBuffer s0) with (bitmapBuffer s) in Hb.
  change (cameraInitialized s0) with (cameraInitialized s) in Hci.
  set (s1 := state_of (processFrame env s0)) in *.
  pose proof (report_stats_run env s1) as Hrep.
  set (s2 := state_of (report_stats env s1)).
  assert (H2 : frameCount s2 = frameCount s1 /\ errorCount s2 = errorCount s1 /\
               bitmapBuffer s2 = bitmapBuffer s1 /\
               cameraInitialized s2 = cameraInitialized s1).
  { unfold s2. rewrite Hrep. unfold state_of. cbn [fst snd].
    destruct (stats_due s1); repeat split. }
  destruct H2 as (H2f & H2e & H2b & H2c).
  assert (Hq2 : count_events is_bitmap_draw (events_of (report_stats env s1)) = 0%nat).
  { rewrite Hrep. unfold events_of. cbn [snd]. destruct (stats_due s1); reflexivity. }
  destruct (pace_run env (result_of (millis env s)) s2) as (ev3 & Hpace & _).
  assert (Hq3 : count_events is_bitmap_draw ev3 = 0%nat).
  { apply quiet_counts.
    change ev3 with (events_of (tt, with_sys_calls s2 (S (sys_calls s2)), ev3)).
    rewrite <- Hpace. apply frame_free_pace. }
  exists drew, e'.
  unfold loop, loop_until_yield.
  rewrite !events_of_bind, !state_of_bind.
  fold s0. fold s1. fold s2.
  rewrite Hpace. rewrite reset_error_counter_run.
  unfold yield, emit, ret. proj_run.
  cbn [frameCount errorCount bitmapBuffer cameraInitialized with_sys_calls].
  rewrite !count_events_app, Hd, Hq2, Hq3.
  replace (count_events is_bitmap_draw (events_of (millis env s))) with 0%nat
    by reflexivity.
  rewrite H2f, H2e, H2b, H2c, He'.
  split; [exact Hf|]. split.
  { destruct drew, (1000 <? e'); reflexivity. }
  split; [exact He|]. split; [reflexivity|]. split; [exact Hb|].
  split; [exact Hci|]. symmetry. exact Hres.
Qed.

Lemma wrap32_range z : 0 <= wrap32 z < 2 ^ 32.
Proof. unfold wrap32. apply Z.mod_pos_bound. lia. Qed.

Lemma loop_globals_ok env s : globals_ok s -> globals_ok (state_of (loop env s)).
Proof.
  intros (Hf & He & Hlen & Hu).
  destruct (loop_step env s) as (drew & e' & Ef & _ & He' & Ee & Eb & _).
  unfold globals_ok. rewrite Ef, Ee. split; [|split].
  - destruct drew; [apply wrap32_range|exact Hf].
  - destruct (Z.ltb_spec 1000 e'); [lia|].
    destruct He' as [->| ->]; [lia|]. pose proof (wrap32_range (errorCount s + 1)). lia.
  - destruct Eb as [->|[f ->]]; [split; assumption|].
    apply convert_buffer_shape; assumption.
Qed.

Lemma setup_globals env fuel s :
  frameCount (state_of (setup env fuel s)) = frameCount s /\
  errorCount (state_of (setup env fuel s)) = errorCount s /\
  bitmapBuffer (state_of (setup env fuel s)) = bitmapBuffer s.
Proof.
  destruct (display_begin_ok env) eqn:Hd.
  - destruct (setup_display_ok env fuel s Hd) as (n & pre & cam & post & -> & _).
    repeat split.
  - destruct (setup_display_failed env fuel s Hd) as (n & evs & -> & _).
    repeat split.
Qed.

Lemma forever_loop_globals_ok env iterations :
  forall s, globals_ok s -> globals_ok (state_of (forever iterations (loop env) s)).
Proof.
  induction iterations as [|n IH]; intros s Hs; cbn [forever].
  - exact Hs.
  - rewrite state_of_bind. apply IH, loop_globals_ok, Hs.
Qed.

Lemma forever_loop_frameCount env iterations :
  forall s, 0 <= frameCount s < 2 ^ 32 ->
  frameCount (state_of (forever iterations (loop env) s)) =
  wrap32 (frameCount s +
          Z.of_nat (count_events is_bitmap_draw
                      (events_of (forever iterations (loop env) s)))).
Proof.
  induction iterations as [|n IH]; intros s Hs; cbn [forever].
  - cbn. unfold wrap32. rewrite Z.add_0_r, Z.mod_small by exact Hs. reflexivity.
  - rewrite state_of_bind, events_of_bind, count_events_app.
    destruct (loop_step env s) as (drew & e' & Ef & Ed & _).
    rewrite IH; rewrite Ef, ?Ed.
    + destruct drew.
      * unfold wrap32. rewrite Zplus_mod_idemp_l. f_equal. lia.
      * f_equal.
    + destruct drew; [apply wrap32_range|exact Hs].
Qed.

(** X9: the globals keep their C types and the sketch's own bounds over the
    whole run, whatever the collaborators answer: [frameCount] stays a
    [uint32_t], [errorCount] stays between 0 and 1000 from one call of
    [loop] to the next, and [bitmapBuffer] stays an array of 1024 bytes. *)
Theorem arduino_main_keeps_globals_ok env fuel iterations s :
  globals_ok s -> globals_ok (state_of (arduino_main env fuel iterations s)).
Proof.
  intros Hs.
  assert (Hup : globals_ok (state_of (setup env fuel s))).
  { destruct (setup_globals env fuel s) as (Ef & Ee & Eb).
    unfold globals_ok. rewrite Ef, Ee, Eb. exact Hs. }
  unfold arduino_main. rewrite state_of_bind.
  destruct (result_of (setup env fuel s)); try exact Hup.
  rewrite state_of_bind. apply forever_loop_globals_ok, Hup.
Qed.

(** X10: [frameCount] counts the bitmaps drawn: at any point of a run its
    value is the value it started from plus the number of bitmaps sent to
    the display, modulo 2^32. *)
Theorem frameCount_counts_drawn_bitmaps env fuel iterations s :
  0 <= frameCount s < 2 ^ 32 ->
  let run := arduino_main env fuel iterations s in
  frameCount (state_of run) =
  wrap32 (frameCount s +
          Z.of_nat (count_events is_bitmap_draw (events_of run))).
Proof.
  intros Hs run. subst run.
  destruct (setup_globals env fuel s) as (Ef & _ & _).
  assert (Hq : count_events is_bitmap_draw (events_of (setup env fuel s)) = 0%nat).
  { apply quiet_counts.
    apply (forallb_weaken startup_event); [apply startup_quiet|].
    apply startup_setup. }
  unfold arduino_main.
  rewrite state_of_bind, events_of_bind, count_events_app, Hq.
  destruct (result_of (setup env fuel s)).
  - rewrite state_of_bind, events_of_bind. cbn [ret state_of events_of fst snd].
    rewrite app_nil_r.
    fold (state_of (forever iterations (loop env) (state_of (setup env fuel s)))).
    fold (events_of (forever iterations (loop env) (state_of (setup env fuel s)))).
    rewrite forever_loop_frameCount by (rewrite Ef; exact Hs).
    rewrite Ef. reflexivity.
  - cbn. rewrite Ef. unfold wrap32.
    rewrite Z.add_0_r, Z.mod_small by exact Hs. reflexivity.
  - cbn. rewrite Ef. unfold wrap32.
    rewrite Z.add_0_r, Z.mod_small by exact Hs. reflexivity.
Qed.

(** ** One frame, end to end *)

Lemma frame_mismatch_none f :
  width f = 96 -> height f = 96 -> format f = PIXFORMAT_GRAYSCALE ->
  frame_mismatch f = false.
Proof.
  intros Hw Hh Hf. destruct (frame_mismatch f) eqn:E; [|reflexivity].
  apply frame_mismatch_spec in E. tauto.
Qed.

(** X11: a good frame reaches the screen as the converter defines it: when
    the camera hands out a 96x96 grayscale frame with its pixel data,
    [processFrame] returns the frame to the driver and then sends the display
    exactly the packed bitmap of the threshold tests at the sampled pixels,
    leaves that bitmap in [bitmapBuffer], counts one frame and no error. *)
Theorem processFrame_shows_converted_frame env s f gray :
  cameraInitialized s = true ->
  esp_camera_fb_get_result env (fb_calls s) = Some f ->
  width f = 96 -> height f = 96 -> format f = PIXFORMAT_GRAYSCALE ->
  buf f = Some gray -> 96 * 96 <= len f ->
  Z.of_nat (length (bitmapBuffer s)) = BITMAP_BYTES ->
  let r := processFrame env s in
  result_of r = true /\
  events_of r =
    [EFbGet (Some f); EFbReturn f; EDisplayClear;
     EDisplayDrawBitmap 0 0 (packed_bitmap (sampled_lit gray)) BMP_W BMP_H 1;
     EDisplayFlush] /\
  bitmapBuffer (state_of r) = packed_bitmap (sampled_lit gray) /\
  frameCount (state_of r) = wrap32 (frameCount s + 1) /\
  errorCount (state_of r) = errorCount s.
Proof.
  intros Hci Hfb Hw Hh Hfmt Hbuf Hlen Hdest r. subst r.
  rewrite (processFrame_succeeded env s f Hci Hfb
             (frame_mismatch_none f Hw Hh Hfmt)).
  rewrite (convert_valid_frame f gray _ Hbuf Hlen Hdest), convert_loops_packed.
  repeat split.
Qed.

(** X12: a frame that passes the size and format check of [processFrame]
    but is refused by the converter's own guard (no pixel data, or fewer than
    96 * 96 bytes) is not an error: [processFrame] reports success, counts a
    frame, and redraws the previous bitmap. *)
Theorem processFrame_redraws_previous_bitmap env s f :
  cameraInitialized s = true ->
  esp_camera_fb_get_result env (fb_calls s) = Some f ->
  width f = 96 -> height f = 96 -> format f = PIXFORMAT_GRAYSCALE ->
  (buf f = None \/ len f < 96 * 96) ->
  let r := processFrame env s in
  result_of r = true /\
  events_of r =
    [EFbGet (Some f); EFbReturn f; EDisplayClear;
     EDisplayDrawBitmap 0 0 (bitmapBuffer s) BMP_W BMP_H 1; EDisplayFlush] /\
  bitmapBuffer (state_of r) = bitmapBuffer s /\
  frameCount (state_of r) = wrap32 (frameCount s + 1) /\
  errorCount (state_of r) = errorCount s.
Proof.
  intros Hci Hfb Hw Hh Hfmt Hguard r. subst r.
  rewrite (processFrame_succeeded env s f Hci Hfb
             (frame_mismatch_none f Hw Hh Hfmt)).
  rewrite (convert_guard_fails f _ Hguard).
  repeat split.
Qed.

(** ** Pacing *)

Lemma total_delay_app a b : total_delay (a ++ b) = total_delay a + total_delay b.
Proof.
  induction a as [|e a IH]; [reflexivity|].
  cbn [app]. unfold total_delay in *. cbn [foldr]. rewrite IH.
  destruct e; lia.
Qed.

Lemma wrap32_elapsed t0 t1 :
  t0 <= t1 < t0 + 2 ^ 32 -> wrap32 (wrap32 t1 - wrap32 t0) = t1 - t0.
Proof.
  intros H. unfold wrap32.
  rewrite Zminus_mod_idemp_l, Zminus_mod_idemp_r.
  apply Z.mod_small. lia.
Qed.

(** X13: the pacing of [loop] survives the roll-over of the 32-bit
    millisecond clock.  With [t0] and [t1] the true times at which the two
    calls of [millis()] are served, [t1] less than 2^32 ms after [t0], the
    turn sleeps [50 - (t1 - t0)] ms if that is positive and not at all
    otherwise, so that a turn never lasts less than 50 ms. *)
Theorem loop_frame_period env s :
  let t0 := sys_value env QMillis (sys_calls s) in
  let k := (S (sys_calls s) +
            (if stats_due (at_report env s) then 1 else 0))%nat in
  let t1 := sys_value env QMillis k in
  t0 <= t1 < t0 + 2 ^ 32 ->
  total_delay (events_of (loop env s)) = Z.max 0 (FRAME_DELAY_MS - (t1 - t0)) /\
  FRAME_DELAY_MS <= (t1 - t0) + total_delay (events_of (loop env s)).
Proof.
  intros t0 k t1 Ht.
  assert (Hmain : total_delay (events_of (loop env s)) =
                  Z.max 0 (FRAME_DELAY_MS - (t1 - t0))).
  2:{ split; [exact Hmain|]. rewrite Hmain. lia. }
  destruct (processFrame_step env (state_of (millis env s)))
    as (drew & e' & _ & _ & _ & _ & _ & _ & _ & Hsys & Hdel).
  change (sys_calls (state_of (millis env s))) with (S (sys_calls s)) in Hsys.
  change (state_of (processFrame env (state_of (millis env s))))
    with (at_report env s) in Hsys.
  pose proof (report_stats_run env (at_report env s)) as Hrep.
  set (s1 := at_report env s) in *.
  set (s2 := state_of (report_stats env s1)).
  assert (Hk : sys_calls s2 = k).
  { unfold s2, k. rewrite Hrep. unfold state_of. cbn [fst snd].
    destruct (stats_due s1); cbn [with_sys_calls sys_calls]; lia. }
  assert (Hq2 : total_delay (events_of (report_stats env s1)) = 0).
  { rewrite Hrep. unfold events_of. cbn [snd]. destruct (stats_due s1); reflexivity. }
  assert (Hpace : total_delay (events_of (pace env (result_of (millis env s)) s2)) =
                  Z.max 0 (FRAME_DELAY_MS - (t1 - t0))).
  { unfold pace, millis, sys, delay, emit, bind, ret. cbn.
    rewrite Hk. fold t0. fold t1. rewrite (wrap32_elapsed t0 t1 Ht).
    destruct (Z.ltb_spec (t1 - t0) FRAME_DELAY_MS); cbn; lia. }
  unfold loop, loop_until_yield.
  rewrite !events_of_bind, !state_of_bind.
  change (state_of (processFrame env (state_of (millis env s)))) with s1.
  fold s2.
  rewrite reset_error_counter_run.
  rewrite !total_delay_app, Hq2, Hpace, Hdel.
  unfold yield, emit, ret. proj_run.
  replace (total_delay (events_of (millis env s))) with 0 by reflexivity.
  destruct (1000 <? _); cbn; lia.
Qed.

(** ** What [initCamera] asks of the camera driver *)

Lemma filter_camera_passive evs :
  forallb passive evs = true -> List.filter is_camera_event evs = [].
Proof.
  induction evs as [|e evs IH]; intros H; [reflexivity|].
  cbn [forallb] in H. apply andb_true_iff in H as [He H].
  cbn [List.filter]. rewrite (off_camera_no_camera e (passive_off_camera e He)).
  apply IH, H.
Qed.

Lemma report_init_error_camera err s :
  exists evs, report_init_error err s = (tt, s, evs) /\
              List.filter is_camera_event evs = [].
Proof.
  unfold report_init_error, Serial_println, Serial_printf, emit.
  destruct (err =? ESP_ERR_NO_MEM); [eexists; split; reflexivity|].
  destruct (err =? ESP_ERR_INVALID_ARG); [eexists; split; reflexivity|].
  destruct (err =? ESP_FAIL); eexists; split; reflexivity.
Qed.

Lemma initCamera_attempts_camera env attempts :
  forall s,
  List.filter is_camera_event (events_of (initCamera_attempts env attempts s)) =
  camera_calls (esp_camera_init_result env) (esp_camera_sensor_present env)
    (init_calls s) attempts.
Proof.
  induction attempts as [|a rest IH]; intros s; [reflexivity|].
  cbn [initCamera_attempts camera_calls].
  unfold Serial_printf at 1. unfold emit.
  rewrite (bind_run _ _ s tt s [ESerialPrintf "Camera init attempt %d/%d...\n" [a; MAX_RETRIES]] eq_refl).
  destruct (calm_printMemoryInfo env s) as ([] & n1 & ev1 & Hmem & Hp1).
  apply filter_camera_passive in Hp1.
  rewrite (bind_run _ _ _ _ _ _ Hmem).
  set (s1 := with_sys_calls s n1).
  set (err := esp_camera_init_result env (init_calls s)).
  assert (Hinit : esp_camera_init env camera_config s1 =
            (err, mk_state (frameCount s) (errorCount s) (cameraInitialized s)
                    (bitmapBuffer s) n1 (S (init_calls s)) (fb_calls s),
             [ECameraInit camera_config err])) by reflexivity.
  rewrite (bind_run _ _ _ _ _ _ Hinit).
  set (s2 := mk_state _ _ _ _ n1 _ _).
  cbv zeta.
  destruct (err =? ESP_OK) eqn:Herr.
  - subst s2 s1.
    unfold Serial_println, Serial_printf, emit, esp_camera_sensor_get,
      set_cameraInitialized, bind.
    destruct (esp_camera_sensor_present env); cbn;
      rewrite ?List.filter_app, Hp1; reflexivity.
  - cbn [result_of state_of events_of fst snd].
    destruct (report_init_error_camera err s2) as (ev3 & Herrmsg & Hq3).
    pose proof (IH s2) as Hq4.
    destruct (initCamera_attempts env rest s2) as [[ok4 s4] ev4] eqn:Hrec.
    cbn [init_calls events_of snd] in Hq4. subst s2.
    unfold Serial_printf, delay, esp_camera_deinit, emit, bind, ret.
    rewrite Herrmsg.
    destruct (a <? MAX_RETRIES); cbv beta iota; rewrite Hrec; cbn;
      rewrite ?List.filter_app, Hp1; cbn;
      rewrite ?List.filter_app, Hq3; cbn; rewrite ?Hq4; reflexivity.
Qed.

Lemma initCamera_camera env s :
  List.filter is_camera_event (events_of (initCamera env s)) =
  camera_calls (esp_camera_init_result env) (esp_camera_sensor_present env)
    (init_calls s) [1; 2; 3; 4; 5].
Proof.
  unfold initCamera.
  destruct (calm_printMemoryInfo env s) as ([] & n1 & ev1 & Hmem & Hp1).
  apply filter_camera_passive in Hp1.
  pose proof (initCamera_attempts_camera env (seqZ 1 MAX_RETRIES)
                (with_sys_calls s n1)) as Hq2.
  rewrite seq_retries in Hq2 |- *.
  destruct (initCamera_attempts env [1; 2; 3; 4; 5] (with_sys_calls s n1))
    as [[ok s2] ev2] eqn:Hatt.
  cbn [with_sys_calls init_calls events_of snd] in Hq2.
  unfold Serial_println, Serial_printf, power_cycle, delay, emit, bind, ret.
  rewrite Hmem. cbv beta iota. rewrite Hatt.
  destruct ok; cbn; rewrite ?List.filter_app, Hp1; cbn;
    rewrite ?List.filter_app, Hq2; cbn; rewrite ?app_nil_r; reflexivity.
Qed.

Lemma filter_filter_sub (p q : Event -> bool) evs :
  (forall e, p e = true -> q e = true) ->
  List.filter p (List.filter q evs) = List.filter p evs.
Proof.
  intros Hpq. induction evs as [|e evs IH]; [reflexivity|].
  cbn [List.filter]. destruct (q e) eqn:Eq.
  - cbn [List.filter]. rewrite IH. reflexivity.
  - rewrite IH. destruct (p e) eqn:Ep; [|reflexivity].
    rewrite (Hpq e Ep) in Eq. discriminate.
Qed.

Lemma total_delay_control evs : total_delay (control_trace evs) = total_delay evs.
Proof.
  induction evs as [|e evs IH]; [reflexivity|].
  unfold control_trace, total_delay in *. cbn [List.filter].
  destruct e; cbn [is_control foldr]; rewrite ?IH; reflexivity.
Qed.

Ltac ok_results :=
  repeat match goal with
         | H : (_ =? ESP_OK) = true |- _ => apply Z.eqb_eq in H; rewrite ?H
         end.

(** X14: [initCamera] deinitialises the driver after every failed attempt
    that is followed by another one, and only then: the number of
    [esp_camera_deinit] calls is the number of [esp_camera_init] calls minus
    one, and when [initCamera] succeeds the last of these calls is the
    successful [esp_camera_init], so the driver is left initialised. *)
Theorem initCamera_deinit_between_attempts env s :
  let r := initCamera env s in
  let evs := events_of r in
  S (count_events is_camera_deinit evs) = count_events is_camera_init evs /\
  (result_of r = true ->
   last (List.filter (fun e => is_camera_init e || is_camera_deinit e) evs) =
   Some (ECameraInit camera_config ESP_OK)).
Proof.
  intros r evs. subst evs r.
  destruct (initCamera_observed env s) as (-> & _).
  unfold count_events.
  rewrite <- (filter_filter_sub is_camera_deinit is_camera_event)
    by (intros e; destruct e; cbn; congruence).
  rewrite <- (filter_filter_sub is_camera_init is_camera_event)
    by (intros e; destruct e; cbn; congruence).
  rewrite <- (filter_filter_sub (fun e => is_camera_init e || is_camera_deinit e)
                is_camera_event)
    by (intros e; destruct e; cbn; congruence).
  rewrite initCamera_camera. unfold init_ok. rewrite seq_retries.
  generalize (esp_camera_init_result env) (init_calls s)
    (esp_camera_sensor_present env). intros res k p.
  cbn [camera_calls attempts_ok]. cbv zeta.
  split_results; destruct p; cbn; ok_results;
    (split; [reflexivity|]); intros H; try discriminate H; reflexivity.
Qed.

(** X15: the sensor is tuned exactly when [initCamera] succeeds and the
    driver hands out a sensor handle: then the fourteen settings of the
    sketch are applied once, in the order of the source (gain ceiling 4,
    AEC value 400, AGC gain 5; white balance, gain and exposure control on);
    otherwise no setting is touched. *)
Theorem initCamera_tunes_sensor_on_success env s :
  let r := initCamera env s in
  List.filter is_sensor_set (events_of r) =
  if result_of r && esp_camera_sensor_present env
  then map (fun nv => ESensorSet (fst nv) (snd nv)) sensor_settings
  else [].
Proof.
  intros r. subst r.
  destruct (initCamera_observed env s) as (-> & _).
  rewrite <- (filter_filter_sub is_sensor_set is_camera_event)
    by (intros e; destruct e; cbn; congruence).
  rewrite initCamera_camera. unfold init_ok. rewrite seq_retries.
  generalize (esp_camera_init_result env) (init_calls s)
    (esp_camera_sensor_present env). intros res k p.
  cbn [camera_calls attempts_ok]. cbv zeta.
  split_results; destruct p; reflexivity.
Qed.

Lemma initCamera_delay env s :
  total_delay (events_of (initCamera env s)) =
  200 + 500 * (Z.of_nat (init_made env s) * Z.of_nat (init_made env s) - 1) /\
  total_delay (events_of (initCamera env s)) <= 12200.
Proof.
  rewrite <- total_delay_control. unfold init_made.
  destruct (initCamera_run env s) as (n & evs & -> & Hq).
  unfold events_of. cbn [snd]. rewrite Hq, seq_retries.
  generalize (esp_camera_init_result env) (init_calls s)
    (esp_camera_sensor_present env). intros res k p.
  cbn [attempts_trace attempts_made]. cbv zeta.
  split_results; split; reflexivity || (cbv; discriminate).
Qed.

(** X16: the time [initCamera] spends sleeping is a function of the number
    [n] of attempts it makes: 200 ms for the power cycle and
    [500 * (n * n - 1)] ms of back-off, at most 12.2 s in all. *)
Theorem initCamera_total_delay env s :
  let evs := events_of (initCamera env s) in
  let n := Z.of_nat (count_events is_camera_init evs) in
  total_delay evs = 200 + 500 * (n * n - 1) /\ total_delay evs <= 12200.
Proof.
  intros evs n. subst n evs.
  destruct (initCamera_observed env s) as (_ & _ & _ & _ & _ & -> & _).
  apply initCamera_delay.
Qed.

(** ** The course of [setup] *)

Lemma setup_events env fuel s :
  exists s1 s2 s3,
    init_calls s2 = init_calls s /\
    events_of (setup env fuel s) =
    events_of (setup_display env s) ++
    (if display_begin_ok env then
       events_of (display_ready env s1) ++ events_of (initCamera env s2) ++
       (if init_ok env s then events_of (announce_ready env s3)
        else events_of (halt_camera env fuel s3))
     else events_of (halt_display fuel s1)).
Proof.
  destruct (setup_display_run env s) as (n1 & ev1 & Hdisp & _).
  destruct (calm_display_ready env (with_sys_calls s n1))
    as ([] & n2 & ev2 & Hready & _).
  rewrite with_sys_calls_twice in Hready.
  exists (with_sys_calls s n1), (with_sys_calls s n2),
    (state_of (initCamera env (with_sys_calls s n2))).
  split; [reflexivity|].
  unfold setup. rewrite events_of_bind.
  rewrite Hdisp. proj_run.
  destruct (display_begin_ok env); cbn [negb].
  - rewrite events_of_bind, Hready. proj_run.
    rewrite events_of_bind.
    destruct (initCamera_observed env (with_sys_calls s n2)) as (-> & _).
    change (init_ok env (with_sys_calls s n2)) with (init_ok env s).
    destruct (init_ok env s); cbn [negb];
      rewrite events_of_bind; cbn [ret events_of snd];
      rewrite app_nil_r; reflexivity.
  - rewrite events_of_bind. cbn [ret events_of snd]. rewrite app_nil_r.
    reflexivity.
Qed.

Lemma setup_display_control env s :
  control_trace (events_of (setup_display env s)) =
  [EDelay STARTUP_DELAY_MS; EWireBegin I2C_SDA_PIN I2C_SCL_PIN;
   EWireSetClock 400000; EWireBeginTransmission OLED_ADDR;
   EWireEndTransmission (wire_endTransmission_status env);
   EDisplayBegin OLED_ADDR (display_begin_ok env)].
Proof.
  destruct s as [fc ec ci bb sc ic fbc].
  unfold setup_display, probe_oled, printMemoryInfo, Wire_endTransmission,
    display_begin, bind, sys, Serial_println, Serial_printf, delay, emit, ret.
  cbn.
  destruct (sys_value env QPsramFound (S (S sc)) =? 0);
    destruct (wire_endTransmission_status env =? 0); reflexivity.
Qed.

Lemma halt_display_control fuel s :
  control_trace (events_of (halt_display fuel s)) = replicate fuel (EDelay 5000).
Proof.
  unfold halt_display, Serial_println, Serial_printf.
  rewrite !events_of_bind, !control_trace_app. cbn [emit events_of snd state_of fst].
  cbn [control_trace List.filter is_control app].
  generalize s. clear s.
  induction fuel as [|n IH]; intros s; [reflexivity|].
  cbn [forever replicate]. rewrite events_of_bind, control_trace_app, IH.
  reflexivity.
Qed.

Lemma total_delay_forever d body :
  (forall s, total_delay (events_of (body s)) = d) ->
  forall fuel s,
    total_delay (events_of (forever fuel body s)) = Z.of_nat fuel * d.
Proof.
  intros Hb. induction fuel as [|n IH]; intros s; [reflexivity|].
  cbn [forever]. rewrite events_of_bind, total_delay_app, Hb, IH. lia.
Qed.

Lemma displayStatus_delay env msg stats s :
  total_delay (events_of (displayStatus env msg stats s)) = 0.
Proof. destruct stats; reflexivity. Qed.

Lemma display_ready_delay env s :
  total_delay (events_of (display_ready env s)) = 4000.
Proof. reflexivity. Qed.

Lemma announce_ready_delay env s :
  total_delay (events_of (announce_ready env s)) = 2000.
Proof. reflexivity. Qed.

Lemma halt_camera_delay env fuel s :
  total_delay (events_of (halt_camera env fuel s)) = 20000 * Z.of_nat fuel.
Proof.
  unfold halt_camera, Serial_println.
  rewrite !events_of_bind, !total_delay_app, displayStatus_delay.
  rewrite (total_delay_forever 20000).
  - cbn. lia.
  - intros s'. unfold delay. rewrite !events_of_bind, !total_delay_app.
    rewrite displayStatus_delay. reflexivity.
Qed.

(** X17: [setup] brings the display up before anything else and touches no
    other device first: after the 3 s of power stabilisation its device
    activity starts with the I2C bus on pins 15 and 14 at 400 kHz, the probe
    of address 0x3C and the driver init; when the driver init fails nothing
    follows but one 5 s sleep per turn of the halt loop, for ever. *)
Theorem setup_brings_up_display_first env fuel s :
  exists rest,
    control_trace (events_of (setup env fuel s)) =
    [EDelay STARTUP_DELAY_MS; EWireBegin I2C_SDA_PIN I2C_SCL_PIN;
     EWireSetClock 400000; EWireBeginTransmission OLED_ADDR;
     EWireEndTransmission (wire_endTransmission_status env);
     EDisplayBegin OLED_ADDR (display_begin_ok env)] ++ rest /\
    (display_begin_ok env = false -> rest = replicate fuel (EDelay 5000)).
Proof.
  destruct (setup_events env fuel s) as (s1 & s2 & s3 & _ & ->).
  rewrite control_trace_app, setup_display_control.
  eexists. split; [reflexivity|].
  intros ->. apply halt_display_control.
Qed.

(** X18: how long [setup] sleeps.  With a working display and [n] camera
    attempts: 3 s of power stabilisation, 4 s of display test,
    [200 + 500 * (n * n - 1)] ms of camera bring-up, and then 2 s before
    streaming if the camera is up, or 20 s per turn of the fatal loop if it
    is not.  With a dead display: 3 s, then 5 s per turn of the halt loop. *)
Theorem setup_total_delay env fuel s :
  let n := Z.of_nat (init_made env s) in
  total_delay (events_of (setup env fuel s)) =
  if display_begin_ok env then
    3000 + 4000 + (200 + 500 * (n * n - 1)) +
    (if init_ok env s then 2000 else 20000 * Z.of_nat fuel)
  else 3000 + 5000 * Z.of_nat fuel.
Proof.
  intros n. subst n.
  destruct (setup_events env fuel s) as (s1 & s2 & s3 & Hic & ->).
  rewrite total_delay_app.
  rewrite <- (total_delay_control (events_of (setup_display env s))).
  rewrite setup_display_control.
  match goal with |- total_delay ?l + _ = _ =>
    replace (total_delay l) with 3000 by reflexivity end.
  destruct (display_begin_ok env).
  - rewrite !total_delay_app, display_ready_delay.
    destruct (initCamera_delay env s2) as [-> _].
    unfold init_made. rewrite Hic.
    destruct (init_ok env s).
    + rewrite announce_ready_delay. lia.
    + rewrite halt_camera_delay. lia.
  - rewrite <- total_delay_control, halt_display_control.
    f_equal. induction fuel as [|k IH]; [reflexivity|].
    cbn [replicate]. change (total_delay (EDelay 5000 :: ?l))
      with (5000 + total_delay l).
    rewrite IH. lia.
Qed.

(** ** Statistics *)

(** X19: the statistics are tied to the value of [frameCount], not to its
    change: on a turn of [loop] whose frame fails while [frameCount] rests at
    a positive multiple of 100, the statistics are printed again, with the
    error just counted. *)
Theorem stats_repeat_while_frames_fail env s :
  cameraInitialized s = true ->
  0 < frameCount s -> frameCount s mod 100 = 0 ->
  next_frame_fails env s = true ->
  reported_rate (events_of (loop env s)) =
  Some (errorRate_expr (frameCount s) (wrap32 (errorCount s + 1))) /\
  frameCount (state_of (loop env s)) = frameCount s.
Proof.
  intros Hci Hpos Hmod Hfail0.
  assert (Hfail : next_frame_fails env (state_of (millis env s)) = true)
    by exact Hfail0.
  assert (Hat : at_report env s =
                mk_state (frameCount s) (wrap32 (errorCount s + 1)) true
                  (bitmapBuffer s) (S (sys_calls s)) (init_calls s)
                  (S (fb_calls s))).
  { unfold at_report.
    rewrite (processFrame_failed env (state_of (millis env s)) Hci Hfail).
    unfold state_of. cbn. rewrite Hci. reflexivity. }
  assert (Hdue : stats_due (at_report env s) = true).
  { apply stats_due_spec. rewrite Hat. cbn. split; assumption. }
  split.
  - unfold loop. rewrite events_of_bind.
    rewrite reported_rate_app, loop_until_yield_rate.
    rewrite report_stats_run, Hdue. rewrite Hat. reflexivity.
  - destruct (loop_step env s) as (drew & e' & Ef & _ & _ & _ & _ & _ & Hres).
    rewrite Ef, Hres.
    rewrite (processFrame_failed env (state_of (millis env s)) Hci Hfail).
    reflexivity.
Qed.

(** ** The simulator against the firmware *)

Lemma simulator_src_table :
  all_below 128 (fun x =>
    match Simulator.src_of Simulator.scaleX x with
    | Some v => v =? srcX_of x
    | None => false
    end) = true /\
  all_below 64 (fun y =>
    match Simulator.src_of Simulator.scaleY y with
    | Some v => v =? srcY_of y
    | None => false
    end) = true.
Proof. split; vm_compute; reflexivity. Qed.

Lemma simulator_src x y :
  0 <= x < BMP_W -> 0 <= y < BMP_H ->
  Simulator.src_of Simulator.scaleX x = Some (srcX_of x) /\
  Simulator.src_of Simulator.scaleY y = Some (srcY_of y).
Proof.
  intros Hx Hy. destruct simulator_src_table as [Tx Ty].
  pose proof (all_below_spec _ _ Tx x Hx) as Ex.
  pose proof (all_below_spec _ _ Ty y Hy) as Ey.
  cbv beta in Ex, Ey.
  destruct (Simulator.src_of Simulator.scaleX x) as [vx|]; [|discriminate].
  destruct (Simulator.src_of Simulator.scaleY y) as [vy|]; [|discriminate].
  apply Z.eqb_eq in Ex, Ey. subst. split; reflexivity.
Qed.

Lemma simulator_gray_table :
  all_below 256 (fun p =>
    let g := Simulator.gray_of_level p in
    all_below 256 (fun T =>
      Bool.eqb (Simulator.Float64.gt g (Simulator.Float64.of_int T)) (T <? p)))
  = true.
Proof. vm_compute. reflexivity. Qed.

Lemma simulator_gray_decision p T :
  0 <= p <= 255 -> 0 <= T <= 255 ->
  Simulator.Float64.gt (Simulator.gray_of_level p) (Simulator.Float64.of_int T) =
  (T <? p).
Proof.
  intros Hp HT.
  pose proof (all_below_spec _ _ simulator_gray_table p ltac:(lia)) as H.
  cbv beta zeta in H.
  pose proof (all_below_spec _ _ H T ltac:(lia)) as H'.
  cbv beta in H'. apply eqb_prop in H'. exact H'.
Qed.

Lemma simulator_pixel_gray pixels gray T x y :
  (forall i, 0 <= i < 96 * 96 -> 0 <= byte_at gray i <= 255) ->
  (forall i c, 0 <= i < 96 * 96 -> 0 <= c < 3 ->
     pixels !! Z.to_nat (4 * i + c) = Some (byte_at gray i)) ->
  0 <= T <= 255 -> 0 <= x < BMP_W -> 0 <= y < BMP_H ->
  Simulator.pixel_color pixels T x y =
  if T <? byte_at gray (srcY_of y * 96 + srcX_of x)
  then Simulator.white else Simulator.black.
Proof.
  intros Hgray Hpix HT Hx Hy.
  destruct (simulator_src x y Hx Hy) as [Ex Ey].
  destruct (src_index_range x y Hx Hy) as (_ & _ & Hi).
  unfold Simulator.pixel_color. rewrite Ex, Ey. cbv zeta.
  set (i := srcY_of y * 96 + srcX_of x) in *.
  assert (Eg : Simulator.gray_at pixels (i * 4) =
               Simulator.gray_of_level (byte_at gray i)).
  { unfold Simulator.gray_at, Simulator.gray_of_level, Simulator.pixel_at.
    destruct (Z.ltb_spec (i * 4) 0); [lia|].
    destruct (Z.ltb_spec (i * 4 + 1) 0); [lia|].
    destruct (Z.ltb_spec (i * 4 + 2) 0); [lia|].
    replace (i * 4) with (4 * i + 0) at 1 by lia.
    replace (i * 4 + 1) with (4 * i + 1) by lia.
    replace (i * 4 + 2) with (4 * i + 2) by lia.
    rewrite !Hpix by lia. reflexivity. }
  rewrite Eg, simulator_gray_decision by (try apply Hgray; assumption).
  reflexivity.
Qed.

Lemma flat_map_ext_in {A B} (f g : A -> list B) l :
  (forall a, In a l -> f a = g a) -> flat_map f l = flat_map g l.
Proof.
  intros H. induction l as [|a l IH]; [reflexivity|].
  cbn [flat_map]. rewrite (H a) by (left; reflexivity).
  rewrite IH; [reflexivity|]. intros b Hb. apply H. right. exact Hb.
Qed.

(** X20: the simulator samples the source image exactly as the firmware
    does: for every canvas pixel, [Math.min(Math.floor(v * scale), 95)] in
    double precision is the firmware's source column and row computed in
    single precision, and the three colour bytes it reads lie inside the
    96 * 96 * 4 bytes of image data. *)
Theorem simulator_samples_like_firmware x y :
  0 <= x < BMP_W -> 0 <= y < BMP_H ->
  Simulator.src_of Simulator.scaleX x = Some (srcX_of x) /\
  Simulator.src_of Simulator.scaleY y = Some (srcY_of y) /\
  let srcIndex := (srcY_of y * 96 + srcX_of x) * 4 in
  0 <= srcIndex /\ srcIndex + 2 < 96 * 96 * 4.
Proof.
  intros Hx Hy. destruct (simulator_src x y Hx Hy) as [Ex Ey].
  destruct (src_index_range x y Hx Hy) as (_ & _ & Hi).
  split; [exact Ex|]. split; [exact Ey|]. cbv zeta. lia.
Qed.

(** X21: on a gray image (the three colour channels of every pixel equal)
    the simulator's floating-point test [0.299 R + 0.587 G + 0.114 B >
    threshold] is exact for every integer threshold of its slider: the pixel
    is white exactly when the gray level is above the threshold, although
    the three weights do not add up to 1 in double precision. *)
Theorem simulator_threshold_exact_on_gray pixels gray T x y :
  (forall i, 0 <= i < 96 * 96 -> 0 <= byte_at gray i <= 255) ->
  (forall i c, 0 <= i < 96 * 96 -> 0 <= c < 3 ->
     pixels !! Z.to_nat (4 * i + c) = Some (byte_at gray i)) ->
  0 <= T <= 255 -> 0 <= x < BMP_W -> 0 <= y < BMP_H ->
  Simulator.pixel_color pixels T x y =
  if T <? byte_at gray (srcY_of y * 96 + srcX_of x)
  then Simulator.white else Simulator.black.
Proof. apply simulator_pixel_gray. Qed.

(** X22: with its threshold set to the firmware's 64, the simulator paints
    on a gray image the picture the firmware puts on the display: it clears
    the canvas and then fills every canvas pixel [(x, y)], row by row, white
    exactly when the converter sets bit [(x, y)] of the bitmap. *)
Theorem simulator_matches_firmware_on_gray f pixels gray dest :
  buf f = Some gray -> 96 * 96 <= len f ->
  Z.of_nat (length dest) = BITMAP_BYTES ->
  (forall i, 0 <= i < 96 * 96 -> 0 <= byte_at gray i <= 255) ->
  (forall i c, 0 <= i < 96 * 96 -> 0 <= c < 3 ->
     pixels !! Z.to_nat (4 * i + c) = Some (byte_at gray i)) ->
  Simulator.processFrame true pixels BRIGHTNESS_THRESHOLD =
  [Simulator.FillStyle Simulator.black; Simulator.FillRect 0 0 128 64] ++
  flat_map (fun y =>
    flat_map (fun x =>
      [Simulator.FillStyle
         (if bitmap_bit (convertFrameToBitmap (Some f) dest) x y
          then Simulator.white else Simulator.black);
       Simulator.FillRect x y 1 1])
      (seqZ 0 BMP_W))
    (seqZ 0 BMP_H) ++
  [Simulator.RequestAnimationFrame].
Proof.
  intros Hbuf Hlen Hdest Hgray Hpix.
  unfold Simulator.processFrame. cbn [negb].
  apply (f_equal (app _)). apply (f_equal (fun l => l ++ _)).
  apply flat_map_ext_in. intros y Hy.
  apply flat_map_ext_in. intros x Hx.
  apply list_elem_of_In, elem_of_seqZ in Hx, Hy.
  rewrite Z.add_0_l in Hx, Hy.
  rewrite (convert_valid_frame f gray dest Hbuf Hlen Hdest).
  rewrite convert_loops_bit by (assumption || reflexivity).
  rewrite (simulator_pixel_gray pixels gray BRIGHTNESS_THRESHOLD x y);
    [reflexivity|assumption|assumption|unfold BRIGHTNESS_THRESHOLD; lia
    |assumption|assumption].
Qed.

(** ** The further properties at concrete inputs *)

Lemma byte_at_uniform p i :
  0 <= i < 96 * 96 -> byte_at (replicate (Z.to_nat 9216) p) i = p.
Proof.
  intros Hi. unfold byte_at. rewrite lookup_replicate_2 by lia. reflexivity.
Qed.

Lemma striped_agrees r c :
  0 <= r < 96 -> 0 <= c < 96 -> r mod 3 <> 2 ->
  byte_at (replicate (Z.to_nat 9216) 200) (r * 96 + c) =
  byte_at Fixture.striped_gray (r * 96 + c).
Proof.
  intros Hr Hc Hmod.
  assert (T : all_below 96 (fun r => all_below 96 (fun c =>
                (r mod 3 =? 2) ||
                (byte_at (replicate (Z.to_nat 9216) 200) (r * 96 + c) =?
                 byte_at Fixture.striped_gray (r * 96 + c)))) = true)
    by (vm_compute; reflexivity).
  pose proof (all_below_spec _ _ T r Hr) as Tr. cbv beta in Tr.
  pose proof (all_below_spec _ _ Tr c Hc) as Trc. cbv beta in Trc.
  apply orb_true_iff in Trc as [E|E]; [apply Z.eqb_eq in E; contradiction|].
  apply Z.eqb_eq in E. exact E.
Qed.

Lemma flat_image_lookup p i c :
  0 <= i < 96 * 96 -> 0 <= c < 3 ->
  Fixture.flat_image p !! Z.to_nat (4 * i + c) =
  Some (byte_at (replicate (Z.to_nat 9216) p) i).
Proof.
  intros Hi Hc. rewrite byte_at_uniform by exact Hi.
  unfold Fixture.flat_image. apply lookup_replicate_2. lia.
Qed.

Lemma convert_builds_packed_bitmap_witness :
  convertFrameToBitmap (Some (Scenario.uniform_frame 200)) (replicate 1024 0) =
  packed_bitmap (sampled_lit (replicate (Z.to_nat 9216) 200)).
Proof.
  apply (convert_builds_packed_bitmap (Scenario.uniform_frame 200));
    [reflexivity|cbn; lia|reflexivity].
Defined.


Lemma convert_ignores_every_third_row_witness :
  convertFrameToBitmap (Some (Scenario.uniform_frame 200)) (replicate 1024 0) =
  convertFrameToBitmap (Some Fixture.striped_frame) (replicate 1024 255).
Proof.
  apply (convert_ignores_every_third_row (Scenario.uniform_frame 200)
           Fixture.striped_frame (replicate (Z.to_nat 9216) 200)
           Fixture.striped_gray);
    [reflexivity|reflexivity|cbn; lia|cbn; lia|reflexivity|reflexivity|].
  exact striped_agrees.
Defined.

Lemma convert_uses_every_other_pixel_witness :
  exists x y, 0 <= x < BMP_W /\ 0 <= y < BMP_H /\
    srcX_of x = 95 /\ srcY_of y = 94 /\
    bitmap_bit (convertFrameToBitmap (Some Fixture.striped_frame)
                  (replicate 1024 255)) x y =
    (BRIGHTNESS_THRESHOLD <? byte_at Fixture.striped_gray (94 * 96 + 95)).
Proof.
  apply (convert_uses_every_other_pixel Fixture.striped_frame
           Fixture.striped_gray (replicate 1024 255) 94 95);
    [reflexivity|cbn; lia|reflexivity|lia|lia|].
  vm_compute. discriminate.
Defined.

Lemma convert_monotone_in_brightness_witness :
  bitmap_bit (convertFrameToBitmap (Some (Scenario.uniform_frame 200))
                (replicate 1024 0)) 127 63 = true.
Proof.
  apply (convert_monotone_in_brightness (Scenario.uniform_frame 100)
           (Scenario.uniform_frame 200) (replicate (Z.to_nat 9216) 100)
           (replicate (Z.to_nat 9216) 200) (replicate 1024 255)
           (replicate 1024 0) 127 63);
    [reflexivity|reflexivity|cbn; lia|cbn; lia|reflexivity|reflexivity|
     |unfold BMP_W; lia|unfold BMP_H; lia|vm_compute; reflexivity].
  intros i Hi. rewrite !byte_at_uniform by exact Hi. lia.
Defined.

Lemma convert_uniform_frame_witness :
  convertFrameToBitmap (Some (Scenario.uniform_frame 64)) (replicate 1024 255) =
  replicate (Z.to_nat BITMAP_BYTES) (if BRIGHTNESS_THRESHOLD <? 64 then 255 else 0).
Proof.
  apply (convert_uniform_frame (Scenario.uniform_frame 64)
           (replicate (Z.to_nat 9216) 64) (replicate 1024 255) 64);
    [reflexivity|cbn; lia|reflexivity|].
  intros i Hi. apply byte_at_uniform. exact Hi.
Defined.

Lemma arduino_main_keeps_globals_ok_witness :
  globals_ok (state_of (arduino_main Scenario.no_frame 1 1200 Scenario.boot)).
Proof.
  apply (arduino_main_keeps_globals_ok Scenario.no_frame 1 1200 Scenario.boot).
  unfold globals_ok, Scenario.boot.
  cbn [frameCount errorCount bitmapBuffer].
  split; [lia|]. split; [lia|]. split; reflexivity.
Defined.

Lemma frameCount_counts_drawn_bitmaps_witness :
  let run := arduino_main Scenario.healthy 1 3 Scenario.boot in
  frameCount (state_of run) =
  wrap32 (frameCount Scenario.boot +
          Z.of_nat (count_events is_bitmap_draw (events_of run))).
Proof.
  apply (frameCount_counts_drawn_bitmaps Scenario.healthy 1 3 Scenario.boot).
  cbn. lia.
Defined.

Lemma processFrame_shows_converted_frame_witness :
  let r := processFrame Scenario.healthy Scenario.streaming in
  let shown := packed_bitmap (sampled_lit (replicate (Z.to_nat 9216) 200)) in
  result_of r = true /\
  events_of r =
    [EFbGet (Some (Scenario.uniform_frame 200));
     EFbReturn (Scenario.uniform_frame 200); EDisplayClear;
     EDisplayDrawBitmap 0 0 shown BMP_W BMP_H 1; EDisplayFlush] /\
  bitmapBuffer (state_of r) = shown /\
  frameCount (state_of r) = wrap32 (frameCount Scenario.streaming + 1) /\
  errorCount (state_of r) = errorCount Scenario.streaming.
Proof.
  apply (processFrame_shows_converted_frame Scenario.healthy Scenario.streaming
           (Scenario.uniform_frame 200) (replicate (Z.to_nat 9216) 200));
    [reflexivity|reflexivity|reflexivity|reflexivity|reflexivity|reflexivity
    |cbn; lia|reflexivity].
Defined.

Lemma processFrame_redraws_previous_bitmap_witness :
  let r := processFrame Fixture.short_frames Scenario.streaming in
  result_of r = true /\
  events_of r =
    [EFbGet (Some Scenario.short_frame); EFbReturn Scenario.short_frame;
     EDisplayClear;
     EDisplayDrawBitmap 0 0 (bitmapBuffer Scenario.streaming) BMP_W BMP_H 1;
     EDisplayFlush] /\
  bitmapBuffer (state_of r) = bitmapBuffer Scenario.streaming /\
  frameCount (state_of r) = wrap32 (frameCount Scenario.streaming + 1) /\
  errorCount (state_of r) = errorCount Scenario.streaming.
Proof.
  apply (processFrame_redraws_previous_bitmap Fixture.short_frames
           Scenario.streaming Scenario.short_frame);
    [reflexivity|reflexivity|reflexivity|reflexivity|reflexivity|].
  right. cbn. lia.
Defined.

Lemma loop_frame_period_witness :
  total_delay (events_of (loop Scenario.healthy Scenario.streaming)) =
    Z.max 0 (FRAME_DELAY_MS - (3007 - 3000)) /\
  FRAME_DELAY_MS <=
    (3007 - 3000) + total_delay (events_of (loop Scenario.healthy Scenario.streaming)).
Proof.
  apply (loop_frame_period Scenario.healthy Scenario.streaming).
  vm_compute. split; [discriminate|reflexivity].
Defined.

Lemma stats_repeat_while_frames_fail_witness :
  reported_rate (events_of (loop Scenario.no_frame Fixture.at_hundred)) =
  Some (errorRate_expr 100 (wrap32 (3 + 1))) /\
  frameCount (state_of (loop Scenario.no_frame Fixture.at_hundred)) = 100.
Proof.
  apply (stats_repeat_while_frames_fail Scenario.no_frame Fixture.at_hundred);
    [reflexivity|cbn; lia|reflexivity|reflexivity].
Defined.

Lemma simulator_samples_like_firmware_witness :
  Simulator.src_of Simulator.scaleX 127 = Some (srcX_of 127) /\
  Simulator.src_of Simulator.scaleY 63 = Some (srcY_of 63) /\
  let srcIndex := (srcY_of 63 * 96 + srcX_of 127) * 4 in
  0 <= srcIndex /\ srcIndex + 2 < 96 * 96 * 4.
Proof.
  apply (simulator_samples_like_firmware 127 63);
    [unfold BMP_W; lia|unfold BMP_H; lia].
Defined.

Lemma simulator_threshold_exact_on_gray_witness :
  Simulator.pixel_color (Fixture.flat_image 121) 120 5 7 =
  if 120 <? byte_at (replicate (Z.to_nat 9216) 121) (srcY_of 7 * 96 + srcX_of 5)
  then Simulator.white else Simulator.black.
Proof.
  apply (simulator_threshold_exact_on_gray (Fixture.flat_image 121)
           (replicate (Z.to_nat 9216) 121) 120 5 7);
    [|exact (flat_image_lookup 121)|lia|unfold BMP_W; lia|unfold BMP_H; lia].
  intros i Hi. rewrite byte_at_uniform by exact Hi. lia.
Defined.

Lemma simulator_matches_firmware_on_gray_witness :
  Simulator.processFrame true (Fixture.flat_image 65) BRIGHTNESS_THRESHOLD =
  [Simulator.FillStyle Simulator.black; Simulator.FillRect 0 0 128 64] ++
  flat_map (fun y =>
    flat_map (fun x =>
      [Simulator.FillStyle
         (if bitmap_bit (convertFrameToBitmap (Some (Scenario.uniform_frame 65))
                           (replicate 1024 0)) x y
          then Simulator.white else Simulator.black);
       Simulator.FillRect x y 1 1])
      (seqZ 0 BMP_W))
    (seqZ 0 BMP_H) ++
  [Simulator.RequestAnimationFrame].
Proof.
  apply (simulator_matches_firmware_on_gray (Scenario.uniform_frame 65)
           (Fixture.flat_image 65) (replicate (Z.to_nat 9216) 65)
           (replicate 1024 0));
    [reflexivity|cbn; lia|reflexivity| |exact (flat_image_lookup 65)].
  intros i Hi. rewrite byte_at_uniform by exact Hi. lia.
Defined.
